(** * c-server: a shallow embedding of the request pipeline

    The development follows the C sources file by file:
    - [Libc]: the parts of the C library the server calls (fgets, fread,
      strtok, strchr, strrchr, snprintf, isspace), on byte lists and an
      explicit buffer;
    - utils.c: determine_mimetype, determine_request_path,
      http_status_string, skip_whitespace, skip_nonwhitespace;
    - request.c: parse_request_method, parse_request_headers,
      parse_request;
    - handler.c: handle_request and the four handlers;
    - request.c, single.c and forking.c: accept_request, free_request and
      the two server loops, run over a list of incoming connections;
    - [Main]: main.c, with usage, parse_options and main up to the call
      of the server loop;
    - [Spec]: the sentences of the specification as functions, to compare
      the code with;
    - [Example]: a small document root, with glibc's BUFSIZ, to run the
      code in.

    Bytes are [ascii]; a C string is the list of its bytes up to (not
    including) the terminating NUL.  Everything the operating system
    decides (realpath, stat, access, fopen, popen, scandir, the result of
    fwrite) is a variable of the section the code is stated in.  A call
    the C standard leaves undefined (strdup, setenv or fclose on NULL)
    ends a run with [Undefined].  Loops over a stream take the length of
    the stream as fuel, which is enough since every pass reads at least
    one byte. *)

From Stdlib Require Import Ascii String ZArith Lia.
From stdpp Require Import base list strings gmap sorting.

Open Scope Z_scope.
Open Scope nat_scope.
Open Scope list_scope.

(** ** Results of C code that may leave defined behaviour *)

(** [Returns a]: the call returned [a].  [Undefined]: the call reached a
    library call whose behaviour the C standard leaves undefined
    (strdup(NULL), fclose(NULL)); in practice the process crashes. *)
Inductive outcome (A : Type) : Type :=
  | Returns (a : A)
  | Undefined.
Arguments Returns {A} a.
Arguments Undefined {A}.

Definition obind {A B} (m : outcome A) (k : A -> outcome B) : outcome B :=
  match m with
  | Returns a => k a
  | Undefined => Undefined
  end.

Notation "'let!' x ':=' m 'in' k" := (obind m (fun x => k))
  (at level 10, x pattern, m at level 100, k at level 200).

(** ** The C library *)

Module Libc.

Abbreviation cstring := (list ascii).

Definition NUL : ascii := "000"%char.
Definition LF : ascii := "010"%char.
Definition CR : ascii := "013"%char.
Definition TAB : ascii := "009"%char.
Definition VT : ascii := "011"%char.
Definition FF : ascii := "012"%char.
Definition SP : ascii := " "%char.
Definition DQUOTE : ascii := "034"%char.

(** A string literal of the source as bytes. *)
Definition lit (s : string) : cstring := list_ascii_of_string s.

(** [span p l]: the longest prefix of [l] whose elements satisfy [p],
    and the rest. *)
Fixpoint span {A} (p : A -> bool) (l : list A) : list A * list A :=
  match l with
  | [] => ([], [])
  | c :: l' =>
      if p c then let '(a, b) := span p l' in (c :: a, b) else ([], l)
  end.

Definition is_nul (c : ascii) : bool := bool_decide (c = NUL).
Definition mem_of (set : cstring) (c : ascii) : bool := bool_decide (c ∈ set).

(** The C string stored at the start of a byte array: the bytes before
    the first NUL. *)
Definition c_str (raw : list ascii) : cstring :=
  (span (fun c => negb (is_nul c)) raw).1.

Definition strlen (s : cstring) : nat := length s.

(** strchr(s, c) for c <> NUL: offset of the first occurrence. *)
Fixpoint strchr (s : cstring) (c : ascii) : option nat :=
  match s with
  | [] => None
  | d :: s' => if bool_decide (d = c) then Some 0 else S <$> strchr s' c
  end.

(** strrchr(s, c) for c <> NUL: offset of the last occurrence. *)
Fixpoint strrchr (s : cstring) (c : ascii) : option nat :=
  match s with
  | [] => None
  | d :: s' =>
      match strrchr s' c with
      | Some i => Some (S i)
      | None => if bool_decide (d = c) then Some 0 else None
      end
  end.

(** isspace in the "C" locale (the server never calls setlocale). *)
Definition isspace (c : ascii) : bool :=
  mem_of [SP; TAB; LF; VT; FF; CR] c.

(** strncmp(a, b, n) == 0 *)
Definition strncmp_eq (a b : cstring) (n : nat) : bool :=
  bool_decide (take n a = take n b).

(** snprintf(dst, size, "%s...%s", parts): the concatenation, cut to
    the size - 1 bytes that fit before the terminating NUL. *)
Definition snprintf (size : nat) (parts : list cstring) : cstring :=
  take (size - 1) (concat parts).

(** *** Streams *)

(** What is left to read from a FILE. *)
Abbreviation stream := (list ascii).

(** The bytes one fgets call stores: at most [room] bytes, ending after
    the first newline. *)
Fixpoint read_line (room : nat) (s : stream) : list ascii * stream :=
  match room, s with
  | S room', c :: s' =>
      if bool_decide (c = LF) then ([c], s')
      else let '(l, r) := read_line room' s' in (c :: l, r)
  | _, _ => ([], s)
  end.

(** fgets(buffer, size, f): NULL at end of file, otherwise the bytes
    stored in the buffer (a NUL follows them) and the rest of the
    stream. *)
Definition fgets (size : nat) (s : stream) : option (list ascii * stream) :=
  match s with
  | [] => None
  | _ => Some (read_line (size - 1) s)
  end.

(** fread(buffer, 1, size, f): the next chunk and the rest. *)
Definition fread (size : nat) (s : stream) : list ascii * stream :=
  (take size s, drop size s).

(** *** strtok on an explicit buffer

    A buffer is the content of a char array; a pointer into it is an
    offset.  strtok writes NULs into the buffer and keeps a save
    pointer between calls. *)

Abbreviation buffer := (list ascii).

Definition char_at (b : buffer) (p : nat) : ascii := nth p b NUL.

(** The C string that starts at offset [p]. *)
Definition str_at (b : buffer) (p : nat) : cstring := c_str (drop p b).

Definition strspn (b : buffer) (p : nat) (accept : cstring) : nat :=
  length (span (mem_of accept) (str_at b p)).1.

Definition strcspn (b : buffer) (p : nat) (reject : cstring) : nat :=
  length (span (fun c => negb (mem_of reject c)) (str_at b p)).1.

(** strtok(s, delim) with the save pointer made explicit (strtok_r):
    the token found, the buffer after the call, the new save pointer. *)
Definition strtok (b : buffer) (save : nat) (s : option nat) (delim : cstring)
  : option nat * buffer * nat :=
  let s := default save s in
  if is_nul (char_at b s) then (None, b, s)
  else
    let s := s + strspn b s delim in
    if is_nul (char_at b s) then (None, b, s)
    else
      let e := s + strcspn b s delim in
      if is_nul (char_at b e) then (Some s, b, e)
      else (Some s, <[e := NUL]> b, S e).

(** The same on a C string whose buffer nothing else points into: the
    token and the string left at the save pointer. *)
Definition strtok_str (delim : cstring) (s : cstring) : option (cstring * cstring) :=
  let s := (span (mem_of delim) s).2 in
  match s with
  | [] => None
  | _ =>
      let '(tok, rest) := span (fun c => negb (mem_of delim c)) s in
      Some (tok, tail rest)
  end.

(** All the tokens successive strtok calls return. *)
Fixpoint tokens_fuel (fuel : nat) (delim : cstring) (s : cstring) : list cstring :=
  match fuel with
  | 0 => []
  | S fuel' =>
      match strtok_str delim s with
      | None => []
      | Some (tok, rest) => tok :: tokens_fuel fuel' delim rest
      end
  end.

Definition tokens (delim : cstring) (s : cstring) : list cstring :=
  tokens_fuel (length s) delim s.

End Libc.
Export Libc.

(** ** The data model (main.h) *)

(** Modelled from the spec: main.h, which declares the Status enumeration,
    is not among the sources; the spec lists the outcomes OK, BAD_REQUEST,
    NOT_FOUND, INTERNAL_SERVER_ERROR and an unknown/fallback one, and
    http_status_string has a string for each. *)
Inductive Status : Type :=
  | HTTP_STATUS_OK
  | HTTP_STATUS_BAD_REQUEST
  | HTTP_STATUS_NOT_FOUND
  | HTTP_STATUS_INTERNAL_SERVER_ERROR
  | HTTP_STATUS_UNKNOWN.

(** struct header: one cell of the linked list, head first. *)
Record header : Type := Header { name : cstring; value : cstring }.

(** struct request, with the fields request.c and handler.c use (its
    declaration is in main.h).  [file_in] is what is left to read from
    the socket stream r->file.  [file_out] is what the code has handed
    to fprintf, fputs and fwrite on r->file, in the order of the calls.
    r->file is one stream opened for update, which the code writes
    after reading with no positioning call in between: what of
    [file_out] the C library delivers to the client while input is
    still unread is not modelled.  The string fields are pointers, NULL
    ([None]) after calloc; host and port are arrays. *)
Record Request : Type := mkRequest {
  file_in : stream;
  file_out : list ascii;
  host : cstring;
  port : cstring;
  method : option cstring;
  uri : option cstring;
  path : option cstring;
  query : option cstring;
  headers : list header
}.

Definition set_file_in (r : Request) (s : stream) : Request :=
  mkRequest s (file_out r) (host r) (port r) (method r) (uri r) (path r)
            (query r) (headers r).

Definition set_file_out (r : Request) (o : list ascii) : Request :=
  mkRequest (file_in r) o (host r) (port r) (method r) (uri r) (path r)
            (query r) (headers r).

Definition set_request_line (r : Request) (m u q : cstring) : Request :=
  mkRequest (file_in r) (file_out r) (host r) (port r) (Some m) (Some u)
            (path r) (Some q) (headers r).

Definition set_path (r : Request) (p : option cstring) : Request :=
  mkRequest (file_in r) (file_out r) (host r) (port r) (method r) (uri r) p
            (query r) (headers r).

Definition set_headers (r : Request) (hs : list header) : Request :=
  mkRequest (file_in r) (file_out r) (host r) (port r) (method r) (uri r)
            (path r) (query r) hs.

(** fputs / fprintf to r->file. *)
Definition fputs (s : list ascii) (r : Request) : Request :=
  set_file_out r (file_out r ++ s).

Definition CRLF : cstring := [CR; LF].

(** The use of a pointer that must not be NULL. *)
Definition nonnull {A} (p : option A) : outcome A :=
  match p with
  | Some s => Returns s
  | None => Undefined
  end.

(** strdup(p): undefined on a NULL pointer. *)
Definition strdup (p : option cstring) : outcome cstring := nonnull p.

(** Modelled from the spec: main.h's streq macro is not among the sources;
    the spec calls the comparison an exact, case-sensitive match. *)
Definition streq (a b : cstring) : bool := bool_decide (a = b).

(** The process environment (setenv, getenv). *)
Abbreviation environ := (gmap string cstring).

(** setenv(name, value, 1): undefined on a NULL value. *)
Definition setenv (k : string) (v : option cstring) (e : environ) : outcome environ :=
  let! s := nonnull v in Returns (<[k := s]> e).

(** st_mode tests of <sys/stat.h>: S_IFMT is octal 0170000, S_IFDIR
    0040000, S_IFREG 0100000 and S_IRUSR 0400. *)
Definition S_IFMT : Z := 61440%Z.
Definition S_IFDIR : Z := 16384%Z.
Definition S_IFREG : Z := 32768%Z.
Definition S_IRUSR : Z := 256%Z.
Definition S_ISDIR (m : Z) : bool := (Z.land m S_IFMT =? S_IFDIR)%Z.
Definition S_ISREG (m : Z) : bool := (Z.land m S_IFMT =? S_IFREG)%Z.

(** strcmp(a, b), bytes compared as unsigned char. *)
Fixpoint strcmp (a b : cstring) : comparison :=
  match a, b with
  | [], [] => Eq
  | [], _ :: _ => Lt
  | _ :: _, [] => Gt
  | c :: a', d :: b' =>
      match Nat.compare (nat_of_ascii c) (nat_of_ascii d) with
      | Eq => strcmp a' b'
      | o => o
      end
  end.

(** The order of alphasort: strcoll(a, b) <= 0, which in the "C" locale
    the server runs in is strcmp(a, b) <= 0. *)
Definition alphasort_le (a b : cstring) : Prop := strcmp a b <> Gt.

#[global] Instance alphasort_le_dec : RelDecision alphasort_le :=
  fun a b => decide (strcmp a b <> Gt).

(** ** The server *)

Section Server.

(** <stdio.h>'s BUFSIZ; the C standard requires at least 256. *)
Variable BUFSIZ : nat.

(** The globals of main.c, fixed once the options are parsed (RootPath
    is the canonical form main computes with realpath).  They are
    strings here: the section is about a server whose four globals are
    set.  main can leave one of them NULL (see [Main]), and that case is
    outside what is stated about the code of this section. *)
Variable Port : cstring.
Variable MimeTypesPath : cstring.
Variable DefaultMimeType : cstring.
Variable RootPath : cstring.

(** main.h's macros that are not among the sources: the delimiter set
    WHITESPACE, and chomp, which rewrites the string held in the line
    buffer. *)
Variable WHITESPACE : cstring.
Variable chomp : cstring -> cstring.

(** The operating system. *)
Variable realpath : cstring -> option cstring.
Variable stat : cstring -> option Z.
Variable access_X_OK : cstring -> bool.
Variable fopen_r : cstring -> option stream.
Variable opendir : cstring -> bool.
Variable readdir_all : cstring -> option (list cstring).
Variable popen_r : cstring -> environ -> option stream.
(** What one fwrite to the socket returns, from what was written before
    and the chunk. *)
Variable fwrite_ret : list ascii -> list ascii -> nat.

(** *** utils.c *)

(** while ((token = strtok(NULL, WHITESPACE))) if (streq(token, ext)) ...
    Nothing but strtok points into the line buffer here, so the loop is
    written with strtok_str on the string left at the save pointer. *)
Fixpoint scan_tokens (fuel : nat) (rest ext : cstring) : bool :=
  match fuel with
  | 0 => false
  | S fuel' =>
      match strtok_str WHITESPACE rest with
      | None => false
      | Some (token, rest') =>
          if streq token ext then true else scan_tokens fuel' rest' ext
      end
  end.

(** while (fgets(buffer, BUFSIZ, fs)) { ... }: the mimetype of the first
    line that lists [ext]. *)
Fixpoint scan_lines (fuel : nat) (fs : stream) (ext : cstring) : option cstring :=
  match fuel with
  | 0 => None
  | S fuel' =>
      match fgets BUFSIZ fs with
      | None => None
      | Some (raw, fs') =>
          let buffer := c_str raw in
          match strtok_str WHITESPACE buffer with
          | None => scan_lines fuel' fs' ext
          | Some (mimetype, rest) =>
              if scan_tokens (length rest) rest ext then Some mimetype
              else scan_lines fuel' fs' ext
          end
      end
  end.

Definition determine_mimetype (path : cstring) : cstring :=
  match strrchr path "."%char with
  | None => DefaultMimeType
  | Some 0 => DefaultMimeType
  | Some (S i) =>
      match fopen_r MimeTypesPath with
      | None => DefaultMimeType
      | Some fs =>
          let ext := drop (S (S i)) path in
          match scan_lines (length fs) fs ext with
          | Some mimetype => mimetype
          | None => DefaultMimeType
          end
      end
  end.

Definition determine_request_path (uri : cstring) : option cstring :=
  let fulluri := snprintf BUFSIZ [RootPath; uri] in
  match realpath fulluri with
  | None => None
  | Some rp =>
      if strncmp_eq rp RootPath (strlen RootPath) then Some rp else None
  end.

Definition http_status_string (status : Status) : cstring :=
  match status with
  | HTTP_STATUS_OK => lit "200 OK"
  | HTTP_STATUS_BAD_REQUEST => lit "400 Bad Request"
  | HTTP_STATUS_NOT_FOUND => lit "404 Not Found"
  | HTTP_STATUS_INTERNAL_SERVER_ERROR => lit "500 Internal Server Error"
  | HTTP_STATUS_UNKNOWN => lit "418 I'm A Teapot"
  end.

Definition skip_whitespace (s : cstring) : cstring :=
  (span isspace s).2.

(** skip_nonwhitespace(s): [s] is an offset into the array [b], and
    [cells] what the array holds from there on.  The loop tests
    whether the byte at s is a space and nothing else: the terminating NUL is not a space and
    does not stop it, and reading behind the last cell of the array is
    undefined. *)
Fixpoint skip_nonwhitespace_loop (cells : list ascii) (s : nat) : outcome nat :=
  match cells with
  | [] => Undefined
  | c :: cells' =>
      if isspace c then Returns s else skip_nonwhitespace_loop cells' (S s)
  end.

Definition skip_nonwhitespace (b : buffer) (s : nat) : outcome nat :=
  skip_nonwhitespace_loop (drop s b) s.

(** *** request.c *)

(** r->method = strdup(method); r->uri = strdup(uri);
    r->query = strdup(query); return 0; *)
Definition record_request_line (r : Request) (method uri query : option cstring)
  : outcome (Z * Request) :=
  let! m := strdup method in
  let! u := strdup uri in
  let! q := strdup query in
  Returns (0%Z, set_request_line r m u q).

(** [b0] is the line buffer after fgets; method, uri and query are
    offsets into it, and each strtok call may write a NUL into it. *)
Definition parse_request_method (r : Request) : outcome (Z * Request) :=
  match fgets BUFSIZ (file_in r) with
  | None => Returns ((-1)%Z, r)
  | Some (raw, rest) =>
      let r := set_file_in r rest in
      let b0 := raw ++ [NUL] in
      let '(method, b1, save1) := strtok b0 0 (Some 0) [SP; TAB; LF] in
      let '(uri, b2, save2) := strtok b1 save1 None [SP; TAB; LF] in
      match method, uri with
      | Some method, Some uri =>
          match strchr (str_at b2 uri) "?"%char with
          | Some i =>
              let '(query, b3, save3) :=
                strtok b2 save2 (Some (uri + i + 1)) ["#"%char; SP; LF; TAB] in
              let '(uri', b4, save4) := strtok b3 save3 (Some uri) ["?"%char] in
              record_request_line r (Some (str_at b4 method))
                                  (str_at b4 <$> uri') (str_at b4 <$> query)
          | None =>
              record_request_line r (Some (str_at b2 method))
                                  (Some (str_at b2 uri)) (Some [])
          end
      | _, _ => Returns ((-1)%Z, r)
      end
  end.

(** The loop of parse_request_headers: the list built so far is [curr],
    newest header first.  [None] is the jump to fail. *)
Fixpoint parse_headers_loop (fuel : nat) (s : stream) (curr : list header)
  : option (list header) * stream :=
  match fuel with
  | 0 => (Some curr, s)
  | S fuel' =>
      match fgets BUFSIZ s with
      | None => (Some curr, s)
      | Some (raw, s') =>
          let buffer := c_str raw in
          if 2 <? strlen buffer then
            let buffer := chomp buffer in
            match strchr buffer ":"%char with
            | None => (None, s')
            | Some colon =>
                let new :=
                  Header (take colon buffer)
                         (skip_whitespace (drop (colon + 1) buffer)) in
                parse_headers_loop fuel' s' (new :: curr)
            end
          else (Some curr, s')
      end
  end.

Definition parse_request_headers (r : Request) : Z * Request :=
  match parse_headers_loop (length (file_in r)) (file_in r) [] with
  | (Some curr, s) => (0%Z, set_headers (set_file_in r s) curr)
  | (None, s) => ((-1)%Z, set_file_in r s)
  end.

Definition parse_request (r : Request) : outcome (Z * Request) :=
  let! (rc, r) := parse_request_method r in
  if (rc =? 0)%Z then
    let '(rc, r) := parse_request_headers r in
    if (rc =? 0)%Z then Returns (0%Z, r) else Returns ((-1)%Z, r)
  else Returns ((-1)%Z, r).

(** *** handler.c *)

(** fwrite(chunk, 1, n, r->file): the count returned, at most n, and the
    stream with the bytes that were written. *)
Definition fwrite (chunk : list ascii) (r : Request) : nat * Request :=
  let n := min (fwrite_ret (file_out r) chunk) (length chunk) in
  (n, set_file_out r (file_out r ++ take n chunk)).

(** handle_error's copy of the 404 page: a failed fwrite is only logged. *)
Fixpoint copy_error_page (fuel : nat) (fs : stream) (r : Request) : Request :=
  match fuel with
  | 0 => r
  | S fuel' =>
      let '(chunk, fs') := fread BUFSIZ fs in
      if 0 <? length chunk then
        let '(_, r) := fwrite chunk r in copy_error_page fuel' fs' r
      else r
  end.

Definition handle_error (r : Request) (status : Status) : Status * Request :=
  let status_string := http_status_string status in
  let r := fputs (lit "HTTP/1.0 " ++ status_string ++ [LF]) r in
  let r := fputs (lit "Content-type: text/html" ++ CRLF ++ CRLF) r in
  match status with
  | HTTP_STATUS_NOT_FOUND =>
      match fopen_r (lit "www/html/404.html") with
      | None => (status, r)
      | Some fs => (status, copy_error_page (length fs) fs r)
      end
  | _ =>
      let r := fputs (lit "<!DOCTYPE html>" ++ [LF]) r in
      let r := fputs (lit "<html>" ++ [LF]) r in
      let r := fputs (lit "  <body><h1>" ++ status_string
                        ++ lit "</h1></body>" ++ [LF]) r in
      let r := fputs (lit "</html>" ++ [LF]) r in
      (status, r)
  end.

Definition filter_curdir (d_name : cstring) : bool :=
  if streq d_name (lit ".") then false else true.

(** scandir(path, &entries, filter_curdir, alphasort): [None] is -1. *)
Definition scandir (p : cstring) : option (list cstring) :=
  merge_sort alphasort_le <$> (filter (fun d => filter_curdir d = true) <$> readdir_all p).

(** fprintf(r->file, "\t\t<img src=\"%s\" width=\"50\">\r\n", webpath) *)
Definition fmt_img (webpath : cstring) : list ascii :=
  [TAB; TAB] ++ lit "<img src=" ++ [DQUOTE] ++ webpath ++ [DQUOTE]
  ++ lit " width=" ++ [DQUOTE] ++ lit "50" ++ [DQUOTE] ++ lit ">" ++ CRLF.

(** fprintf(r->file,
      "\t\t<a class=\"btn btn-primary\" href=\"%s\">%s</a>\r\n",
      webpath, fname) *)
Definition fmt_anchor (webpath fname : cstring) : list ascii :=
  [TAB; TAB] ++ lit "<a class=" ++ [DQUOTE] ++ lit "btn btn-primary"
  ++ [DQUOTE] ++ lit " href=" ++ [DQUOTE] ++ webpath ++ [DQUOTE]
  ++ lit ">" ++ fname ++ lit "</a>" ++ CRLF.

(** The body of the for loop of handle_browse_request. *)
Definition emit_entry (uri separator fname : cstring) (r : Request) : Request :=
  let mimetype := determine_mimetype fname in
  let is_image := strncmp_eq mimetype (lit "image/") 6 in
  let webpath := snprintf BUFSIZ [uri; separator; fname] in
  let r := fputs ([TAB] ++ lit "<li>" ++ CRLF) r in
  let r := if is_image then fputs (fmt_img webpath) r else r in
  let r := fputs (fmt_anchor webpath fname) r in
  fputs ([TAB] ++ lit "</li>" ++ CRLF) r.

(** Everything one pass of the loop writes. *)
Definition listing_item (uri separator fname : cstring) : list ascii :=
  let webpath := take (BUFSIZ - 1) (uri ++ separator ++ fname) in
  [TAB] ++ lit "<li>" ++ CRLF
  ++ (if strncmp_eq (determine_mimetype fname) (lit "image/") 6
      then fmt_img webpath else [])
  ++ fmt_anchor webpath fname
  ++ [TAB] ++ lit "</li>" ++ CRLF.

Fixpoint emit_entries (uri separator : cstring) (entries : list cstring)
  (r : Request) : Request :=
  match entries with
  | [] => r
  | fname :: entries' =>
      emit_entries uri separator entries' (emit_entry uri separator fname r)
  end.

Definition handle_browse_request (r : Request) : outcome (Status * Request) :=
  match path r, uri r with
  | Some p, Some u =>
      if opendir p then
        let r := fputs (lit "HTTP/1.0 200 OK" ++ CRLF
                        ++ lit "Content-Type: text/html" ++ CRLF ++ CRLF) r in
        match scandir p with
        | None => Returns (handle_error r HTTP_STATUS_NOT_FOUND)
        | Some entries =>
            match last u with
            | None => Undefined
            | Some c =>
                let separator :=
                  if bool_decide (c = "/"%char) then [] else lit "/" in
                let r := fputs (lit "<h1>Index of " ++ u ++ lit "</h1>" ++ CRLF) r in
                let r := fputs (lit "<ul>" ++ CRLF) r in
                let r := emit_entries u separator entries r in
                let r := fputs (lit "</ul>" ++ CRLF) r in
                Returns (HTTP_STATUS_OK, r)
            end
        end
      else Returns (handle_error r HTTP_STATUS_NOT_FOUND)
  | _, _ => Undefined
  end.

(** The read/write loop of handle_file_request: [false] is the jump to
    fail after fwrite returned 0. *)
Fixpoint stream_file (fuel : nat) (fs : stream) (r : Request) : bool * Request :=
  match fuel with
  | 0 => (true, r)
  | S fuel' =>
      let '(chunk, fs') := fread BUFSIZ fs in
      if 0 <? length chunk then
        let '(n, r) := fwrite chunk r in
        if n =? 0 then (false, r) else stream_file fuel' fs' r
      else (true, r)
  end.

(** At fail the code calls fclose(fs); when fopen failed fs is NULL and
    the call is undefined. *)
Definition handle_file_request (r : Request) : outcome (Status * Request) :=
  match path r with
  | None => Undefined
  | Some p =>
      match fopen_r p with
      | None => Undefined
      | Some fs =>
          let mimetype := determine_mimetype p in
          let r := fputs (lit "HTTP/1.0 " ++ http_status_string HTTP_STATUS_OK
                          ++ CRLF) r in
          let r := fputs (lit "Content-type: " ++ mimetype ++ CRLF ++ CRLF) r in
          match stream_file (length fs) fs r with
          | (true, r) => Returns (HTTP_STATUS_OK, r)
          | (false, r) => Returns (handle_error r HTTP_STATUS_INTERNAL_SERVER_ERROR)
          end
      end
  end.

(** One step of the loop over r->headers in handle_cgi_request. *)
Definition export_header (head : header) (e : environ) : environ :=
  if streq (name head) (lit "Host") then <["HTTP_HOST" := value head]> e
  else if streq (name head) (lit "User-Agent") then
    <["HTTP_USER_AGENT" := value head]> e
  else if streq (name head) (lit "Accept") then <["HTTP_ACCEPT" := value head]> e
  else if streq (name head) (lit "Accept-Language") then
    <["HTTP_ACCEPT" := value head]> e
  else if streq (name head) (lit "Accept-Encoding") then
    <["HTTP_ACCEPT_ENCODING" := value head]> e
  else if streq (name head) (lit "Connection") then
    <["HTTP_CONNECTION" := value head]> e
  else e.

Fixpoint export_headers (head : list header) (e : environ) : environ :=
  match head with
  | [] => e
  | h :: next => export_headers next (export_header h e)
  end.

(** The variable the loop sets for a header of the given name, as the
    chain of comparisons decides it. *)
Definition exported_as (header_name : cstring) : option string :=
  if streq header_name (lit "Host") then Some "HTTP_HOST"%string
  else if streq header_name (lit "User-Agent") then Some "HTTP_USER_AGENT"%string
  else if streq header_name (lit "Accept") then Some "HTTP_ACCEPT"%string
  else if streq header_name (lit "Accept-Language") then Some "HTTP_ACCEPT"%string
  else if streq header_name (lit "Accept-Encoding") then
    Some "HTTP_ACCEPT_ENCODING"%string
  else if streq header_name (lit "Connection") then Some "HTTP_CONNECTION"%string
  else None.

(** The environment handle_cgi_request sets up before popen. *)
Definition export_environment (r : Request) (e : environ) : outcome environ :=
  let! e := setenv "DOCUMENT_ROOT" (Some RootPath) e in
  let! e := setenv "QUERY_STRING" (query r) e in
  let! e := setenv "REMOTE_ADDR" (Some (host r)) e in
  let! e := setenv "REMOTE_PORT" (Some (port r)) e in
  let! e := setenv "REQUEST_METHOD" (method r) e in
  let! e := setenv "REQUEST_URI" (uri r) e in
  let! e := setenv "SCRIPT_FILENAME" (path r) e in
  let! e := setenv "SERVER_PORT" (Some Port) e in
  Returns (export_headers (headers r) e).

(** The environment after the eight calls, for a request whose method,
    URI, path and query are the strings given. *)
Definition exported (r : Request) (m u p q : cstring) (e : environ) : environ :=
  <["SERVER_PORT" := Port]>
    (<["SCRIPT_FILENAME" := p]>
       (<["REQUEST_URI" := u]>
          (<["REQUEST_METHOD" := m]>
             (<["REMOTE_PORT" := port r]>
                (<["REMOTE_ADDR" := host r]>
                   (<["QUERY_STRING" := q]>
                      (<["DOCUMENT_ROOT" := RootPath]> e))))))).

(** while (fgets(buffer, BUFSIZ, pfs) && strlen(buffer) > 0)
      fprintf(r->file, "%s", buffer); *)
Fixpoint copy_cgi_output (fuel : nat) (pfs : stream) (r : Request) : Request :=
  match fuel with
  | 0 => r
  | S fuel' =>
      match fgets BUFSIZ pfs with
      | None => r
      | Some (raw, pfs') =>
          let buffer := c_str raw in
          if 0 <? strlen buffer then copy_cgi_output fuel' pfs' (fputs buffer r)
          else r
      end
  end.

Definition handle_cgi_request (r : Request) (e : environ)
  : outcome (Status * Request * environ) :=
  let! e := export_environment r e in
  match e !! "SCRIPT_FILENAME" with
  | None => Undefined
  | Some command =>
      match popen_r command e with
      | None =>
          let '(st, r) := handle_error r HTTP_STATUS_INTERNAL_SERVER_ERROR in
          Returns (st, r, e)
      | Some pfs =>
          let r := copy_cgi_output (length pfs) pfs r in
          Returns (HTTP_STATUS_OK, r, e)
      end
  end.

Definition with_env {A B} (e : environ) (x : A * B) : A * B * environ :=
  (x.1, x.2, e).

(** The result of a handler that leaves the environment alone. *)
Definition lift_env {A B} (e : environ) (o : outcome (A * B))
  : outcome (A * B * environ) :=
  let! res := o in Returns (with_env e res).

Definition handle_request (r : Request) (e : environ)
  : outcome (Status * Request * environ) :=
  let! (rc, r) := parse_request r in
  if (rc <? 0)%Z then
    Returns (with_env e (handle_error r HTTP_STATUS_BAD_REQUEST))
  else
    let! u := nonnull (uri r) in
    let r := set_path r (determine_request_path u) in
    match path r with
    | None => Returns (with_env e (handle_error r HTTP_STATUS_NOT_FOUND))
    | Some p =>
        match stat p with
        | None =>
            Returns (with_env e (handle_error r HTTP_STATUS_INTERNAL_SERVER_ERROR))
        | Some st_mode =>
            if S_ISDIR st_mode then
              lift_env e (handle_browse_request r)
            else if S_ISREG st_mode then
              if access_X_OK p then handle_cgi_request r e
              else if negb (Z.land st_mode S_IRUSR =? 0)%Z then
                lift_env e (handle_file_request r)
              else
                Returns (with_env e
                           (handle_error r HTTP_STATUS_INTERNAL_SERVER_ERROR))
            else
              Returns (with_env e
                         (handle_error r HTTP_STATUS_INTERNAL_SERVER_ERROR))
        end
    end.

(** The request [r] is one that handle_request gives to a script:
    it parses, its path resolves to a regular file the process may
    execute, and popen, called with that path as command in the
    environment [e'], starts the script, whose output is [pfs]. *)
Definition runs_script (r : Request) (e' : environ) (pfs : stream) : Prop :=
  exists r1 u p m,
    parse_request r = Returns (0%Z, r1) /\ uri r1 = Some u /\
    determine_request_path u = Some p /\ stat p = Some m /\
    S_ISDIR m = false /\ S_ISREG m = true /\ access_X_OK p = true /\
    popen_r p e' = Some pfs.

(** *** Reading a stream as the lines fgets returns *)

Fixpoint fgets_all (fuel : nat) (s : stream) : list (list ascii) :=
  match fuel with
  | 0 => []
  | S fuel' =>
      match fgets BUFSIZ s with
      | None => []
      | Some (raw, s') => raw :: fgets_all fuel' s'
      end
  end.

(** Every line of the stream, each at most BUFSIZ - 1 bytes. *)
Definition input_lines (s : stream) : list (list ascii) :=
  fgets_all (length s) s.

(** The lines before the first one whose string is at most 2 bytes long. *)
Definition header_block (s : stream) : list cstring :=
  (span (fun l => 2 <? strlen l) (c_str <$> input_lines s)).1.

(** The chunks successive calls fread(buffer, 1, BUFSIZ, fs) return. *)
Fixpoint fread_all (fuel : nat) (fs : stream) : list (list ascii) :=
  match fuel with
  | 0 => []
  | S fuel' =>
      let '(chunk, fs') := fread BUFSIZ fs in
      if 0 <? length chunk then chunk :: fread_all fuel' fs' else []
  end.

Definition file_chunks (fs : stream) : list (list ascii) :=
  fread_all (length fs) fs.

(** The mimetype table as determine_mimetype reads it: the tokens of
    each line. *)
Definition table_lines (table : stream) : list (list cstring) :=
  tokens WHITESPACE <$> (c_str <$> input_lines table).

(** A line cut at its first colon. *)
Definition split_header (line : cstring) : option header :=
  (fun colon =>
     Header (take colon line) (skip_whitespace (drop (colon + 1) line)))
    <$> strchr line ":"%char.

End Server.

(** ** Connections: accept_request, free_request and the server loops *)

(** What a Request pointer refers to in accept_request and free_request:
    nothing (NULL), the zeroed struct of calloc whose stream is not open
    yet (r->file is NULL; at most fd, host and port are set), or a
    request whose stream r->file is open. *)
Inductive request_ptr : Type :=
  | NULL_request
  | Unopened
  | Opened (r : Request).

(** What one pass of a server loop meets: whether calloc finds memory,
    the descriptor accept returns (negative on error), the host and port
    getnameinfo finds ([None] when it returns an error), whether fdopen
    and, in forking_server, fork succeed, and the bytes the client
    sends. *)
Record arrival : Type := Arrival {
  calloc_ok : bool;
  client_fd : Z;
  nameinfo : option (cstring * cstring);
  fdopen_ok : bool;
  fork_ok : bool;
  sent : stream
}.

(** fclose(f): undefined on a NULL stream. *)
Definition fclose {A} (f : option A) : outcome unit :=
  let! _ := nonnull f in Returns tt.

(** free_request(r).  Memory is not modelled: of the calls the function
    makes only fclose(r->file) can be observed. *)
Definition free_request (r : request_ptr) : outcome unit :=
  match r with
  | NULL_request => Returns tt
  | Unopened => fclose (@None stream)
  | Opened r => fclose (Some (file_in r))
  end.

(** accept_request(sfd): every goto fail happens before r->file is
    assigned. *)
Definition accept_request (a : arrival) : outcome request_ptr :=
  if negb (calloc_ok a) then Returns NULL_request
  else if (client_fd a <? 0)%Z then
    let! _ := free_request Unopened in Returns NULL_request
  else
    match nameinfo a with
    | None => let! _ := free_request Unopened in Returns NULL_request
    | Some (h, p) =>
        if negb (fdopen_ok a) then
          let! _ := free_request Unopened in Returns NULL_request
        else Returns (Opened (mkRequest (sent a) [] h p None None None None []))
    end.

Section Servers.

Variable BUFSIZ : nat.
Variables Port MimeTypesPath DefaultMimeType RootPath WHITESPACE : cstring.
Variable chomp : cstring -> cstring.
Variable realpath : cstring -> option cstring.
Variable stat : cstring -> option Z.
Variable access_X_OK : cstring -> bool.
Variable fopen_r : cstring -> option stream.
Variable opendir : cstring -> bool.
Variable readdir_all : cstring -> option (list cstring).
Variable popen_r : cstring -> environ -> option stream.
Variable fwrite_ret : list ascii -> list ascii -> nat.

(** handle_request(r) on a pointer: the handler reads r->file at once,
    which a NULL pointer or a NULL stream does not allow. *)
Definition handle_request_ptr (r : request_ptr) (e : environ)
  : outcome (Status * Request * environ) :=
  match r with
  | Opened r =>
      handle_request BUFSIZ Port MimeTypesPath DefaultMimeType RootPath
                     WHITESPACE chomp realpath stat access_X_OK fopen_r
                     opendir readdir_all popen_r fwrite_ret r e
  | _ => Undefined
  end.

(** *** single.c

    The loop of single_server never ends; [single_server arrivals e] is
    its run over the connections [arrivals], one pass each: the status
    handle_request returned for every connection that was handled,
    oldest first, and the environment of the process afterwards.  What
    reaches the clients is not part of it. *)
Fixpoint single_server (arrivals : list arrival) (e : environ)
  : outcome (list Status * environ) :=
  match arrivals with
  | [] => Returns ([], e)
  | a :: arrivals' =>
      let! r := accept_request a in
      match r with
      | NULL_request => single_server arrivals' e
      | _ =>
          let! (st, r', e') := handle_request_ptr r e in
          let! _ := free_request (Opened r') in
          let! (served, e'') := single_server arrivals' e' in
          Returns (st :: served, e'')
      end
  end.

(** *** forking.c

    What the child forked for a connection does: handle_request(r) and
    exit(EXIT_SUCCESS), which flushes the socket stream. *)
Definition forked_child (r : request_ptr) (e : environ)
  : outcome (Status * list ascii) :=
  let! (st, r', _) := handle_request_ptr r e in Returns (st, file_out r').

(** [forking_server arrivals e] is the run of the parent over the
    connections [arrivals]: for each of them the run of its child,
    [None] when fork failed.  A child starts as a copy of the parent
    and nothing it does changes the parent; signal(SIGCHLD, SIG_IGN)
    only spares the parent the wait for its children. *)
Fixpoint forking_server (arrivals : list arrival) (e : environ)
  : outcome (list (option (outcome (Status * list ascii)))) :=
  match arrivals with
  | [] => Returns []
  | a :: arrivals' =>
      let! r := accept_request a in
      if fork_ok a then
        let child := forked_child r e in
        let! _ := free_request r in
        let! children := forking_server arrivals' e in
        Returns (Some child :: children)
      else
        let! _ := free_request r in
        let! children := forking_server arrivals' e in
        Returns (None :: children)
  end.

End Servers.

(** ** main.c *)

Module Main.

(** main.h's ServerMode, with the two values main.c uses. *)
Inductive ServerMode : Type := SINGLE | FORKING.

(** The global variables of main.c.  Each is a char *, and parse_options
    can store the NULL pointer argv[argc] in it. *)
Record globals : Type := Globals {
  Port : option cstring;
  MimeTypesPath : option cstring;
  DefaultMimeType : option cstring;
  RootPath : option cstring
}.

Definition initial_globals : globals :=
  Globals (Some (lit "9898")) (Some (lit "/etc/mime.types"))
          (Some (lit "text/plain")) (Some (lit "www")).

Definition set_Port (g : globals) (v : option cstring) : globals :=
  Globals v (MimeTypesPath g) (DefaultMimeType g) (RootPath g).

Definition set_MimeTypesPath (g : globals) (v : option cstring) : globals :=
  Globals (Port g) v (DefaultMimeType g) (RootPath g).

Definition set_DefaultMimeType (g : globals) (v : option cstring) : globals :=
  Globals (Port g) (MimeTypesPath g) v (RootPath g).

Definition set_RootPath (g : globals) (v : option cstring) : globals :=
  Globals (Port g) (MimeTypesPath g) (DefaultMimeType g) v.

(** <stdlib.h> on POSIX systems. *)
Definition EXIT_SUCCESS : Z := 0%Z.
Definition EXIT_FAILURE : Z := 1%Z.

(** A call returns, or it ends the process through exit (or a return
    from main) with a status, after writing to stderr. *)
Inductive completion (A : Type) : Type :=
  | Done (a : A)
  | Exit (status : Z) (stderr : list ascii).
Arguments Done {A} a.
Arguments Exit {A} status stderr.

(** usage(progname, status); printing a NULL pointer with %s is
    undefined. *)
Definition usage {A} (progname : option cstring) (status : Z)
  : outcome (completion A) :=
  let! progname := nonnull progname in
  Returns (Exit status
    (lit "Usage: " ++ progname ++ lit " [hcmMpr]" ++ [LF]
     ++ lit "Options:" ++ [LF]
     ++ [TAB] ++ lit "-h" ++ [TAB; TAB] ++ lit "Display help message" ++ [LF]
     ++ [TAB] ++ lit "-c mode" ++ [TAB; TAB] ++ lit "Single or Forking mode" ++ [LF]
     ++ [TAB] ++ lit "-m path" ++ [TAB; TAB] ++ lit "Path to mimetypes file" ++ [LF]
     ++ [TAB] ++ lit "-M mimetype" ++ [TAB] ++ lit "Default mimetype" ++ [LF]
     ++ [TAB] ++ lit "-p port" ++ [TAB; TAB] ++ lit "Port to listen on" ++ [LF]
     ++ [TAB] ++ lit "-M path " ++ [TAB] ++ lit "Root directory" ++ [LF])).

(** The while loop of parse_options.  argc is the length of [argv];
    argv[argc] is the NULL pointer, which [argv !! argind] gives for
    argind = argc, the highest index the loop reads.  streq, the
    comparison of main.h modelled above, is taken to hand its arguments
    to strcmp, which is undefined on a NULL pointer.  Every pass
    advances argind, so that the length of [argv] is fuel enough. *)
Fixpoint parse_options_loop (fuel : nat) (argv : list cstring) (argind : nat)
  (mode : ServerMode) (g : globals)
  : outcome (completion (bool * ServerMode * globals)) :=
  match fuel with
  | 0 => Returns (Done (true, mode, g))
  | S fuel' =>
      match argv !! argind with
      | None => Returns (Done (true, mode, g))
      | Some arg =>
          if (1 <? strlen arg) && bool_decide (char_at arg 0 = "-"%char) then
            let argind := S argind in
            let c := char_at arg 1 in
            if bool_decide (c = "c"%char) then
              let! a := nonnull (argv !! argind) in
              if streq a (lit "single") then
                parse_options_loop fuel' argv (S argind) SINGLE g
              else if streq a (lit "forking") then
                parse_options_loop fuel' argv (S argind) FORKING g
              else Returns (Done (false, mode, g))
            else if bool_decide (c = "h"%char) then
              usage (argv !! 0) EXIT_SUCCESS
            else if bool_decide (c = "m"%char) then
              parse_options_loop fuel' argv (S argind) mode
                                 (set_MimeTypesPath g (argv !! argind))
            else if bool_decide (c = "M"%char) then
              parse_options_loop fuel' argv (S argind) mode
                                 (set_DefaultMimeType g (argv !! argind))
            else if bool_decide (c = "p"%char) then
              parse_options_loop fuel' argv (S argind) mode
                                 (set_Port g (argv !! argind))
            else if bool_decide (c = "r"%char) then
              parse_options_loop fuel' argv (S argind) mode
                                 (set_RootPath g (argv !! argind))
            else Returns (Done (false, mode, g))
          else Returns (Done (true, mode, g))
      end
  end.

(** parse_options(argc, argv, &mode): the value returned, *mode and the
    globals afterwards. *)
Definition parse_options (argv : list cstring) (mode : ServerMode) (g : globals)
  : outcome (completion (bool * ServerMode * globals)) :=
  parse_options_loop (length argv) argv 1 mode g.

Section Program.

(** socket_listen is defined in a file that is not among the sources;
    it returns a descriptor, negative on failure. *)
Variable socket_listen : option cstring -> Z.
Variable realpath : cstring -> option cstring.

(** The call main ends with, single_server(socket_fd) or
    forking_server(socket_fd) by the mode, and the globals it runs
    with.  Neither call returns. *)
Record serving : Type := Serving {
  serving_mode : ServerMode;
  socket_fd : Z;
  serving_globals : globals
}.

(** main(argc, argv) up to the call of the server loop.  realpath on a
    NULL path fails and returns NULL. *)
Definition main (argv : list cstring) : outcome (completion serving) :=
  let! parsed := parse_options argv SINGLE initial_globals in
  match parsed with
  | Exit status stderr => Returns (Exit status stderr)
  | Done (ok, mode, g) =>
      if negb ok then usage (argv !! 0) EXIT_FAILURE
      else
        let socket_fd := socket_listen (Port g) in
        if (socket_fd <? 0)%Z then
          Returns (Exit EXIT_FAILURE (lit "socket_listen failed" ++ [LF]))
        else
          let g := set_RootPath g (RootPath g ≫= realpath) in
          Returns (Done (Serving mode socket_fd g))
  end.

End Program.

(** *** Command lines

    What a well-formed command line says, to state what parse_options
    makes of it. *)
Inductive setting : Type :=
  | Mode (m : ServerMode)
  | MimeTypes (path : cstring)
  | DefaultType (mimetype : cstring)
  | Listen (port : cstring)
  | Root (path : cstring).

Definition flag (s : setting) : ascii :=
  match s with
  | Mode _ => "c"
  | MimeTypes _ => "m"
  | DefaultType _ => "M"
  | Listen _ => "p"
  | Root _ => "r"
  end%char.

Definition argument (s : setting) : cstring :=
  match s with
  | Mode SINGLE => lit "single"
  | Mode FORKING => lit "forking"
  | MimeTypes v | DefaultType v | Listen v | Root v => v
  end.

(** The two words of a setting; the option word may go on after its
    letter. *)
Definition words (s : setting * cstring) : list cstring :=
  [ "-"%char :: flag s.1 :: s.2; argument s.1 ].

Definition apply_setting (c : ServerMode * globals) (s : setting)
  : ServerMode * globals :=
  match s with
  | Mode m => (m, c.2)
  | MimeTypes v => (c.1, set_MimeTypesPath c.2 (Some v))
  | DefaultType v => (c.1, set_DefaultMimeType c.2 (Some v))
  | Listen v => (c.1, set_Port c.2 (Some v))
  | Root v => (c.1, set_RootPath c.2 (Some v))
  end.

(** A word the loop of parse_options stops at. *)
Definition not_an_option (arg : cstring) : Prop :=
  strlen arg <= 1 \/ char_at arg 0 <> "-"%char.

End Main.

(** ** Predicates the theorems are stated with *)

(** The names handle_cgi_request gives to setenv before its loop over
    the headers. *)
Definition cgi_variables : list string :=
  ["DOCUMENT_ROOT"; "QUERY_STRING"; "REMOTE_ADDR"; "REMOTE_PORT";
   "REQUEST_METHOD"; "REQUEST_URI"; "SCRIPT_FILENAME"; "SERVER_PORT"]%string.

(** The names it gives to setenv in the loop. *)
Definition header_variables : list string :=
  ["HTTP_HOST"; "HTTP_USER_AGENT"; "HTTP_ACCEPT"; "HTTP_ACCEPT_ENCODING";
   "HTTP_CONNECTION"]%string.

(** [h] is the header of [line]: the name is what stands before the
    first colon, the value what follows it without its leading
    whitespace. *)
Definition header_of_line (line : cstring) (h : header) : Prop :=
  exists ws, line = name h ++ ":"%char :: ws ++ value h /\
    (":"%char ∉ name h) /\
    Forall (fun c => isspace c = true) ws /\
    (forall c s', value h = c :: s' -> isspace c = false).


(** The line a client sends for the header [h], with [sep] between the
    colon and the value. *)
Definition header_line (sep : cstring) (h : header) : list ascii :=
  name h ++ ":"%char :: sep ++ value h ++ [LF].

(** A header whose line can be read back: the name has no colon, name
    and value fit in one line of the stream, the value starts with no
    whitespace, and the line is longer than the two bytes of a closing
    line and fits the buffer. *)
Definition sendable (BUFSIZ : nat) (sep : cstring) (h : header) : Prop :=
  (":"%char ∉ name h) /\ (NUL ∉ name h) /\ (LF ∉ name h) /\
  (NUL ∉ value h) /\ (LF ∉ value h) /\
  (forall c v, value h = c :: v -> isspace c = false) /\
  2 < length (header_line sep h) < BUFSIZ.

(** An input line followed by [rest]: it ends with its newline, or it is
    the unterminated last line of the stream. *)
Definition input_line (line rest : list ascii) : Prop :=
  line <> [] /\
  ((exists body, line = body ++ [LF] /\ (LF ∉ body)) \/ ((LF ∉ line) /\ rest = [])).


(** ** The specification's words

    Definitions that follow the sentences of the specification, to be
    compared with the code above. *)

Module Spec.

(** The text between newlines (a last piece without newline included). *)
Fixpoint split_lines (s : list ascii) : list (list ascii) :=
  match s with
  | [] => [[]]
  | c :: s' =>
      if bool_decide (c = LF) then [] :: split_lines s'
      else
        match split_lines s' with
        | l :: ls => (c :: l) :: ls
        | [] => [[c]]
        end
  end.

(** A line without its carriage return. *)
Definition strip_cr (l : list ascii) : list ascii :=
  match last l with
  | Some c => if bool_decide (c = CR) then take (length l - 1) l else l
  | None => l
  end.

Definition is_blank (l : list ascii) : bool := bool_decide (strip_cr l = []).

(** 4.2: concatenate root and URI, canonicalize, and keep the result
    when the root is a literal prefix of it. *)
Definition resolve (realpath : cstring -> option cstring) (root uri : cstring)
  : option cstring :=
  match realpath (root ++ uri) with
  | None => None
  | Some rp => if bool_decide (root `prefix_of` rp) then Some rp else None
  end.

(** 4.3: the substring after the last dot. *)
Definition extension (path : cstring) : option cstring :=
  (fun i => drop (S i) path) <$> strrchr path "."%char.

(** 4.3: the content type of the first table line whose extension list
    holds the extension; the default when there is none. *)
Definition mimetype (default delim : cstring) (table : stream) (path : cstring)
  : cstring :=
  match extension path with
  | None => default
  | Some ext =>
      match
        list_find (fun toks => ext ∈ tail toks) (tokens delim <$> split_lines table)
      with
      | Some (_, toks) => List.hd default toks
      | None => default
      end
  end.

(** 4.4: the non-blank lines before the blank line, each split at its
    first colon, in the order received; a failure when one has no colon. *)
Definition parse_headers (s : stream) : option (list header) :=
  mapM split_header
       (span (fun l => negb (bool_decide (l = []))) (strip_cr <$> split_lines s)).1.

(** 4.8: the output lines before the first empty line. *)
Definition cgi_copy (out : stream) : list ascii :=
  let ls := (span (fun l => negb (is_blank l)) (split_lines out)).1 in
  concat ((fun l => l ++ [LF]) <$> ls).

(** 4.5: the four routes of the dispatcher. *)
Inductive route : Type :=
  | DirectoryListing
  | Cgi
  | StaticFile
  | ServerError.

(** 4.5: a directory is listed; a regular file the process may execute
    is run; a regular file that is not executable but readable is
    served; anything else is an error.  Readable, like executable, is
    said of the process that serves. *)
Definition dispatch (is_directory is_regular executable readable : bool) : route :=
  if is_directory then DirectoryListing
  else if is_regular && executable then Cgi
  else if is_regular && negb executable && readable then StaticFile
  else ServerError.

(** 4.6: the request URI joined with the entry name. *)
Definition link_target (uri fname : cstring) : cstring :=
  uri ++ (if bool_decide (last uri = Some "/"%char) then [] else lit "/") ++ fname.

End Spec.

(** ** A small world to run the code in *)

Module Example.

(** glibc's BUFSIZ. *)
Definition BUFSIZ : nat := 8 * 1024.

Definition root : cstring := lit "/srv/www".

(** A chomp that overwrites the last byte of the line, its newline. *)
Definition chomp (s : cstring) : cstring := take (length s - 1) s.

Definition WHITESPACE : cstring := [SP; TAB; LF].

Definition lookup_path {A} (table : list (cstring * A)) (p : cstring) : option A :=
  snd <$> List.find (fun kv => bool_decide (kv.1 = p)) table.

(** 4089 times "/." and then "/page.html": 8188 bytes, which still fit
    a request line of BUFSIZ - 1 bytes after a one-letter method. *)
Definition dots : cstring := concat (replicate 4089 (lit "/.")).
Definition long_uri : cstring := dots ++ lit "/page.html".

(** The canonical paths of a document root with index.html, page (but no
    page.html), a script and an image directory, next to a sibling
    directory /srv/www-evil. *)
Definition realpath : cstring -> option cstring :=
  lookup_path
    [ (lit "/srv/www/", lit "/srv/www");
      (lit "/srv/www/index.html", lit "/srv/www/index.html");
      (lit "/srv/www/report.cgi", lit "/srv/www/report.cgi");
      (lit "/srv/www/locked", lit "/srv/www/locked");
      (lit "/srv/www/private", lit "/srv/www/private");
      (lit "/srv/www/docs", lit "/srv/www/docs");
      (lit "/srv/www/docs/", lit "/srv/www/docs");
      (lit "/srv/www/pipe", lit "/srv/www/pipe");
      (lit "/srv/www/../www-evil/x", lit "/srv/www-evil/x");
      (lit "/srv/www/../../etc/passwd", lit "/etc/passwd");
      (root ++ dots ++ lit "/page", lit "/srv/www/page") ].

Definition Port : cstring := lit "9898".
Definition MimeTypesPath : cstring := lit "/etc/mime.types".
Definition DefaultMimeType : cstring := lit "text/plain".

Definition mime_types : stream :=
  lit "# MIME type" ++ [TAB] ++ lit "Extensions" ++ [LF]
  ++ lit "text/html" ++ [TAB; TAB] ++ lit "html htm shtml" ++ [LF]
  ++ [LF]
  ++ lit "image/png" ++ [TAB; TAB] ++ lit "png" ++ [LF]
  ++ lit "text/x-c" ++ [TAB; TAB] ++ lit "c h" ++ [LF].

(** st_mode: directories 0755, a file 0600 of another user (fopen
    fails on it), files 0644, a script 0755, a file 0000 and a FIFO
    0644. *)
Definition stat : cstring -> option Z :=
  lookup_path
    [ (lit "/srv/www", 16877%Z);
      (lit "/srv/www/docs", 16877%Z);
      (lit "/srv/www/private", 33152%Z);
      (lit "/srv/www/index.html", 33188%Z);
      (lit "/srv/www/page", 33188%Z);
      (lit "/srv/www/report.cgi", 33261%Z);
      (lit "/srv/www/locked", 32768%Z);
      (lit "/srv/www/pipe", 4516%Z) ].

Definition access_X_OK (p : cstring) : bool :=
  bool_decide (p ∈ [lit "/srv/www"; lit "/srv/www/report.cgi"]).

Definition fopen_r : cstring -> option stream :=
  lookup_path
    [ (MimeTypesPath, mime_types);
      (lit "/srv/www/index.html", lit "<h1>It works</h1>" ++ [LF]);
      (lit "/srv/www/page", lit "another page" ++ [LF]);
      (lit "www/html/404.html", lit "<h1>Not here</h1>" ++ [LF]) ].

Definition opendir (p : cstring) : bool :=
  bool_decide (p ∈ [lit "/srv/www"; lit "/srv/www/docs"]).

Definition readdir_all : cstring -> option (list cstring) :=
  lookup_path
    [ (lit "/srv/www",
       [lit "index.html"; lit "."; lit "logo.png"; lit ".."; lit ".hidden";
        lit "Notes"; lit "report.cgi"; lit "docs"]);
      (lit "/srv/www/docs", [lit "index.html"; lit ".."; lit "."]) ].

(** The script prints a header, an empty line and the query string. *)
Definition popen_r (command : cstring) (e : environ) : option stream :=
  if bool_decide (command = lit "/srv/www/report.cgi") then
    Some (lit "Content-Type: text/plain" ++ [LF] ++ [LF]
          ++ lit "q=" ++ default [] (e !! "QUERY_STRING") ++ [LF])
  else None.

(** Every fwrite writes the whole chunk. *)
Definition fwrite_ret (written chunk : list ascii) : nat := length chunk.

Definition request (input : stream) : Request :=
  mkRequest input [] (lit "192.0.2.7") (lit "51234") None None None None [].

(** The status returned and the bytes sent. *)
Definition response (o : outcome (Status * Request * environ))
  : option (Status * list ascii) :=
  match o with
  | Returns (st, r, _) => Some (st, file_out r)
  | Undefined => None
  end.

Definition run (input : stream) : outcome (Status * Request * environ) :=
  handle_request BUFSIZ Port MimeTypesPath DefaultMimeType root WHITESPACE
                 chomp realpath stat access_X_OK fopen_r opendir readdir_all
                 popen_r fwrite_ret (request input) ∅.

(** 4088 times "/." and then "/docs/": with index.html appended, one
    byte more than a buffer holds. *)
Definition long_dir : cstring := concat (replicate 4088 (lit "/.")) ++ lit "/docs/".

Definition browse_root : Request :=
  mkRequest [] [] (lit "192.0.2.7") (lit "51234") (Some (lit "GET"))
            (Some (lit "/")) (Some (lit "/srv/www")) (Some []) [].

Definition browse_long_dir : Request :=
  mkRequest [] [] (lit "192.0.2.7") (lit "51234") (Some (lit "G"))
            (Some long_dir) (Some (lit "/srv/www/docs")) (Some []) [].

Definition get_report : stream :=
  lit "GET /report.cgi?x=1 HTTP/1.0" ++ CRLF ++ CRLF.

(** What the script prints for get_report. *)
Definition report_output : stream :=
  lit "Content-Type: text/plain" ++ [LF] ++ [LF] ++ lit "q=x=1" ++ [LF].

(** A request line of BUFSIZ - 1 bytes, newline included, for long_uri. *)
Definition get_long_uri : stream := lit "G " ++ long_uri ++ [LF] ++ [LF].

Definition get_passwd : stream :=
  lit "GET /../../etc/passwd HTTP/1.0" ++ CRLF ++ CRLF.

Definition get_nothing : stream := lit "GET" ++ CRLF.

Definition get_private : stream := lit "GET /private HTTP/1.0" ++ CRLF ++ CRLF.

Definition get_empty_query : stream := lit "GET /index.html? HTTP/1.0" ++ CRLF ++ CRLF.

Definition get_report_language : stream :=
  lit "GET /report.cgi HTTP/1.0" ++ [LF]
  ++ lit "Accept-Language: en-US" ++ [LF] ++ [LF].

Definition get_index : stream := lit "GET /index.html HTTP/1.0" ++ CRLF ++ CRLF.

(** The request once get_report is parsed and its path resolved. *)
Definition parsed_report : Request :=
  mkRequest [] [] (lit "192.0.2.7") (lit "51234") (Some (lit "GET"))
            (Some (lit "/report.cgi")) (Some (lit "/srv/www/report.cgi"))
            (Some (lit "x=1")) [].

(** The environment handle_cgi_request builds for it. *)
Definition report_env : environ :=
  <["SERVER_PORT" := Port]>
    (<["SCRIPT_FILENAME" := lit "/srv/www/report.cgi"]>
       (<["REQUEST_URI" := lit "/report.cgi"]>
          (<["REQUEST_METHOD" := lit "GET"]>
             (<["REMOTE_PORT" := lit "51234"]>
                (<["REMOTE_ADDR" := lit "192.0.2.7"]>
                   (<["QUERY_STRING" := lit "x=1"]>
                      (<["DOCUMENT_ROOT" := root]> ∅))))))).

(** The request once get_index is parsed. *)
Definition parsed_index : Request :=
  mkRequest [] [] (lit "192.0.2.7") (lit "51234") (Some (lit "GET"))
            (Some (lit "/index.html")) None (Some []) [].

(** The document root with one more file, /srv/www/shared: a regular
    file of another user with mode 0044, which the server process may
    read as one of the others, while the owner may not. *)
Definition shared : cstring := lit "/srv/www/shared".

Definition realpath_shared (p : cstring) : option cstring :=
  if bool_decide (p = shared) then Some shared else realpath p.

Definition stat_shared (p : cstring) : option Z :=
  if bool_decide (p = shared) then Some 32804%Z else stat p.

Definition fopen_shared (p : cstring) : option stream :=
  if bool_decide (p = shared) then Some (lit "shared text" ++ [LF])
  else fopen_r p.

Definition run_shared (input : stream) : outcome (Status * Request * environ) :=
  handle_request BUFSIZ Port MimeTypesPath DefaultMimeType root WHITESPACE
                 chomp realpath_shared stat_shared access_X_OK fopen_shared
                 opendir readdir_all popen_r fwrite_ret (request input) ∅.

Definition get_shared : stream := lit "GET /shared HTTP/1.0" ++ CRLF ++ CRLF.

(** A variable an earlier request of the process exported. *)
Definition leftover : environ := <["HTTP_HOST" := lit "first.example"]> ∅.

(** The environment handle_cgi_request builds from it for get_report. *)
Definition report_env_leftover : environ :=
  <["SERVER_PORT" := Port]>
    (<["SCRIPT_FILENAME" := lit "/srv/www/report.cgi"]>
       (<["REQUEST_URI" := lit "/report.cgi"]>
          (<["REQUEST_METHOD" := lit "GET"]>
             (<["REMOTE_PORT" := lit "51234"]>
                (<["REMOTE_ADDR" := lit "192.0.2.7"]>
                   (<["QUERY_STRING" := lit "x=1"]>
                      (<["DOCUMENT_ROOT" := root]> leftover))))))).

(** A connection on which everything succeeds and the client sends
    [input]. *)
Definition connect (input : stream) : arrival :=
  Arrival true 4%Z (Some (lit "192.0.2.7", lit "51234")) true true input.

End Example.
(** * Proofs *)

(** ** The C library *)

Lemma span_app {A} (p : A -> bool) l : (span p l).1 ++ (span p l).2 = l.
Proof.
  induction l as [|c l IH]; simpl; [done|].
  destruct (p c); [|done]. destruct (span p l) as [a b]; simpl in *. by f_equal.
Qed.

Lemma span_fst_Forall {A} (p : A -> bool) l : Forall (fun c => p c = true) (span p l).1.
Proof.
  induction l as [|c l IH]; simpl; [constructor|].
  destruct (p c) eqn:E; [|constructor].
  destruct (span p l) as [a b]; simpl in *. by constructor.
Qed.

Lemma span_snd_head {A} (p : A -> bool) l c l' :
  (span p l).2 = c :: l' -> p c = false.
Proof.
  induction l as [|d l IH]; simpl; [done|].
  destruct (p d) eqn:E.
  - destruct (span p l) as [a b]; simpl in *. auto.
  - simpl. by intros [= <- _].
Qed.

Lemma span_all {A} (p : A -> bool) l :
  Forall (fun c => p c = true) l -> span p l = (l, []).
Proof.
  induction 1 as [|c l Hc _ IH]; simpl; [done|]. by rewrite Hc, IH.
Qed.

Lemma span_app_stop {A} (p : A -> bool) l c l' :
  Forall (fun c => p c = true) l -> p c = false ->
  span p (l ++ c :: l') = (l, c :: l').
Proof.
  induction 1 as [|d l Hd _ IH]; simpl; intros Hc.
  - by rewrite Hc.
  - by rewrite Hd, IH.
Qed.

Lemma read_line_app room s : (read_line room s).1 ++ (read_line room s).2 = s.
Proof.
  revert s; induction room as [|room IH]; intros [|c s]; simpl; try done.
  case_bool_decide; [done|].
  specialize (IH s). destruct (read_line room s) as [l r]; simpl in *. by f_equal.
Qed.

Lemma read_line_nonempty room c s : (read_line (S room) (c :: s)).1 <> [].
Proof.
  simpl. case_bool_decide; [done|]. by destruct (read_line room s).
Qed.

Lemma read_line_length room s : length (read_line room s).1 <= room.
Proof.
  revert s; induction room as [|room IH]; intros [|c s]; simpl; try lia.
  case_bool_decide; simpl; [lia|].
  specialize (IH s). destruct (read_line room s) as [l r]; simpl in *. lia.
Qed.

Lemma read_line_line room body rest :
  LF ∉ body -> length body < room ->
  read_line room (body ++ LF :: rest) = (body ++ [LF], rest).
Proof.
  revert room; induction body as [|c body IH]; intros room Hnot Hlen; simpl in *.
  - destruct room; [lia|]. done.
  - destruct room; [lia|]. cbn [read_line].
    rewrite bool_decide_eq_false_2 by (intros ->; apply Hnot; left).
    rewrite IH; [done| |lia]. intros ?; apply Hnot. by right.
Qed.

Lemma fgets_Some size s raw s' :
  fgets size s = Some (raw, s') -> s = raw ++ s' /\ (2 <= size -> length s' < length s).
Proof.
  unfold fgets. destruct s as [|c s]; [done|]. intros [= E].
  pose proof (read_line_app (size - 1) (c :: s)) as Happ.
  rewrite E in Happ; simpl in Happ. split; [done|].
  intros Hsz. destruct (size - 1) as [|room] eqn:Er; [lia|].
  pose proof (read_line_nonempty room c s) as Hne. rewrite E in Hne; simpl in Hne.
  rewrite <- Happ, length_app. destruct raw; [done|simpl; lia].
Qed.

Lemma strchr_None s c : strchr s c = None <-> c ∉ s.
Proof.
  induction s as [|d s IH]; simpl.
  - split; [intros _; apply not_elem_of_nil|done].
  - case_bool_decide as Hd.
    + subst. split; [done|]. intros H; exfalso; apply H; left.
    + rewrite fmap_None, IH, not_elem_of_cons. intuition congruence.
Qed.

Lemma strchr_Some s c i :
  strchr s c = Some i ->
  s = take i s ++ c :: drop (S i) s /\ (c ∉ take i s).
Proof.
  revert i; induction s as [|d s IH]; intros i; simpl; [done|].
  case_bool_decide as Hd.
  - intros [= <-]. subst. simpl. rewrite drop_0. split; [done|apply not_elem_of_nil].
  - intros Hi. apply fmap_Some in Hi as (j & Hj & ->).
    destruct (IH _ Hj) as [Hs Hn]. simpl. split; [by f_equal|].
    rewrite not_elem_of_cons. split; [congruence|done].
Qed.

Lemma skip_whitespace_spec s :
  exists ws, s = ws ++ skip_whitespace s /\ Forall (fun c => isspace c = true) ws /\
             (forall c s', skip_whitespace s = c :: s' -> isspace c = false).
Proof.
  exists (span isspace s).1. unfold skip_whitespace. split; [by rewrite span_app|].
  split; [apply span_fst_Forall|]. intros c s'. apply span_snd_head.
Qed.

Lemma split_header_Some line h :
  split_header line = Some h -> header_of_line line h.
Proof.
  unfold split_header. intros H. apply fmap_Some in H as (i & Hi & ->).
  apply strchr_Some in Hi as [Hs Hn]. simpl.
  destruct (skip_whitespace_spec (drop (i + 1) line)) as (ws & Hws & Hall & Hhd).
  exists ws. simpl. split; [|done].
  rewrite <- Hws. by replace (i + 1) with (S i) by lia.
Qed.

Lemma split_header_None line : split_header line = None <-> ":"%char ∉ line.
Proof. unfold split_header. by rewrite fmap_None, strchr_None. Qed.

Lemma read_line_eof room line :
  LF ∉ line -> length line <= room -> read_line room line = (line, []).
Proof.
  revert room; induction line as [|c line IH]; intros room Hnot Hlen.
  - by destruct room.
  - destruct room; [simpl in Hlen; lia|]. cbn [read_line].
    apply not_elem_of_cons in Hnot as [Hc Hnot].
    rewrite bool_decide_eq_false_2 by done.
    rewrite IH; [done|done|simpl in Hlen; lia].
Qed.

Lemma fgets_input_line size line rest :
  input_line line rest -> length line < size ->
  fgets size (line ++ rest) = Some (line, rest).
Proof.
  intros [Hne [(body & -> & Hnot)|[Hnot ->]]] Hlen.
  - rewrite <- app_assoc. simpl. unfold fgets.
    destruct (body ++ LF :: rest) eqn:E; [by destruct body|]. rewrite <- E.
    rewrite read_line_line; [done|done|]. rewrite length_app in Hlen. simpl in Hlen. lia.
  - rewrite app_nil_r. unfold fgets. destruct line; [done|].
    rewrite read_line_eof; [done|done|lia].
Qed.

Lemma c_str_length raw : length (c_str raw) <= length raw.
Proof.
  unfold c_str. pose proof (span_app (fun c => negb (is_nul c)) raw) as H.
  rewrite <- H at 2. rewrite length_app. lia.
Qed.

Lemma c_str_no_nul (raw : list ascii) : NUL ∉ raw -> c_str raw = raw.
Proof.
  intros H. unfold c_str. rewrite span_all; [done|].
  apply Forall_forall. intros c Hc. unfold is_nul.
  rewrite bool_decide_eq_false_2; [done|]. by intros ->.
Qed.

Lemma strtok_str_Some (delim s tok rest : cstring) :
  strtok_str delim s = Some (tok, rest) -> length rest < length s.
Proof.
  unfold strtok_str.
  pose proof (span_app (mem_of delim) s) as H1.
  pose proof (span_snd_head (mem_of delim) s) as H3.
  destruct (span (mem_of delim) s) as [skipped s1]; simpl in *.
  destruct s1 as [|c s1]; [done|].
  pose proof (span_app (fun c => negb (mem_of delim c)) (c :: s1)) as H2.
  specialize (H3 c s1 eq_refl).
  destruct (span (fun c => negb (mem_of delim c)) (c :: s1)) as [tok' rest'] eqn:E.
  intros [= <- <-]. simpl in *.
  assert (tok' <> []) as Hne.
  { cbn [span] in E. rewrite H3 in E.
    simpl in E. destruct (span _ s1). by injection E as <- _. }
  rewrite <- H1, <- H2, !length_app.
  destruct tok'; [done|]. destruct rest'; simpl; lia.
Qed.

Lemma tokens_fuel_enough (delim : cstring) fuel1 fuel2 s :
  length s <= fuel1 -> length s <= fuel2 ->
  tokens_fuel fuel1 delim s = tokens_fuel fuel2 delim s.
Proof.
  revert fuel2 s. induction fuel1 as [|fuel1 IH]; intros fuel2 s H1 H2.
  - destruct s; [destruct fuel2; reflexivity|simpl in H1; lia].
  - destruct fuel2 as [|fuel2].
    + destruct s; [reflexivity|simpl in H2; lia].
    + cbn [tokens_fuel].
      destruct (strtok_str delim s) as [[tok rest]|] eqn:E; [|done].
      apply strtok_str_Some in E. f_equal. apply IH; lia.
Qed.

Lemma tokens_unfold (delim s : cstring) :
  tokens delim s =
    match strtok_str delim s with
    | None => []
    | Some (tok, rest) => tok :: tokens delim rest
    end.
Proof.
  unfold tokens at 1. destruct s as [|c s]; [reflexivity|].
  cbn [length tokens_fuel].
  destruct (strtok_str delim (c :: s)) as [[tok rest]|] eqn:E; [|done].
  apply strtok_str_Some in E. simpl in E. f_equal.
  apply tokens_fuel_enough; lia.
Qed.

Lemma strrchr_Some (s : cstring) (c : ascii) (i : nat) :
  strrchr s c = Some i ->
  s = take i s ++ c :: drop (S i) s /\ (c ∉ drop (S i) s).
Proof.
  revert i. induction s as [|d s IH]; intros i; simpl; [done|].
  destruct (strrchr s c) as [j|] eqn:E.
  - intros [= <-]. destruct (IH j eq_refl) as [Hs Hn]. simpl. split; [by f_equal|done].
  - case_bool_decide as Hd; [|done]. intros [= <-]. subst d. simpl.
    rewrite drop_0. split; [done|].
    clear IH. induction s as [|d s IH]; [apply not_elem_of_nil|].
    simpl in E. destruct (strrchr s c); [done|].
    case_bool_decide; [done|]. apply not_elem_of_cons. auto.
Qed.

Lemma strrchr_None (s : cstring) (c : ascii) : strrchr s c = None <-> c ∉ s.
Proof.
  induction s as [|d s IH]; simpl.
  - split; [intros _; apply not_elem_of_nil|done].
  - rewrite not_elem_of_cons. destruct (strrchr s c).
    + split; [done|]. intros [_ Hn]. by apply IH in Hn.
    + case_bool_decide.
      * split; [done|]. intros [Hn _]. congruence.
      * split; [|done]. intros _. split; [congruence|]. by apply IH.
Qed.

(** ** strtok on a buffer and strtok on a string agree *)

Lemma c_str_decompose (l : list ascii) :
  exists r, l = c_str l ++ r /\ (NUL ∉ c_str l) /\ is_nul (hd NUL r) = true.
Proof.
  unfold c_str. exists (span (fun c => negb (is_nul c)) l).2.
  split; [by rewrite span_app|]. split.
  - pose proof (span_fst_Forall (fun c => negb (is_nul c)) l) as H.
    rewrite Forall_forall in H. intros Hin. specialize (H _ Hin). done.
  - destruct (span _ l).2 as [|c r] eqn:E; [done|].
    apply span_snd_head in E. simpl. by destruct (is_nul c).
Qed.

Lemma c_str_app_stop (s r : list ascii) :
  NUL ∉ s -> is_nul (hd NUL r) = true -> c_str (s ++ r) = s.
Proof.
  intros Hs Hr. unfold c_str. destruct r as [|c r].
  - rewrite app_nil_r, span_all; [done|].
    apply Forall_forall. intros d Hd. unfold is_nul.
    rewrite bool_decide_eq_false_2; [done|]. by intros ->.
  - rewrite span_app_stop; [done| |by simpl in Hr; rewrite Hr].
    apply Forall_forall. intros d Hd. unfold is_nul.
    rewrite bool_decide_eq_false_2; [done|]. by intros ->.
Qed.

Lemma char_at_drop (b : buffer) (p k : nat) :
  char_at b (p + k) = nth k (drop p b) NUL.
Proof.
  unfold char_at. revert b. induction p as [|p IH]; intros b; [by rewrite drop_0|].
  destruct b as [|c b]; simpl; [by destruct k|]. apply IH.
Qed.

Lemma str_at_drop (b : buffer) (p k : nat) :
  str_at b (p + k) = c_str (drop k (drop p b)).
Proof. unfold str_at. by rewrite drop_drop. Qed.

(** One strtok call on a buffer returns, as strings, what strtok_str
    returns on the string at the pointer; a call with NULL goes on from
    the save pointer. *)
Lemma strtok_buffer_str (b : buffer) (save p : nat) (delim : cstring) :
  match strtok b save (Some p) delim with
  | (Some t, b', save') =>
      strtok_str delim (str_at b p) = Some (str_at b' t, str_at b' save')
  | (None, b', save') =>
      strtok_str delim (str_at b p) = None /\ b' = b /\ str_at b' save' = []
  end.
Proof.
  unfold strtok, strtok_str, strspn, strcspn. simpl default.
  destruct (c_str_decompose (drop p b)) as (r & Hl & Hnul & Hr).
  fold (str_at b p) in Hl, Hnul. remember (str_at b p) as s eqn:Hs.
  assert (forall k, k <= length s -> str_at b (p + k) = drop k s) as Hstr.
  { intros k Hk. rewrite str_at_drop, Hl, drop_app_le by done.
    apply c_str_app_stop; [|done]. intros Hin. apply Hnul.
    by eapply (subseteq_drop k). }
  assert (forall k, k <= length s ->
            is_nul (char_at b (p + k)) = bool_decide (k = length s)) as Hch.
  { intros k Hk. rewrite char_at_drop, Hl.
    destruct (decide (k = length s)) as [->|Hne].
    - rewrite app_nth2, Nat.sub_diag, bool_decide_eq_true_2 by lia. by destruct r.
    - rewrite app_nth1, bool_decide_eq_false_2 by lia. unfold is_nul.
      apply bool_decide_eq_false_2. intros Heq. apply Hnul. rewrite <- Heq.
      apply list_elem_of_In, nth_In. lia. }
  pose proof (Hch 0 ltac:(lia)) as H0. rewrite Nat.add_0_r in H0. rewrite H0. clear H0.
  pose proof (span_app (mem_of delim) s) as Hsp1.
  destruct (span (mem_of delim) s) as [a1 s1] eqn:E1. simpl in Hsp1. simpl fst. simpl snd.
  assert (length s = length a1 + length s1) as Hlen1 by (by rewrite <- Hsp1, length_app).
  assert (str_at b (p + length a1) = s1) as Hs1.
  { rewrite Hstr by lia. by rewrite <- Hsp1, drop_app_length. }
  case_bool_decide as Hz.
  { (* the string is empty *)
    destruct s; [|done]. destruct a1; [|done]. destruct s1; [|done].
    split; [done|]. split; [done|]. by rewrite <- Hs. }
  rewrite Hch by lia. rewrite Hs1.
  case_bool_decide as Hz1.
  { (* only delimiters *)
    destruct s1; [|simpl in Hlen1; lia].
    split; [done|]. split; [done|]. done. }
  destruct s1 as [|c1 s1']; [simpl in Hlen1; lia|].
  pose proof (span_app (fun c => negb (mem_of delim c)) (c1 :: s1')) as Hsp2.
  destruct (span (fun c => negb (mem_of delim c)) (c1 :: s1')) as [tok rest] eqn:E2.
  simpl in Hsp2. simpl fst.
  assert (length s = length a1 + length tok + length rest) as Hlen.
  { pose proof (f_equal length Hsp2) as Hl2. rewrite length_app in Hl2. lia. }
  rewrite <- Nat.add_assoc. rewrite Hch by lia.
  case_bool_decide as Hz2.
  - (* the token ends the string *)
    assert (rest = []) as -> by (destruct rest; [done|simpl in Hlen; lia]).
    rewrite app_nil_r in Hsp2. subst tok.
    rewrite Hs1, Hz2, Hstr, drop_all by lia. done.
  - destruct rest as [|d rest']; [simpl in Hlen; lia|].
    f_equal. f_equal.
    + (* the token *)
      unfold str_at.
      rewrite drop_insert_ge by lia.
      replace (p + (length a1 + length tok) - (p + length a1)) with (length tok) by lia.
      rewrite <- drop_drop, Hl. rewrite drop_app_le by lia.
      rewrite <- Hsp1, drop_app_length, <- Hsp2, <- app_assoc.
      rewrite insert_app_r_alt, Nat.sub_diag by lia. simpl.
      symmetry. apply c_str_app_stop; [|done].
      intros Hn. apply Hnul. rewrite <- Hsp1, <- Hsp2.
      rewrite !elem_of_app. auto.
    + (* the string at the save pointer *)
      unfold str_at. rewrite drop_insert_lt by lia.
      replace (S (p + (length a1 + length tok))) with (p + (length a1 + length tok + 1)) by lia.
      fold (str_at b (p + (length a1 + length tok + 1))).
      rewrite Hstr by (simpl in Hlen; lia).
      rewrite <- Hsp1, <- Hsp2.
      rewrite <- !drop_drop, drop_app_length, drop_app_length. done.
Qed.

Lemma strtok_buffer_next (b : buffer) (save : nat) (delim : cstring) :
  strtok b save None delim = strtok b save (Some save) delim.
Proof. reflexivity. Qed.

(** ** Writing to the connection *)

Lemma fputs_nil (r : Request) : fputs [] r = r.
Proof. destruct r. unfold fputs, set_file_out. simpl. by rewrite app_nil_r. Qed.

Lemma fputs_fputs (a b : list ascii) (r : Request) :
  fputs b (fputs a r) = fputs (a ++ b) r.
Proof. unfold fputs, set_file_out. simpl. by rewrite app_assoc. Qed.

(** ** request.c: the request line *)

Lemma c_str_app (s l : list ascii) : NUL ∉ s -> c_str (s ++ l) = s ++ c_str l.
Proof.
  intros Hs. unfold c_str. induction s as [|c s IH]; [done|].
  apply not_elem_of_cons in Hs as [Hc Hs]. simpl.
  unfold is_nul at 1. rewrite bool_decide_eq_false_2 by done. simpl.
  specialize (IH Hs). destruct (span _ (s ++ l)) as [a b]. simpl in *. by f_equal.
Qed.

Lemma c_str_nul (l : list ascii) : c_str (NUL :: l) = [].
Proof. reflexivity. Qed.

Lemma str_at_app (pre l : list ascii) : str_at (pre ++ l) (length pre) = c_str l.
Proof. unfold str_at. by rewrite drop_app_length. Qed.

Lemma char_at_app (pre l : list ascii) : char_at (pre ++ l) (length pre) = hd NUL l.
Proof.
  unfold char_at. rewrite app_nth2, Nat.sub_diag by lia. by destruct l.
Qed.

Lemma span_token (p : ascii -> bool) (tok l : list ascii) :
  Forall (fun c => p c = true) tok -> p (hd NUL l) = false -> l <> [] ->
  span p (tok ++ l) = (tok, l).
Proof.
  intros Ht Hl Hne. destruct l as [|d l]; [done|]. by apply span_app_stop.
Qed.

(** The token [tok] at the pointer, followed by the delimiter [d]: strtok
    returns the pointer, overwrites [d] with NUL and saves the position
    after it. *)
Lemma strtok_token (pre tok post delim : list ascii) (d : ascii) (save p : nat) :
  p = length pre -> tok <> [] ->
  Forall (fun c => c ∉ NUL :: delim) tok -> d ∈ delim -> d <> NUL ->
  strtok (pre ++ tok ++ d :: post) save (Some p) delim
    = (Some p, pre ++ tok ++ NUL :: post, p + length tok + 1).
Proof.
  intros -> Hne Htok Hd Hdn.
  assert (NUL ∉ tok) as Hnul.
  { intros Hin. rewrite Forall_forall in Htok. apply (Htok _ Hin). left. }
  assert (Forall (fun c => negb (mem_of delim c) = true) tok) as Hnd.
  { eapply Forall_impl; [exact Htok|]. intros c Hc. unfold mem_of.
    rewrite bool_decide_eq_false_2; [done|]. intros Hin. apply Hc. by right. }
  destruct tok as [|c tok]; [done|].
  unfold strtok. simpl default.
  rewrite char_at_app. simpl hd.
  assert (is_nul c = false) as Hc.
  { apply bool_decide_eq_false_2. intros ->. apply Hnul. left. }
  rewrite Hc.
  assert (str_at (pre ++ (c :: tok) ++ d :: post) (length pre)
          = (c :: tok) ++ d :: c_str post) as Hstr.
  { rewrite str_at_app, c_str_app by done. f_equal.
    unfold c_str. simpl. unfold is_nul at 1.
    rewrite bool_decide_eq_false_2 by done. simpl. by destruct (span _ post). }
  assert (strspn (pre ++ (c :: tok) ++ d :: post) (length pre) delim = 0) as ->.
  { unfold strspn. rewrite Hstr. simpl.
    apply Forall_cons in Hnd as [Hcd _]. apply negb_true_iff in Hcd. by rewrite Hcd. }
  rewrite Nat.add_0_r, char_at_app. simpl hd. rewrite Hc.
  assert (strcspn (pre ++ (c :: tok) ++ d :: post) (length pre) delim
          = length (c :: tok)) as ->.
  { unfold strcspn. rewrite Hstr.
    rewrite (span_token _ (c :: tok) (d :: c_str post)); [done|done| |done].
    simpl. unfold mem_of. by rewrite bool_decide_eq_true_2. }
  rewrite app_assoc. rewrite <- length_app, char_at_app. simpl hd.
  unfold is_nul. rewrite bool_decide_eq_false_2 by done.
  f_equal; [f_equal|].
  - rewrite <- (Nat.add_0_r (length (pre ++ c :: tok))).
    rewrite insert_app_r. simpl. by rewrite <- app_assoc.
  - rewrite length_app. simpl. lia.
Qed.

(** The token [tok] at the pointer, followed by the end of the string. *)
Lemma strtok_last_token (pre tok post delim : list ascii) (save p : nat) :
  p = length pre -> tok <> [] ->
  Forall (fun c => c ∉ NUL :: delim) tok ->
  strtok (pre ++ tok ++ NUL :: post) save (Some p) delim
    = (Some p, pre ++ tok ++ NUL :: post, p + length tok).
Proof.
  intros -> Hne Htok.
  assert (NUL ∉ tok) as Hnul.
  { intros Hin. rewrite Forall_forall in Htok. apply (Htok _ Hin). left. }
  assert (Forall (fun c => negb (mem_of delim c) = true) tok) as Hnd.
  { eapply Forall_impl; [exact Htok|]. intros c Hc. unfold mem_of.
    rewrite bool_decide_eq_false_2; [done|]. intros Hin. apply Hc. by right. }
  destruct tok as [|c tok]; [done|].
  unfold strtok. simpl default.
  rewrite char_at_app. simpl hd.
  assert (is_nul c = false) as Hc.
  { apply bool_decide_eq_false_2. intros ->. apply Hnul. left. }
  rewrite Hc.
  assert (str_at (pre ++ (c :: tok) ++ NUL :: post) (length pre) = c :: tok) as Hstr.
  { rewrite str_at_app, c_str_app, c_str_nul, app_nil_r by done. done. }
  assert (strspn (pre ++ (c :: tok) ++ NUL :: post) (length pre) delim = 0) as ->.
  { unfold strspn. rewrite Hstr. simpl.
    apply Forall_cons in Hnd as [Hcd _]. apply negb_true_iff in Hcd. by rewrite Hcd. }
  rewrite Nat.add_0_r, char_at_app. simpl hd. rewrite Hc.
  assert (strcspn (pre ++ (c :: tok) ++ NUL :: post) (length pre) delim
          = length (c :: tok)) as ->.
  { unfold strcspn. rewrite Hstr. by rewrite span_all. }
  rewrite app_assoc. rewrite <- length_app, char_at_app. simpl hd.
  rewrite length_app. done.
Qed.

Lemma Forall_not_in_weaken (set1 set2 s : list ascii) :
  set2 ⊆ set1 -> Forall (fun c => c ∉ set1) s -> Forall (fun c => c ∉ set2) s.
Proof.
  intros Hsub H. eapply Forall_impl; [exact H|].
  intros c Hc Hin. apply Hc, Hsub, Hin.
Qed.

Lemma Forall_not_in_elem (set s : list ascii) (c : ascii) :
  Forall (fun c => c ∉ set) s -> c ∈ set -> c ∉ s.
Proof. rewrite Forall_forall. intros H Hc Hin. by apply (H c). Qed.

Ltac assoc_eq :=
  repeat (progress (rewrite <- ?app_assoc; cbn [app])); reflexivity.

Ltac sub_list := intros ?c; rewrite !elem_of_cons, !elem_of_nil; tauto.

Section RequestLineProofs.
Variable BUFSIZ : nat.

Lemma record_request_line_Returns (r r1 : Request) (m u q : option cstring) (rc : Z) :
  record_request_line r m u q = Returns (rc, r1) ->
  rc = 0%Z /\ is_Some (method r1) /\ is_Some (uri r1) /\ is_Some (query r1).
Proof.
  unfold record_request_line, strdup, nonnull.
  destruct m, u, q; simpl; try done. intros [= <- <-]. simpl. eauto.
Qed.

(** X1: a request line METHOD URI?QUERY HTTP/V that fits the buffer,
    with a non-empty URI before the question mark and a non-empty query
    without fragment sign, is parsed into exactly its three parts. *)
Lemma parse_request_method_query (r : Request) (m u q v rest : list ascii) :
  file_in r = m ++ [SP] ++ u ++ ["?"%char] ++ q ++ [SP] ++ v ++ [LF] ++ rest ->
  length (m ++ [SP] ++ u ++ ["?"%char] ++ q ++ [SP] ++ v ++ [LF]) < BUFSIZ ->
  m <> [] -> u <> [] -> q <> [] ->
  Forall (fun c => c ∉ [NUL; SP; TAB; LF]) m ->
  Forall (fun c => c ∉ [NUL; SP; TAB; LF; "?"%char]) u ->
  Forall (fun c => c ∉ [NUL; SP; TAB; LF; "#"%char]) q ->
  LF ∉ v ->
  parse_request_method BUFSIZ r
    = Returns (0%Z, set_request_line (set_file_in r rest) m u q).
Proof.
  intros Hin Hlen Hm Hu Hq Fm Fu Fq Hv.
  assert (Forall (fun c => c ∉ NUL :: [SP; TAB; LF]) (u ++ "?"%char :: q)) as Fuq.
  { apply Forall_app. split.
    - eapply Forall_not_in_weaken; [|exact Fu]. sub_list.
    - constructor; [compute_done|].
      eapply Forall_not_in_weaken; [|exact Fq]. sub_list. }
  unfold parse_request_method. rewrite Hin.
  replace (m ++ [SP] ++ u ++ ["?"%char] ++ q ++ [SP] ++ v ++ [LF] ++ rest)
    with ((m ++ [SP] ++ u ++ ["?"%char] ++ q ++ [SP] ++ v ++ [LF]) ++ rest)
    by assoc_eq.
  rewrite fgets_input_line; [|split|done].
  2:{ by destruct m. }
  2:{ left. exists (m ++ [SP] ++ u ++ ["?"%char] ++ q ++ [SP] ++ v).
      split; [assoc_eq|].
      rewrite !elem_of_app, !list_elem_of_singleton.
      pose proof (Forall_not_in_elem _ _ LF Fm ltac:(compute_done)).
      pose proof (Forall_not_in_elem _ _ LF Fu ltac:(compute_done)).
      pose proof (Forall_not_in_elem _ _ LF Fq ltac:(compute_done)).
      intros [?|[?|[?|[?|[?|[?|?]]]]]]; done. }
  (* the method *)
  replace ((m ++ [SP] ++ u ++ ["?"%char] ++ q ++ [SP] ++ v ++ [LF]) ++ [NUL])
    with ([] ++ m ++ SP :: (u ++ "?"%char :: q) ++ SP :: v ++ [LF; NUL])
    by assoc_eq.
  rewrite (strtok_token [] m _ [SP; TAB; LF] SP 0 0);
    [|done|done|done|compute_done|compute_done].
  (* the URI with its query *)
  rewrite strtok_buffer_next. simpl app at 1.
  replace (m ++ NUL :: (u ++ "?"%char :: q) ++ SP :: v ++ [LF; NUL])
    with ((m ++ [NUL]) ++ (u ++ "?"%char :: q) ++ SP :: v ++ [LF; NUL])
    by assoc_eq.
  rewrite (strtok_token (m ++ [NUL]) (u ++ "?"%char :: q) _ [SP; TAB; LF] SP);
    [|rewrite length_app; simpl; lia|by destruct u|done|compute_done
     |compute_done].
  (* the question mark *)
  assert (NUL ∉ u) as Hnu by (eapply Forall_not_in_elem; [exact Fu|compute_done]).
  assert (NUL ∉ q) as Hnq by (eapply Forall_not_in_elem; [exact Fq|compute_done]).
  assert ("?"%char ∉ u) as Hqu
    by (eapply Forall_not_in_elem; [exact Fu|compute_done]).
  replace (0 + length m + 1) with (length (m ++ [NUL]))
    by (rewrite length_app; simpl; lia).
  rewrite str_at_app.
  rewrite c_str_app by (rewrite elem_of_app, elem_of_cons; intros [?|[?|?]]; done).
  rewrite c_str_nul, app_nil_r.
  assert (strchr (u ++ "?"%char :: q) "?"%char = Some (length u)) as ->.
  { clear -Hqu. induction u as [|c u IH]; [reflexivity|].
    apply not_elem_of_cons in Hqu as [Hc Hqu]. cbn [strchr app length].
    rewrite bool_decide_eq_false_2 by done. by rewrite IH. }
  (* the query *)
  replace ((m ++ [NUL]) ++ (u ++ "?"%char :: q) ++ NUL :: v ++ [LF; NUL])
    with ((m ++ [NUL] ++ u ++ ["?"%char]) ++ q ++ NUL :: v ++ [LF; NUL])
    by assoc_eq.
  rewrite (strtok_last_token (m ++ [NUL] ++ u ++ ["?"%char]) q _
                             ["#"%char; SP; LF; TAB]);
    [|rewrite !length_app; simpl; lia|done|
     eapply Forall_not_in_weaken; [|exact Fq]; sub_list].
  (* the URI *)
  replace ((m ++ [NUL] ++ u ++ ["?"%char]) ++ q ++ NUL :: v ++ [LF; NUL])
    with ((m ++ [NUL]) ++ u ++ "?"%char :: (q ++ NUL :: v ++ [LF; NUL]))
    by assoc_eq.
  rewrite (strtok_token (m ++ [NUL]) u _ ["?"%char] "?"%char);
    [|done|done|eapply Forall_not_in_weaken; [|exact Fu]; sub_list
     |compute_done|compute_done].
  (* what the three pointers hold in the end *)
  simpl fmap.
  replace ((m ++ [NUL]) ++ u ++ NUL :: q ++ NUL :: v ++ [LF; NUL])
    with ([] ++ m ++ NUL :: u ++ NUL :: q ++ NUL :: v ++ [LF; NUL]) at 1
    by assoc_eq.
  rewrite (str_at_app [] _).
  rewrite c_str_app, c_str_nul, app_nil_r
    by (eapply Forall_not_in_elem; [exact Fm|compute_done]).
  rewrite str_at_app, c_str_app, c_str_nul, app_nil_r by done.
  replace ((m ++ [NUL]) ++ u ++ NUL :: q ++ NUL :: v ++ [LF; NUL])
    with ((m ++ [NUL] ++ u ++ [NUL]) ++ q ++ NUL :: v ++ [LF; NUL])
    by assoc_eq.
  replace (length (m ++ [NUL]) + length u + 1)
    with (length (m ++ [NUL] ++ u ++ [NUL]))
    by (rewrite !length_app; simpl; lia).
  rewrite str_at_app, c_str_app, c_str_nul, app_nil_r by done.
  reflexivity.
Qed.

(** X2: a request line METHOD URI HTTP/V without question mark is parsed
    into method and URI, and the query is the empty string. *)
Lemma parse_request_method_no_query (r : Request) (m u v rest : list ascii) :
  file_in r = m ++ [SP] ++ u ++ [SP] ++ v ++ [LF] ++ rest ->
  length (m ++ [SP] ++ u ++ [SP] ++ v ++ [LF]) < BUFSIZ ->
  m <> [] -> u <> [] ->
  Forall (fun c => c ∉ [NUL; SP; TAB; LF]) m ->
  Forall (fun c => c ∉ [NUL; SP; TAB; LF; "?"%char]) u ->
  LF ∉ v ->
  parse_request_method BUFSIZ r
    = Returns (0%Z, set_request_line (set_file_in r rest) m u []).
Proof.
  intros Hin Hlen Hm Hu Fm Fu Hv.
  unfold parse_request_method. rewrite Hin.
  replace (m ++ [SP] ++ u ++ [SP] ++ v ++ [LF] ++ rest)
    with ((m ++ [SP] ++ u ++ [SP] ++ v ++ [LF]) ++ rest) by assoc_eq.
  rewrite fgets_input_line; [|split|done].
  2:{ by destruct m. }
  2:{ left. exists (m ++ [SP] ++ u ++ [SP] ++ v).
      split; [assoc_eq|].
      rewrite !elem_of_app, !list_elem_of_singleton.
      pose proof (Forall_not_in_elem _ _ LF Fm ltac:(compute_done)).
      pose proof (Forall_not_in_elem _ _ LF Fu ltac:(compute_done)).
      intros [?|[?|[?|[?|?]]]]; done. }
  replace ((m ++ [SP] ++ u ++ [SP] ++ v ++ [LF]) ++ [NUL])
    with ([] ++ m ++ SP :: u ++ SP :: v ++ [LF; NUL]) by assoc_eq.
  rewrite (strtok_token [] m _ [SP; TAB; LF] SP 0 0);
    [|done|done|done|compute_done|compute_done].
  rewrite strtok_buffer_next. simpl app at 1.
  replace (m ++ NUL :: u ++ SP :: v ++ [LF; NUL])
    with ((m ++ [NUL]) ++ u ++ SP :: v ++ [LF; NUL]) by assoc_eq.
  rewrite (strtok_token (m ++ [NUL]) u _ [SP; TAB; LF] SP);
    [|rewrite length_app; simpl; lia|done
     |eapply Forall_not_in_weaken; [|exact Fu]; sub_list
     |compute_done|compute_done].
  assert (NUL ∉ u) as Hnu by (eapply Forall_not_in_elem; [exact Fu|compute_done]).
  assert ("?"%char ∉ u) as Hqu
    by (eapply Forall_not_in_elem; [exact Fu|compute_done]).
  replace (0 + length m + 1) with (length (m ++ [NUL]))
    by (rewrite length_app; simpl; lia).
  rewrite str_at_app, c_str_app, c_str_nul, app_nil_r by done.
  apply strchr_None in Hqu. rewrite Hqu.
  replace ((m ++ [NUL]) ++ u ++ NUL :: v ++ [LF; NUL])
    with ([] ++ m ++ NUL :: u ++ NUL :: v ++ [LF; NUL]) by assoc_eq.
  rewrite (str_at_app [] _).
  rewrite c_str_app, c_str_nul, app_nil_r
    by (eapply Forall_not_in_elem; [exact Fm|compute_done]).
  reflexivity.
Qed.

Lemma c_str_app_nul (raw : list ascii) : c_str (raw ++ [NUL]) = c_str raw.
Proof.
  destruct (c_str_decompose raw) as (r & Hl & Hnul & Hr).
  rewrite Hl at 1. rewrite <- app_assoc. apply c_str_app_stop; [done|].
  by destruct r.
Qed.

(** X3: when parse_request_method returns, it returns 0 or -1, and -1
    exactly when no line can be read or the line has fewer than two
    tokens between spaces, tabs and newlines. *)
Lemma parse_request_method_fails (r r' : Request) (rc : Z) :
  parse_request_method BUFSIZ r = Returns (rc, r') ->
  (rc = 0%Z \/ rc = (-1)%Z) /\
  (rc = (-1)%Z <->
   match fgets BUFSIZ (file_in r) with
   | None => True
   | Some (raw, _) => length (tokens [SP; TAB; LF] (c_str raw)) < 2
   end).
Proof.
  unfold parse_request_method.
  destruct (fgets BUFSIZ (file_in r)) as [[raw rest]|]; [|intros [= <- <-]; tauto].
  pose proof (strtok_buffer_str (raw ++ [NUL]) 0 0 [SP; TAB; LF]) as H1.
  destruct (strtok (raw ++ [NUL]) 0 (Some 0) [SP; TAB; LF]) as [[m b1] s1].
  pose proof (strtok_buffer_str b1 s1 s1 [SP; TAB; LF]) as H2.
  rewrite strtok_buffer_next.
  destruct (strtok b1 s1 (Some s1) [SP; TAB; LF]) as [[u b2] s2].
  assert (str_at (raw ++ [NUL]) 0 = c_str raw) as Hs.
  { unfold str_at. by rewrite drop_0, c_str_app_nul. }
  rewrite Hs in H1.
  rewrite (tokens_unfold _ (c_str raw)).
  destruct m as [m|].
  - rewrite H1, tokens_unfold. destruct u as [u|].
    + rewrite H2. simpl length.
      destruct (strchr _ _).
      * destruct (strtok b2 _ _ _) as [[q b3] s3].
        destruct (strtok b3 _ _ _) as [[u' b4] s4].
        intros H. apply record_request_line_Returns in H as [-> _].
        split; [by left|]. split; [done|lia].
      * intros H. apply record_request_line_Returns in H as [-> _].
        split; [by left|]. split; [done|lia].
    + destruct H2 as [-> _]. intros [= <- <-]. simpl. split; [by right|]. split; [lia|done].
  - destruct H1 as [-> _]. intros [= <- <-]. simpl. split; [by right|]. split; [lia|done].
Qed.

End RequestLineProofs.

(** ** parse_request_method on concrete request lines *)

Lemma request_line_examples :
  let parse input :=
    match parse_request_method Example.BUFSIZ (Example.request input) with
    | Returns (rc, r) => Some (rc, method r, uri r, query r)
    | Undefined => None
    end in
  parse (lit "GET /cgi.script?q=foo HTTP/1.0" ++ CRLF)
    = Some (0%Z, Some (lit "GET"), Some (lit "/cgi.script"), Some (lit "q=foo")) /\
  parse (lit "GET / HTTP/1.1" ++ CRLF)
    = Some (0%Z, Some (lit "GET"), Some (lit "/"), Some []) /\
  parse (lit "GET /a?b?c#d HTTP/1.0" ++ CRLF)
    = Some (0%Z, Some (lit "GET"), Some (lit "/a"), Some (lit "b?c")) /\
  parse (lit "GET" ++ CRLF) = Some ((-1)%Z, None, None, None) /\
  parse [] = Some ((-1)%Z, None, None, None) /\
  parse (lit "GET /a?#x HTTP/1.0" ++ CRLF)
    = Some (0%Z, Some (lit "GET"), Some (lit "/a"), Some (lit "x")) /\
  parse (lit "GET ?q=1 HTTP/1.0" ++ CRLF)
    = Some (0%Z, Some (lit "GET"), Some (lit "q=1"), Some (lit "q=1")).
Proof. vm_compute. done. Qed.

(** C3: the code leaves defined behaviour on a request line whose query
    is empty: strtok finds no token after the question mark, query is
    NULL and strdup(query) is called on it. *)
Lemma C3_empty_query_undefined :
  parse_request_method Example.BUFSIZ
      (Example.request (lit "GET /index.html? HTTP/1.0" ++ CRLF))
    = Undefined /\
  Example.run Example.get_empty_query = Undefined.
Proof. vm_compute. done. Qed.


(** ** request.c: the header block *)

Section HeaderProofs.
Variable BUFSIZ : nat.
Hypothesis BUFSIZ_min : 256 <= BUFSIZ.
Variable chomp : cstring -> cstring.

Lemma fgets_all_fuel2 fuel1 fuel2 s :
  length s <= fuel1 -> length s <= fuel2 ->
  fgets_all BUFSIZ fuel1 s = fgets_all BUFSIZ fuel2 s.
Proof.
  revert fuel2 s.
  induction fuel1 as [|fuel1 IH]; intros fuel2 s H1 H2.
  - destruct s; [destruct fuel2; reflexivity|simpl in H1; lia].
  - destruct s as [|c s]; [destruct fuel2; reflexivity|].
    destruct fuel2 as [|fuel2]; [simpl in H2; lia|].
    cbn [fgets_all]. destruct (fgets BUFSIZ (c :: s)) as [[raw s']|] eqn:E; [|done].
    apply fgets_Some in E as [_ Hlt]. specialize (Hlt ltac:(lia)). simpl in *.
    f_equal. apply IH; lia.
Qed.

Lemma fgets_all_fuel fuel s :
  length s <= fuel -> fgets_all BUFSIZ fuel s = input_lines BUFSIZ s.
Proof. intros. apply fgets_all_fuel2; lia. Qed.

Lemma input_lines_unfold s :
  input_lines BUFSIZ s =
    match fgets BUFSIZ s with
    | None => []
    | Some (raw, s') => raw :: input_lines BUFSIZ s'
    end.
Proof.
  destruct s as [|c s]; [done|].
  unfold input_lines at 1. cbn [fgets_all length].
  destruct (fgets BUFSIZ (c :: s)) as [[raw s']|] eqn:E; [|done].
  apply fgets_Some in E as [_ Hlt]. specialize (Hlt ltac:(lia)). simpl in *.
  f_equal. apply fgets_all_fuel. lia.
Qed.

Lemma input_lines_concat s : concat (input_lines BUFSIZ s) = s.
Proof.
  remember (length s) as n eqn:Hn. revert s Hn.
  induction (lt_wf n) as [n _ IH]. intros s ->.
  rewrite input_lines_unfold.
  destruct (fgets BUFSIZ s) as [[raw s']|] eqn:E.
  - apply fgets_Some in E as [-> Hlt]. specialize (Hlt ltac:(lia)).
    simpl. f_equal. by eapply IH.
  - unfold fgets in E. by destruct s.
Qed.

Lemma header_block_unfold s :
  header_block BUFSIZ s =
    match fgets BUFSIZ s with
    | None => []
    | Some (raw, s') =>
        if 2 <? strlen (c_str raw) then c_str raw :: header_block BUFSIZ s' else []
    end.
Proof.
  unfold header_block. rewrite input_lines_unfold.
  destruct (fgets BUFSIZ s) as [[raw s']|]; [|done].
  rewrite fmap_cons. cbn [span].
  destruct (2 <? strlen (c_str raw)); [|done].
  by destruct (span _ _).
Qed.

Lemma parse_headers_loop_spec fuel s curr :
  length s <= fuel ->
  (parse_headers_loop BUFSIZ chomp fuel s curr).1 =
    (fun hs => rev hs ++ curr) <$> mapM split_header (chomp <$> header_block BUFSIZ s).
Proof.
  revert s curr. induction fuel as [|fuel IH]; intros s curr Hlen.
  - destruct s; [done|simpl in Hlen; lia].
  - rewrite header_block_unfold. cbn [parse_headers_loop].
    destruct (fgets BUFSIZ s) as [[raw s']|] eqn:E; [|done].
    apply fgets_Some in E as [_ Hlt]. specialize (Hlt ltac:(lia)).
    destruct (2 <? strlen (c_str raw)) eqn:E2; [|done].
    rewrite fmap_cons. cbn [mapM].
    pose proof (eq_refl (split_header (chomp (c_str raw)))) as Eh.
    unfold split_header at 2 in Eh.
    destruct (strchr (chomp (c_str raw)) ":") as [colon|] eqn:Ec;
      rewrite Eh; cbn; [|done].
    rewrite IH by lia.
    destruct (mapM split_header _) as [hs|]; cbn; [|done].
    by rewrite <- app_assoc.
Qed.

Lemma parse_request_headers_spec (r : Request) :
  (parse_request_headers BUFSIZ chomp r).1 =
    match mapM split_header (chomp <$> header_block BUFSIZ (file_in r)) with
    | Some _ => 0%Z
    | None => (-1)%Z
    end /\
  headers (parse_request_headers BUFSIZ chomp r).2 =
    match mapM split_header (chomp <$> header_block BUFSIZ (file_in r)) with
    | Some hs => rev hs
    | None => headers r
    end.
Proof.
  unfold parse_request_headers.
  pose proof (parse_headers_loop_spec (length (file_in r)) (file_in r) [] ltac:(lia)) as H.
  destruct (parse_headers_loop _ _ _ _ _) as [[curr|] s']; simpl in *;
    destruct (mapM split_header _) as [hs|]; simplify_eq/=; try done.
  by rewrite app_nil_r.
Qed.

(** C4 (amended): the header block is the lines read before the end of
    the stream or the first line of at most 2 bytes, each after chomp.
    Parsing fails exactly when a line of the block has no colon;
    otherwise the request's header collection holds, for each line of the
    block, the pair of the text before its first colon and the text after
    it without leading whitespace. *)
Theorem C4_headers (r : Request) :
  let block := chomp <$> header_block BUFSIZ (file_in r) in
  let res := parse_request_headers BUFSIZ chomp r in
  (res.1 = (-1)%Z <-> exists line, line ∈ block /\ ":"%char ∉ line) /\
  (res.1 = 0%Z <-> forall line, line ∈ block -> ":"%char ∈ line) /\
  (res.1 = 0%Z ->
   exists hs, headers res.2 ≡ₚ hs /\ Forall2 header_of_line block hs).
Proof.
  intros block res.
  destruct (parse_request_headers_spec r) as [Hrc Hhs].
  fold res in Hrc, Hhs. fold block in Hrc, Hhs.
  pose proof (mapM_is_Some split_header block) as Hsome.
  rewrite Forall_forall in Hsome.
  destruct (mapM split_header block) as [hs|] eqn:E.
  - assert (forall line, line ∈ block -> ":"%char ∈ line) as Hall.
    { intros line Hin. destruct (decide (":"%char ∈ line)) as [|Hn]; [done|].
      apply split_header_None in Hn.
      destruct (proj1 Hsome (mk_is_Some _ _ eq_refl) line Hin) as [h Hh].
      simpl in Hh. congruence. }
    split; [|split].
    + rewrite Hrc. split; [done|]. intros (line & Hin & Hn).
      exfalso. by apply Hn, Hall.
    + by rewrite Hrc.
    + intros _. exists hs. rewrite Hhs. split; [symmetry; apply Permutation_rev|].
      apply mapM_Some in E. eapply Forall2_impl; [exact E|].
      intros line h. apply split_header_Some.
  - assert (exists line, line ∈ block /\ ":"%char ∉ line) as (line & Hin & Hn).
    { destruct (decide (Forall (fun l => ":"%char ∈ l) block)) as [Hf|Hf].
      - exfalso. assert (is_Some (None : option (list header))) as [? ?]; [|done].
        apply Hsome. intros line Hin. rewrite Forall_forall in Hf.
        specialize (Hf line Hin). simpl.
        destruct (split_header line) eqn:Eh; [done|].
        by apply split_header_None in Eh.
      - apply not_Forall_Exists in Hf; [|apply _].
        apply Exists_exists in Hf. exact Hf. }
    split; [|split].
    + rewrite Hrc. split; [|done]. intros _. by exists line.
    + rewrite Hrc. split; [done|]. intros Hall. exfalso. by apply Hn, Hall.
    + by rewrite Hrc.
Qed.

Lemma parse_headers_short_line (line rest : list ascii) :
  input_line line rest -> length line <= 2 ->
  (forall fuel curr,
     parse_headers_loop BUFSIZ chomp (S fuel) (line ++ rest) curr = (Some curr, rest)) /\
  (forall r, file_in r = line ++ rest ->
     parse_request_headers BUFSIZ chomp r = (0%Z, set_headers (set_file_in r rest) [])).
Proof.
  intros Hline Hlen.
  assert (forall fuel curr,
     parse_headers_loop BUFSIZ chomp (S fuel) (line ++ rest) curr = (Some curr, rest)) as Hloop.
  { intros fuel curr. cbn [parse_headers_loop].
    rewrite (fgets_input_line BUFSIZ line rest Hline) by lia.
    pose proof (c_str_length line) as Hc. unfold strlen.
    destruct (2 <? length (c_str line)) eqn:E; [|done].
    apply Nat.ltb_lt in E. lia. }
  split; [exact Hloop|].
  intros r Hr. unfold parse_request_headers. rewrite Hr.
  destruct Hline as [Hne _].
  destruct (length (line ++ rest)) as [|n] eqn:En.
  - destruct line; [done|simpl in En; lia].
  - by rewrite Hloop.
Qed.

Lemma input_line_newline (body rest : list ascii) :
  LF ∉ body -> input_line (body ++ [LF]) rest.
Proof.
  intros H. split; [by destruct body|]. left. by exists body.
Qed.

(** C10: an input line of at most 2 bytes, terminator included, ends
    the header block: the loop stops with success and with the headers
    gathered so far, the line is consumed and is neither recorded nor an
    error; as the first line it leaves the request without headers.  The
    one-letter line a-newline does so exactly as the blank lines CR-LF and
    LF do. *)
Theorem C10_short_line (line rest : list ascii) :
  input_line line rest -> length line <= 2 ->
  (forall fuel curr,
     parse_headers_loop BUFSIZ chomp (S fuel) (line ++ rest) curr = (Some curr, rest)) /\
  (forall r, file_in r = line ++ rest ->
     parse_request_headers BUFSIZ chomp r = (0%Z, set_headers (set_file_in r rest) [])) /\
  (forall r blank,
     blank ∈ [lit "a" ++ [LF]; CRLF; [LF]] ->
     file_in r = blank ++ rest ->
     parse_request_headers BUFSIZ chomp r = (0%Z, set_headers (set_file_in r rest) [])).
Proof.
  intros Hline Hlen.
  destruct (parse_headers_short_line line rest Hline Hlen) as [H1 H2].
  split; [exact H1|]. split; [exact H2|].
  intros r blank Hin Hr.
  assert (input_line blank rest /\ length blank <= 2) as [Hb Hl].
  { rewrite !elem_of_cons in Hin. destruct Hin as [->|[->|[->|Hin]]].
    - split; [|simpl; lia]. apply (input_line_newline (lit "a")).
      intros H. apply list_elem_of_singleton in H. discriminate.
    - split; [|simpl; lia]. apply (input_line_newline [CR]).
      intros H. apply list_elem_of_singleton in H. discriminate.
    - split; [|simpl; lia]. apply (input_line_newline []). apply not_elem_of_nil.
    - by apply elem_of_nil in Hin. }
  by apply (parse_headers_short_line blank rest Hb Hl).
Qed.
End HeaderProofs.
Lemma Example_BUFSIZ_min : 256 <= Example.BUFSIZ.
Proof. apply Nat.leb_le. reflexivity. Qed.

Lemma C4_headers_witness :
  let r := Example.request (lit "Host: example.org" ++ [LF]
                            ++ lit "Accept:  text/html" ++ [LF] ++ [LF]) in
  (parse_request_headers Example.BUFSIZ Example.chomp r).1 = 0%Z /\
  exists hs,
    headers (parse_request_headers Example.BUFSIZ Example.chomp r).2 ≡ₚ hs /\
    Forall2 header_of_line
      (Example.chomp <$> header_block Example.BUFSIZ (file_in r)) hs.
Proof.
  intros r.
  destruct (C4_headers Example.BUFSIZ Example_BUFSIZ_min Example.chomp r)
    as (_ & _ & H).
  split; [reflexivity|]. apply H. reflexivity.
Defined.

(** C4 as stated fails on a one-letter line: it is not blank and has no
    colon, so the specification's parser fails, but the code takes it for
    the end of the block and succeeds. *)
Lemma C4_counterexample :
  let input := lit "a" ++ [LF] ++ CRLF in
  Spec.parse_headers input = None /\
  parse_request_headers Example.BUFSIZ Example.chomp (Example.request input)
    = (0%Z, set_headers (set_file_in (Example.request input) CRLF) []).
Proof. vm_compute. done. Qed.

(** The list is built by prepending: the header received last is the
    head. *)
Lemma headers_newest_first :
  let input := lit "Host: example.org" ++ [LF]
               ++ lit "Accept:  text/html" ++ [LF] ++ [LF] in
  headers (parse_request_headers Example.BUFSIZ Example.chomp
             (Example.request input)).2
    = [Header (lit "Accept") (lit "text/html");
       Header (lit "Host") (lit "example.org")] /\
  Spec.parse_headers input
    = Some [Header (lit "Host") (lit "example.org");
            Header (lit "Accept") (lit "text/html")].
Proof. vm_compute. done. Qed.

Lemma C10_short_line_witness :
  parse_request_headers Example.BUFSIZ Example.chomp
      (Example.request (lit "a" ++ [LF] ++ lit "Host: example.org" ++ [LF]))
    = (0%Z, set_headers
              (set_file_in
                 (Example.request (lit "a" ++ [LF] ++ lit "Host: example.org" ++ [LF]))
                 (lit "Host: example.org" ++ [LF])) []).
Proof.
  apply (C10_short_line Example.BUFSIZ Example_BUFSIZ_min Example.chomp
           (lit "a" ++ [LF]) (lit "Host: example.org" ++ [LF])).
  - split; [discriminate|]. left. exists (lit "a"). split; [reflexivity|].
    intros H. apply list_elem_of_singleton in H. discriminate.
  - simpl. lia.
  - reflexivity.
Defined.

(** ** determine_request_path *)

Lemma strncmp_eq_prefix (rp root : cstring) :
  strncmp_eq rp root (strlen root) = bool_decide (root `prefix_of` rp).
Proof.
  unfold strncmp_eq, strlen. rewrite firstn_all.
  apply bool_decide_ext. split.
  - intros H. exists (drop (length root) rp).
    rewrite <- H at 1. by rewrite take_drop.
  - intros [k ->]. by rewrite take_app_length.
Qed.

Section ResolverProofs.
Variable BUFSIZ : nat.
Variable RootPath : cstring.
Variable realpath : cstring -> option cstring.

Lemma determine_request_path_eq (uri : cstring) :
  determine_request_path BUFSIZ RootPath realpath uri =
    match realpath (take (BUFSIZ - 1) (RootPath ++ uri)) with
    | None => None
    | Some rp => if bool_decide (RootPath `prefix_of` rp) then Some rp else None
    end.
Proof.
  unfold determine_request_path, snprintf. simpl. rewrite app_nil_r.
  destruct (realpath _) as [rp|]; [|done]. by rewrite strncmp_eq_prefix.
Qed.

(** C1 (amended): the resolver canonicalizes the first BUFSIZ - 1 bytes of
    root ++ URI (all of it when it fits the buffer); it returns NULL when
    canonicalization fails and when the canonical path does not have the
    root as a literal prefix, so every path it returns has the root as a
    textual prefix. *)
Theorem C1_resolver (uri : cstring) :
  let fulluri := take (BUFSIZ - 1) (RootPath ++ uri) in
  let res := determine_request_path BUFSIZ RootPath realpath uri in
  (length RootPath + length uri < BUFSIZ -> fulluri = RootPath ++ uri) /\
  (length RootPath + length uri < BUFSIZ ->
   res = Spec.resolve realpath RootPath uri) /\
  (realpath fulluri = None -> res = None) /\
  (forall rp, realpath fulluri = Some rp -> ~ RootPath `prefix_of` rp -> res = None) /\
  (forall rp, realpath fulluri = Some rp -> RootPath `prefix_of` rp -> res = Some rp) /\
  (forall p, res = Some p -> RootPath `prefix_of` p /\ realpath fulluri = Some p).
Proof.
  intros fulluri res.
  assert (length RootPath + length uri < BUFSIZ -> fulluri = RootPath ++ uri) as Hfit.
  { intros Hlt. unfold fulluri. apply take_ge. rewrite length_app. lia. }
  unfold res. rewrite determine_request_path_eq. fold fulluri.
  split; [exact Hfit|]. split; [|split; [|split; [|split]]].
  - intros Hlt. unfold Spec.resolve. by rewrite (Hfit Hlt).
  - by intros ->.
  - intros rp -> Hn. by rewrite bool_decide_eq_false_2.
  - intros rp -> Hp. by rewrite bool_decide_eq_true_2.
  - intros p. destruct (realpath fulluri) as [rp|]; [|done].
    case_bool_decide; [|done]. by intros [= <-].
Qed.

End ResolverProofs.

(** The check compares text, not path components: a sibling directory
    whose name extends the root's passes it. *)
Lemma prefix_check_is_textual (BUFSIZ : nat)
  (realpath : cstring -> option cstring) (uri : cstring) :
  realpath (take (BUFSIZ - 1) (lit "/srv/www" ++ uri)) = Some (lit "/srv/www-evil/x") ->
  determine_request_path BUFSIZ (lit "/srv/www") realpath uri
    = Some (lit "/srv/www-evil/x").
Proof.
  intros H. rewrite determine_request_path_eq, H.
  rewrite bool_decide_eq_true_2; [done|]. by exists (lit "-evil/x").
Qed.


(** C1 as stated fails on a long URI: root ++ URI has no canonical form
    (there is no page.html), yet the resolver returns a path, that of
    the first BUFSIZ - 1 bytes. *)
Lemma C1_counterexample :
  Example.realpath (Example.root ++ Example.long_uri) = None /\
  Spec.resolve Example.realpath Example.root Example.long_uri = None /\
  determine_request_path Example.BUFSIZ Example.root Example.realpath
                         Example.long_uri = Some (lit "/srv/www/page") /\
  Example.response (Example.run Example.get_long_uri)
    = Some (HTTP_STATUS_OK,
            lit "HTTP/1.0 200 OK" ++ CRLF ++ lit "Content-type: text/plain"
            ++ CRLF ++ CRLF ++ lit "another page" ++ [LF]).
Proof. vm_compute. done. Qed.

Lemma sibling_directory_passes :
  determine_request_path Example.BUFSIZ Example.root Example.realpath
                         (lit "/../www-evil/x") = Some (lit "/srv/www-evil/x") /\
  determine_request_path Example.BUFSIZ Example.root Example.realpath
                         (lit "/../../etc/passwd") = None.
Proof. vm_compute. done. Qed.

(** ** handle_request: dispatch *)

Section DispatchProofs.
Variable BUFSIZ : nat.
Variables Port MimeTypesPath DefaultMimeType RootPath WHITESPACE : cstring.
Variable chomp : cstring -> cstring.
Variable realpath : cstring -> option cstring.
Variable stat : cstring -> option Z.
Variable access_X_OK : cstring -> bool.
Variable fopen_r : cstring -> option stream.
Variable opendir : cstring -> bool.
Variable readdir_all : cstring -> option (list cstring).
Variable popen_r : cstring -> environ -> option stream.
Variable fwrite_ret : list ascii -> list ascii -> nat.

Local Abbreviation handle_request_with st :=
  (handle_request BUFSIZ Port MimeTypesPath DefaultMimeType RootPath WHITESPACE
                  chomp realpath st access_X_OK fopen_r opendir readdir_all
                  popen_r fwrite_ret).
Local Abbreviation handle_error' := (handle_error BUFSIZ fopen_r fwrite_ret).
Local Abbreviation resolve := (determine_request_path BUFSIZ RootPath realpath).

Lemma handle_error_status (r : Request) (status : Status) :
  (handle_error' r status).1 = status.
Proof.
  unfold handle_error. destruct status; try done.
  by destruct (fopen_r _).
Qed.

Lemma parse_request_rc (r r1 : Request) (rc : Z) :
  parse_request BUFSIZ chomp r = Returns (rc, r1) -> rc = 0%Z \/ rc = (-1)%Z.
Proof.
  unfold parse_request.
  destruct (parse_request_method BUFSIZ r) as [[rc0 r0]|]; [|done]. simpl.
  destruct (rc0 =? 0)%Z; [|intros [= <- _]; by right].
  destruct (parse_request_headers BUFSIZ chomp r0) as [rc1 r1'].
  destruct (rc1 =? 0)%Z; intros [= <- _]; auto.
Qed.

Lemma parse_request_method_ok (r r1 : Request) :
  parse_request_method BUFSIZ r = Returns (0%Z, r1) ->
  is_Some (method r1) /\ is_Some (uri r1) /\ is_Some (query r1).
Proof.
  unfold parse_request_method.
  destruct (fgets BUFSIZ (file_in r)) as [[raw rest]|]; [|done].
  destruct (strtok _ _ _ _) as [[m b1] s1].
  destruct (strtok b1 _ _ _) as [[u b2] s2].
  destruct m as [m|]; [|done]. destruct u as [u|]; [|done].
  destruct (strchr _ _).
  - destruct (strtok b2 _ _ _) as [[q b3] s3].
    destruct (strtok b3 _ _ _) as [[u' b4] s4].
    intros H. by apply record_request_line_Returns in H as [_ H].
  - intros H. by apply record_request_line_Returns in H as [_ H].
Qed.

Lemma parse_request_ok (r r1 : Request) :
  parse_request BUFSIZ chomp r = Returns (0%Z, r1) ->
  is_Some (method r1) /\ is_Some (uri r1) /\ is_Some (query r1).
Proof.
  unfold parse_request.
  destruct (parse_request_method BUFSIZ r) as [[rc0 r0]|] eqn:E0; [|done]. simpl.
  destruct (rc0 =? 0)%Z eqn:Erc; [|done]. apply Z.eqb_eq in Erc. subst rc0.
  apply parse_request_method_ok in E0.
  unfold parse_request_headers.
  destruct (parse_headers_loop _ _ _ _ _) as [[curr|] s]; simpl; [|done].
  by intros [= <-].
Qed.

(** handle_request after a successful parse, as one case analysis. *)
Lemma handle_request_eq (st : cstring -> option Z) (r r1 : Request)
  (e : environ) (u : cstring) :
  parse_request BUFSIZ chomp r = Returns (0%Z, r1) ->
  uri r1 = Some u ->
  let r2 := set_path r1 (resolve u) in
  let ise := handle_error' r2 HTTP_STATUS_INTERNAL_SERVER_ERROR in
  handle_request_with st r e =
    match resolve u with
    | None => Returns (with_env e (handle_error' r2 HTTP_STATUS_NOT_FOUND))
    | Some p =>
        match st p with
        | None => Returns (with_env e ise)
        | Some m =>
            if S_ISDIR m then lift_env e (handle_browse_request
               BUFSIZ MimeTypesPath DefaultMimeType WHITESPACE fopen_r opendir
               readdir_all fwrite_ret r2)
            else if S_ISREG m then
              if access_X_OK p then
                handle_cgi_request BUFSIZ Port RootPath fopen_r popen_r
                                   fwrite_ret r2 e
              else if negb (Z.land m S_IRUSR =? 0)%Z then
                lift_env e (handle_file_request
                  BUFSIZ MimeTypesPath DefaultMimeType WHITESPACE fopen_r
                  fwrite_ret r2)
              else Returns (with_env e ise)
            else Returns (with_env e ise)
        end
    end.
Proof.
  intros Hparse Hu r2 ise.
  unfold handle_request. rewrite Hparse. simpl. rewrite Hu. simpl.
  fold r2. unfold r2 at 1. simpl. by destruct (resolve u).
Qed.

(** X7: a request that parse_request rejects is answered by
    handle_error with BAD_REQUEST, which is the status returned. *)
Lemma handle_request_bad_request (r r1 : Request) (e : environ) :
  parse_request BUFSIZ chomp r = Returns ((-1)%Z, r1) ->
  handle_request_with stat r e
    = Returns (with_env e (handle_error' r1 HTTP_STATUS_BAD_REQUEST)) /\
  (handle_error' r1 HTTP_STATUS_BAD_REQUEST).1 = HTTP_STATUS_BAD_REQUEST.
Proof.
  intros Hparse. split; [|apply handle_error_status].
  unfold handle_request. by rewrite Hparse.
Qed.

(** C2: once the request is parsed, an absent path gives NOT_FOUND
    whatever stat would say; on a resolved path a failed stat gives
    INTERNAL_SERVER_ERROR, a directory goes to handle_browse_request, a
    regular file the process may execute to handle_cgi_request, a regular
    file that is not executable and has its owner-read bit set to
    handle_file_request, and everything else gives
    INTERNAL_SERVER_ERROR. *)
Theorem C2_dispatch (r r1 : Request) (e : environ) :
  parse_request BUFSIZ chomp r = Returns (0%Z, r1) ->
  exists u, uri r1 = Some u /\
  let r2 := set_path r1 (resolve u) in
  let ise := handle_error' r2 HTTP_STATUS_INTERNAL_SERVER_ERROR in
  let hr := handle_request_with stat r e in
  (resolve u = None ->
   forall stat',
     handle_request_with stat' r e
       = Returns (with_env e (handle_error' r2 HTTP_STATUS_NOT_FOUND)) /\
     (handle_error' r2 HTTP_STATUS_NOT_FOUND).1 = HTTP_STATUS_NOT_FOUND) /\
  (forall p, resolve u = Some p ->
     (stat p = None ->
      hr = Returns (with_env e ise) /\ ise.1 = HTTP_STATUS_INTERNAL_SERVER_ERROR) /\
     (forall m, stat p = Some m ->
        (S_ISDIR m = true -> hr = lift_env e (handle_browse_request
             BUFSIZ MimeTypesPath DefaultMimeType WHITESPACE fopen_r opendir
             readdir_all fwrite_ret r2)) /\
        (S_ISDIR m = false -> S_ISREG m = true -> access_X_OK p = true ->
           hr = handle_cgi_request BUFSIZ Port RootPath fopen_r popen_r
                                   fwrite_ret r2 e) /\
        (S_ISDIR m = false -> S_ISREG m = true -> access_X_OK p = false ->
           Z.land m S_IRUSR <> 0%Z ->
           hr = lift_env e (handle_file_request
             BUFSIZ MimeTypesPath DefaultMimeType WHITESPACE fopen_r
             fwrite_ret r2)) /\
        (S_ISDIR m = false -> S_ISREG m = true -> access_X_OK p = false ->
           Z.land m S_IRUSR = 0%Z ->
           hr = Returns (with_env e ise)) /\
        (S_ISDIR m = false -> S_ISREG m = false ->
           hr = Returns (with_env e ise)))).
Proof.
  intros Hparse.
  destruct (parse_request_ok r r1 Hparse) as (_ & [u Hu] & _).
  exists u. split; [exact Hu|]. intros r2 ise hr.
  pose proof (fun st => handle_request_eq st r r1 e u Hparse Hu) as Hcode.
  cbv zeta in Hcode. fold r2 in Hcode. fold ise in Hcode.
  split.
  - intros Hnone stat'. rewrite Hcode, Hnone. split; [done|apply handle_error_status].
  - intros p Hp. unfold hr. rewrite Hcode, Hp. split.
    + intros ->. split; [done|apply handle_error_status].
    + intros m ->. repeat split.
      * by intros ->.
      * by intros -> -> ->.
      * intros -> -> -> Hr. apply Z.eqb_neq in Hr. by rewrite Hr.
      * intros -> -> -> Hr. by rewrite Hr.
      * by intros -> ->.
Qed.

End DispatchProofs.

(** GET /index.html in the example world: a regular file, not
    executable, owner-readable, so the static file handler answers. *)
Lemma C2_dispatch_witness :
  Example.run Example.get_index =
    lift_env ∅
      (handle_file_request Example.BUFSIZ Example.MimeTypesPath
         Example.DefaultMimeType Example.WHITESPACE Example.fopen_r
         Example.fwrite_ret
         (set_path Example.parsed_index (Some (lit "/srv/www/index.html")))).
Proof.
  assert (parse_request Example.BUFSIZ Example.chomp
            (Example.request Example.get_index)
          = Returns (0%Z, Example.parsed_index)) as Hparse
    by (vm_compute; reflexivity).
  destruct (C2_dispatch Example.BUFSIZ Example.Port Example.MimeTypesPath
    Example.DefaultMimeType Example.root Example.WHITESPACE Example.chomp
    Example.realpath Example.stat Example.access_X_OK Example.fopen_r
    Example.opendir Example.readdir_all Example.popen_r Example.fwrite_ret
    (Example.request Example.get_index) Example.parsed_index ∅ Hparse)
    as (u & Hu & _ & Hres).
  assert (u = lit "/index.html") as -> by (by injection Hu).
  assert (determine_request_path Example.BUFSIZ Example.root Example.realpath
            (lit "/index.html") = Some (lit "/srv/www/index.html")) as Hpath
    by (vm_compute; reflexivity).
  destruct (Hres _ Hpath) as [_ Hm].
  destruct (Hm 33188%Z eq_refl) as (_ & _ & Hfile & _).
  cbv zeta in Hfile. rewrite Hpath in Hfile.
  apply Hfile; [reflexivity|reflexivity|reflexivity|].
  vm_compute. discriminate.
Defined.

(** C2 as stated fails where readable and the owner-read bit part.
    /srv/www/shared is a regular file with mode 0044 of another user:
    not executable, and readable for the server process, which opens
    it; the specification sends it to the static file handler, the code
    answers INTERNAL_SERVER_ERROR, for the bit S_IRUSR is clear.
    /srv/www/private has mode 0600 and another owner: the server
    cannot open it and the specification answers
    INTERNAL_SERVER_ERROR, while the code, which finds the bit set,
    gives it to the static file handler, where no response comes
    about. *)
Lemma C2_counterexample :
  let route stat fopen p :=
    match stat p with
    | Some m =>
        Some (Spec.dispatch (S_ISDIR m) (S_ISREG m) (Example.access_X_OK p)
                            (bool_decide (is_Some (fopen p))))
    | None => None
    end in
  (Example.stat_shared Example.shared = Some 32804%Z /\
   Z.land 32804 S_IRUSR = 0%Z /\
   Example.fopen_shared Example.shared = Some (lit "shared text" ++ [LF]) /\
   route Example.stat_shared Example.fopen_shared Example.shared
     = Some Spec.StaticFile /\
   fst <$> Example.response (Example.run_shared Example.get_shared)
     = Some HTTP_STATUS_INTERNAL_SERVER_ERROR) /\
  (Example.stat (lit "/srv/www/private") = Some 33152%Z /\
   Z.land 33152 S_IRUSR <> 0%Z /\
   Example.fopen_r (lit "/srv/www/private") = None /\
   route Example.stat Example.fopen_r (lit "/srv/www/private")
     = Some Spec.ServerError /\
   Example.response (Example.run Example.get_private) = None).
Proof. vm_compute. repeat split; discriminate. Qed.

(** ** determine_mimetype *)

Section MimetypeProofs.
Variable BUFSIZ : nat.
Hypothesis BUFSIZ_min : 256 <= BUFSIZ.
Variables MimeTypesPath DefaultMimeType WHITESPACE : cstring.

Local Abbreviation mimetype_with fo :=
  (determine_mimetype BUFSIZ MimeTypesPath DefaultMimeType WHITESPACE fo).

Lemma scan_tokens_spec fuel (rest ext : cstring) :
  length rest <= fuel ->
  scan_tokens WHITESPACE fuel rest ext = bool_decide (ext ∈ tokens WHITESPACE rest).
Proof.
  revert rest. induction fuel as [|fuel IH]; intros rest Hlen.
  - destruct rest; [|simpl in Hlen; lia].
    symmetry. apply bool_decide_eq_false_2, not_elem_of_nil.
  - rewrite tokens_unfold. cbn [scan_tokens].
    destruct (strtok_str WHITESPACE rest) as [[tok rest']|] eqn:E.
    + apply strtok_str_Some in E. unfold streq.
      case_bool_decide as Ht.
      * subst. rewrite bool_decide_eq_true_2; [done|left].
      * rewrite IH by lia. apply bool_decide_ext. rewrite elem_of_cons.
        split; [by right|]. intros [?|?]; [congruence|done].
    + by rewrite bool_decide_eq_false_2 by apply not_elem_of_nil.
Qed.

Lemma scan_lines_spec fuel (fs : stream) (ext : cstring) :
  length fs <= fuel ->
  scan_lines BUFSIZ WHITESPACE fuel fs ext =
    (list_find (fun toks => ext ∈ tail toks) (table_lines BUFSIZ WHITESPACE fs))
      ≫= (fun it => head it.2).
Proof.
  revert fs. induction fuel as [|fuel IH]; intros fs Hlen.
  - destruct fs; [done|simpl in Hlen; lia].
  - unfold table_lines. rewrite (input_lines_unfold BUFSIZ BUFSIZ_min).
    cbn [scan_lines].
    destruct (fgets BUFSIZ fs) as [[raw fs']|] eqn:E; [|done].
    apply fgets_Some in E as [_ Hlt]. specialize (Hlt ltac:(lia)).
    rewrite !fmap_cons. fold (table_lines BUFSIZ WHITESPACE fs').
    cbn [list_find]. rewrite tokens_unfold.
    destruct (strtok_str WHITESPACE (c_str raw)) as [[mimetype rest]|] eqn:Et.
    + cbn [tail]. rewrite scan_tokens_spec by lia.
      destruct (decide (ext ∈ tokens WHITESPACE rest)) as [Hin|Hin].
      * by rewrite bool_decide_eq_true_2.
      * rewrite bool_decide_eq_false_2 by done. rewrite IH by lia.
        by destruct (list_find _ _) as [[i toks]|].
    + cbn [tail]. rewrite decide_False by apply not_elem_of_nil.
      rewrite IH by lia. by destruct (list_find _ _) as [[i toks]|].
Qed.

Lemma determine_mimetype_eq (fopen_r : cstring -> option stream) (path : cstring) :
  mimetype_with fopen_r path =
    match strrchr path "."%char with
    | Some (S i) =>
        match fopen_r MimeTypesPath with
        | Some table =>
            default DefaultMimeType
              ((list_find (fun toks => drop (S (S i)) path ∈ tail toks)
                          (table_lines BUFSIZ WHITESPACE table))
                 ≫= (fun it => head it.2))
        | None => DefaultMimeType
        end
    | _ => DefaultMimeType
    end.
Proof.
  unfold determine_mimetype.
  destruct (strrchr path ".") as [[|i]|]; try done.
  destruct (fopen_r MimeTypesPath) as [table|]; [|done].
  rewrite scan_lines_spec by lia. by destruct (_ ≫= _).
Qed.

(** C7 (amended): determine_mimetype always returns a string.  The
    extension is what follows the last dot, provided that dot is not the
    first byte of the path; without such a dot, or when the table cannot
    be opened, the default is returned.  Otherwise the result is the
    first token of the first table line whose further tokens hold the
    extension byte for byte, and the default when no line does.  The
    result depends on the table only through its content. *)
Theorem C7_mimetype (fopen_r : cstring -> option stream) (path : cstring) :
  let res := mimetype_with fopen_r path in
  ("."%char ∉ path -> res = DefaultMimeType) /\
  (strrchr path "."%char = Some 0 -> res = DefaultMimeType) /\
  (fopen_r MimeTypesPath = None -> res = DefaultMimeType) /\
  (forall i table,
     strrchr path "."%char = Some (S i) ->
     fopen_r MimeTypesPath = Some table ->
     let ext := drop (S (S i)) path in
     let lines := table_lines BUFSIZ WHITESPACE table in
     path = take (S i) path ++ "."%char :: ext /\
     ("."%char ∉ ext) /\
     (forall k toks,
        lines !! k = Some toks -> ext ∈ tail toks ->
        (forall j toks', lines !! j = Some toks' -> j < k -> ext ∉ tail toks') ->
        head toks = Some res) /\
     ((forall toks, toks ∈ lines -> ext ∉ tail toks) -> res = DefaultMimeType)) /\
  (forall fopen_r',
     fopen_r' MimeTypesPath = fopen_r MimeTypesPath ->
     mimetype_with fopen_r' path = res).
Proof.
  intros res. unfold res. rewrite determine_mimetype_eq.
  split; [|split; [|split; [|split]]].
  - intros Hn. apply strrchr_None in Hn. by rewrite Hn.
  - by intros ->.
  - intros ->. by destruct (strrchr path ".") as [[|i]|].
  - intros i table Hi Ht. rewrite Hi, Ht.
    set (ext := drop (S (S i)) path).
    set (lines := table_lines BUFSIZ WHITESPACE table).
    destruct (strrchr_Some _ _ _ Hi) as [Hp Hn].
    split; [exact Hp|]. split; [exact Hn|]. split.
    + intros k toks Hk Hin Hfirst.
      assert (list_find (fun toks => ext ∈ tail toks) lines = Some (k, toks)) as ->.
      { apply list_find_Some. split; [done|]. split; [done|].
        intros j toks' Hj Hlt. by apply (Hfirst j). }
      simpl. destruct toks as [|m toks]; [|done].
      by apply elem_of_nil in Hin.
    + intros Hnone.
      destruct (list_find (fun toks => ext ∈ tail toks) lines) as [[k toks]|] eqn:E;
        [|done].
      apply list_find_Some in E as (Hk & Hin & _).
      exfalso. apply (Hnone toks); [|done]. by eapply list_elem_of_lookup_2.
  - intros fopen_r' Heq. by rewrite determine_mimetype_eq, Heq.
Qed.

End MimetypeProofs.

Lemma C7_mimetype_witness :
  determine_mimetype Example.BUFSIZ Example.MimeTypesPath Example.DefaultMimeType
                     Example.WHITESPACE Example.fopen_r (lit "Makefile")
    = Example.DefaultMimeType.
Proof.
  apply (proj1 (C7_mimetype Example.BUFSIZ Example_BUFSIZ_min
                  Example.MimeTypesPath Example.DefaultMimeType
                  Example.WHITESPACE Example.fopen_r (lit "Makefile"))).
  apply strrchr_None. reflexivity.
Defined.

(** C7 as stated fails on a name whose only dot comes first: the
    substring after the last dot is png, which the table lists, but the
    code returns the default. *)
Lemma C7_counterexample :
  Spec.mimetype Example.DefaultMimeType Example.WHITESPACE Example.mime_types
                (lit ".png") = lit "image/png" /\
  determine_mimetype Example.BUFSIZ Example.MimeTypesPath Example.DefaultMimeType
                     Example.WHITESPACE Example.fopen_r (lit ".png")
    = lit "text/plain".
Proof. vm_compute. done. Qed.

Lemma mimetype_examples :
  let mt := determine_mimetype Example.BUFSIZ Example.MimeTypesPath
              Example.DefaultMimeType Example.WHITESPACE Example.fopen_r in
  mt (lit "logo.png") = lit "image/png" /\
  mt (lit "/srv/www/index.html") = lit "text/html" /\
  mt (lit "page.htm") = lit "text/html" /\
  mt (lit "LOGO.PNG") = lit "text/plain" /\
  mt (lit "archive.tar.h") = lit "text/x-c" /\
  mt (lit "notes.") = lit "text/plain" /\
  Spec.mimetype Example.DefaultMimeType Example.WHITESPACE Example.mime_types
                (lit "logo.png") = lit "image/png".
Proof. vm_compute. done. Qed.

(** ** handle_cgi_request: copying the output *)

Section CgiCopyProofs.
Variable BUFSIZ : nat.
Hypothesis BUFSIZ_min : 256 <= BUFSIZ.

(** What the loop writes: the strings of the lines read before the end
    of the stream or the first line that starts with a NUL byte. *)
Lemma copy_cgi_output_spec fuel (pfs : stream) (r : Request) :
  length pfs <= fuel ->
  copy_cgi_output BUFSIZ fuel pfs r =
    fputs (concat (span (fun l => 0 <? strlen l)
                        (c_str <$> input_lines BUFSIZ pfs)).1) r.
Proof.
  revert pfs r. induction fuel as [|fuel IH]; intros pfs r Hlen.
  - destruct pfs; [|simpl in Hlen; lia]. by rewrite fputs_nil.
  - rewrite (input_lines_unfold BUFSIZ BUFSIZ_min). cbn [copy_cgi_output].
    destruct (fgets BUFSIZ pfs) as [[raw pfs']|] eqn:E; [|by rewrite fputs_nil].
    apply fgets_Some in E as [_ Hlt]. specialize (Hlt ltac:(lia)).
    rewrite fmap_cons. cbn [span].
    destruct (0 <? strlen (c_str raw)); [|by rewrite fputs_nil].
    rewrite IH by lia. rewrite fputs_fputs.
    by destruct (span _ _).
Qed.

Lemma input_lines_nonempty (s : stream) :
  Forall (fun l => l <> []) (input_lines BUFSIZ s).
Proof.
  remember (length s) as n eqn:Hn. revert s Hn.
  induction (lt_wf n) as [n _ IH]. intros s ->.
  rewrite (input_lines_unfold BUFSIZ BUFSIZ_min).
  destruct (fgets BUFSIZ s) as [[raw s']|] eqn:E; [|constructor].
  apply fgets_Some in E as [-> Hlt]. specialize (Hlt ltac:(lia)).
  constructor; [|by eapply IH].
  intros ->. simpl in Hlt. lia.
Qed.

Lemma copy_cgi_output_no_nul (pfs : stream) (r : Request) :
  NUL ∉ pfs -> copy_cgi_output BUFSIZ (length pfs) pfs r = fputs pfs r.
Proof.
  intros Hnul. rewrite copy_cgi_output_spec by lia. f_equal.
  pose proof (input_lines_concat BUFSIZ BUFSIZ_min pfs) as Hcat.
  pose proof (input_lines_nonempty pfs) as Hne.
  rewrite <- Hcat in Hnul. rewrite <- Hcat at 2. clear Hcat.
  induction Hne as [|raw ls Hraw _ IH]; [done|].
  simpl in Hnul. rewrite elem_of_app in Hnul.
  rewrite fmap_cons. cbn [span]. rewrite c_str_no_nul by tauto.
  destruct raw as [|c raw]; [done|]. cbn [strlen length Nat.ltb Nat.leb].
  destruct (span _ _) as [a b] eqn:Es. simpl in *. do 2 f_equal. apply IH. tauto.
Qed.

End CgiCopyProofs.

Section CgiProofs.
Variable BUFSIZ : nat.
Hypothesis BUFSIZ_min : 256 <= BUFSIZ.
Variables Port RootPath : cstring.
Variable fopen_r : cstring -> option stream.
Variable popen_r : cstring -> environ -> option stream.
Variable fwrite_ret : list ascii -> list ascii -> nat.

Local Abbreviation handle_cgi :=
  (handle_cgi_request BUFSIZ Port RootPath fopen_r popen_r fwrite_ret).

Lemma handle_cgi_request_eq (r : Request) (e e' : environ)
  (command : cstring) (pfs : stream) :
  export_environment Port RootPath r e = Returns e' ->
  e' !! "SCRIPT_FILENAME" = Some command ->
  popen_r command e' = Some pfs ->
  handle_cgi r e =
    Returns (HTTP_STATUS_OK,
             fputs (concat (span (fun l => 0 <? strlen l)
                                 (c_str <$> input_lines BUFSIZ pfs)).1) r,
             e').
Proof.
  intros He Hc Hp. unfold handle_cgi_request. rewrite He. simpl.
  rewrite Hc, Hp. by rewrite copy_cgi_output_spec by (done || lia).
Qed.

(** C5 (amended): the output of the subprocess is copied line by line
    until the subprocess closes it: when it holds no NUL byte all of it
    reaches the connection unchanged, and a line that is empty but for
    its newline is copied like any other and does not end the copy.  In
    general each line is written up to its first NUL byte and only a line
    that starts with one ends the copy. *)
Theorem C5_cgi_copy (r : Request) (e e' : environ)
  (command : cstring) (pfs : stream) :
  export_environment Port RootPath r e = Returns e' ->
  e' !! "SCRIPT_FILENAME" = Some command ->
  popen_r command e' = Some pfs ->
  (NUL ∉ pfs -> handle_cgi r e = Returns (HTTP_STATUS_OK, fputs pfs r, e')) /\
  (forall before after,
     pfs = before ++ [LF] ++ [LF] ++ after -> NUL ∉ pfs ->
     exists r', handle_cgi r e = Returns (HTTP_STATUS_OK, r', e') /\
       file_out r' = file_out r ++ before ++ [LF] ++ [LF] ++ after) /\
  handle_cgi r e =
    Returns (HTTP_STATUS_OK,
             fputs (concat (span (fun l => 0 <? strlen l)
                                 (c_str <$> input_lines BUFSIZ pfs)).1) r,
             e').
Proof.
  intros He Hc Hp.
  pose proof (handle_cgi_request_eq r e e' command pfs He Hc Hp) as Heq.
  assert (NUL ∉ pfs -> handle_cgi r e = Returns (HTTP_STATUS_OK, fputs pfs r, e'))
    as Hall.
  { intros Hnul. rewrite Heq. do 3 f_equal.
    rewrite <- (copy_cgi_output_spec BUFSIZ BUFSIZ_min (length pfs)) by lia.
    by apply copy_cgi_output_no_nul. }
  split; [exact Hall|]. split; [|exact Heq].
  intros before after Hpfs Hnul. exists (fputs pfs r).
  split; [by apply Hall|]. by rewrite Hpfs.
Qed.

End CgiProofs.

Lemma Example_report_env :
  export_environment Example.Port Example.root Example.parsed_report ∅
    = Returns Example.report_env.
Proof. reflexivity. Qed.

Lemma Example_report_command :
  Example.report_env !! "SCRIPT_FILENAME" = Some (lit "/srv/www/report.cgi").
Proof. compute_done. Qed.

Lemma Example_report_popen :
  Example.popen_r (lit "/srv/www/report.cgi") Example.report_env
    = Some Example.report_output.
Proof. vm_compute. reflexivity. Qed.

Lemma C5_cgi_copy_witness :
  handle_cgi_request Example.BUFSIZ Example.Port Example.root Example.fopen_r
                     Example.popen_r Example.fwrite_ret
                     Example.parsed_report ∅
  = Returns (HTTP_STATUS_OK,
             fputs Example.report_output Example.parsed_report,
             Example.report_env).
Proof.
  apply (proj1 (C5_cgi_copy Example.BUFSIZ Example_BUFSIZ_min Example.Port
                  Example.root Example.fopen_r Example.popen_r
                  Example.fwrite_ret Example.parsed_report ∅
                  Example.report_env (lit "/srv/www/report.cgi")
                  Example.report_output
                  Example_report_env Example_report_command
                  Example_report_popen)).
  compute_done.
Defined.

(** C5 as stated fails on a script that prints a header, an empty line
    and a body: the specification's copy ends at the empty line, the
    code's goes on to the end of the output. *)
Lemma C5_counterexample :
  Spec.cgi_copy Example.report_output = lit "Content-Type: text/plain" ++ [LF] /\
  file_out (copy_cgi_output Example.BUFSIZ (length Example.report_output)
                            Example.report_output Example.parsed_report)
    = lit "Content-Type: text/plain" ++ [LF] ++ [LF] ++ lit "q=x=1" ++ [LF] /\
  Example.response (Example.run Example.get_report)
    = Some (HTTP_STATUS_OK, Example.report_output).
Proof. vm_compute. done. Qed.

(** ** handle_browse_request *)

Lemma strcmp_opp (a b : cstring) : strcmp b a = CompOpp (strcmp a b).
Proof.
  revert b. induction a as [|c a IH]; intros [|d b]; simpl; try done.
  rewrite (Nat.compare_antisym (nat_of_ascii c) (nat_of_ascii d)).
  destruct (nat_of_ascii c ?= nat_of_ascii d); simpl; [apply IH|done|done].
Qed.

#[global] Instance alphasort_le_total : Total alphasort_le.
Proof.
  intros a b. unfold alphasort_le. rewrite (strcmp_opp a b).
  destruct (strcmp a b); simpl; [left|left|right]; done.
Qed.

#[global] Instance alphasort_le_trans : Transitive alphasort_le.
Proof.
  unfold alphasort_le. intros a. induction a as [|c a IH]; intros b z.
  - destruct b, z; simpl; done.
  - destruct b as [|d b]; [done|]. destruct z as [|f z]; [simpl|].
    { intros _. by destruct (nat_of_ascii c ?= nat_of_ascii d). }
    simpl.
    destruct (nat_of_ascii c ?= nat_of_ascii d) eqn:E1;
      destruct (nat_of_ascii d ?= nat_of_ascii f) eqn:E2; try done.
    + apply Nat.compare_eq in E1, E2. rewrite E1, E2, Nat.compare_refl. apply IH.
    + apply Nat.compare_eq in E1. rewrite E1, E2. done.
    + apply Nat.compare_eq in E2. rewrite <- E2, E1. done.
    + apply Nat.compare_lt_iff in E1, E2.
      assert (nat_of_ascii c < nat_of_ascii f) as Hlt by lia.
      apply Nat.compare_lt_iff in Hlt. by rewrite Hlt.
Qed.

Lemma filter_curdir_spec (d : cstring) : filter_curdir d = true <-> d <> lit ".".
Proof. unfold filter_curdir, streq. case_bool_decide; naive_solver. Qed.

Section BrowseProofs.
Variable BUFSIZ : nat.
Variables MimeTypesPath DefaultMimeType WHITESPACE : cstring.
Variable fopen_r : cstring -> option stream.
Variable opendir : cstring -> bool.
Variable readdir_all : cstring -> option (list cstring).
Variable fwrite_ret : list ascii -> list ascii -> nat.

Local Abbreviation mimetype_of :=
  (determine_mimetype BUFSIZ MimeTypesPath DefaultMimeType WHITESPACE fopen_r).
Local Abbreviation is_image fname :=
  (strncmp_eq (mimetype_of fname) (lit "image/") 6).
Local Abbreviation browse :=
  (handle_browse_request BUFSIZ MimeTypesPath DefaultMimeType WHITESPACE
                         fopen_r opendir readdir_all fwrite_ret).

Local Abbreviation item :=
  (listing_item BUFSIZ MimeTypesPath DefaultMimeType WHITESPACE fopen_r).

Lemma emit_entry_eq (uri sep fname : cstring) (r : Request) :
  emit_entry BUFSIZ MimeTypesPath DefaultMimeType WHITESPACE fopen_r
             uri sep fname r
    = fputs (item uri sep fname) r.
Proof.
  unfold emit_entry, listing_item, snprintf. simpl concat. rewrite app_nil_r.
  destruct (is_image fname); rewrite ?fputs_fputs; f_equal;
    by rewrite <- ?app_assoc.
Qed.

Lemma emit_entries_eq (uri sep : cstring) (entries : list cstring) (r : Request) :
  emit_entries BUFSIZ MimeTypesPath DefaultMimeType WHITESPACE fopen_r
               uri sep entries r
    = fputs (concat (item uri sep <$> entries)) r.
Proof.
  revert r. induction entries as [|fname entries IH]; intros r.
  - by rewrite fputs_nil.
  - cbn [emit_entries]. rewrite IH, emit_entry_eq, fputs_fputs. done.
Qed.

Lemma scandir_spec (p : cstring) (names : list cstring) :
  readdir_all p = Some names ->
  exists entries,
    scandir readdir_all p = Some entries /\
    StronglySorted alphasort_le entries /\
    entries ≡ₚ filter (fun d => d <> lit ".") names /\
    (forall d, d ∈ entries <-> d ∈ names /\ d <> lit ".").
Proof.
  intros Hn. unfold scandir. rewrite Hn. simpl.
  eexists. split; [reflexivity|]. split; [apply StronglySorted_merge_sort; apply _|].
  assert (merge_sort alphasort_le (filter (fun d => filter_curdir d = true) names)
          ≡ₚ filter (fun d => d <> lit ".") names) as Hperm.
  { rewrite merge_sort_Permutation.
    erewrite list_filter_iff; [done|]. intros d. apply filter_curdir_spec. }
  split; [exact Hperm|].
  intros d. rewrite Hperm, list_elem_of_filter. tauto.
Qed.

Lemma handle_browse_request_eq (r : Request) (p u : cstring)
  (entries : list cstring) :
  path r = Some p -> uri r = Some u -> u <> [] ->
  opendir p = true -> scandir readdir_all p = Some entries ->
  browse r =
    Returns (HTTP_STATUS_OK,
      fputs (lit "HTTP/1.0 200 OK" ++ CRLF ++ lit "Content-Type: text/html"
             ++ CRLF ++ CRLF
             ++ lit "<h1>Index of " ++ u ++ lit "</h1>" ++ CRLF
             ++ lit "<ul>" ++ CRLF
             ++ concat (item u (if bool_decide (last u = Some "/"%char)
                                then [] else lit "/") <$> entries)
             ++ lit "</ul>" ++ CRLF) r).
Proof.
  intros Hp Hu Hne Hopen Hscan.
  unfold handle_browse_request. rewrite Hp, Hu, Hopen, Hscan.
  destruct (last u) as [c|] eqn:Hlast; [|by apply last_None in Hlast].
  f_equal. f_equal. rewrite emit_entries_eq, !fputs_fputs. f_equal.
  rewrite <- !app_assoc. do 12 f_equal.
  repeat case_bool_decide; congruence.
Qed.

(** C9 (amended): the entries are written in the order of alphasort; the
    entry . is left out, the entry .. and the hidden entries are kept;
    the target of each link is the first BUFSIZ - 1 bytes of the request
    URI, a slash unless the URI ends with one, and the entry name (all of
    it when that is shorter than BUFSIZ); an entry whose mimetype starts
    with image/ gets an img element before its link. *)
Theorem C9_listing (r : Request) (p u : cstring) (names : list cstring) :
  path r = Some p -> uri r = Some u -> u <> [] ->
  opendir p = true -> readdir_all p = Some names ->
  let sep := if bool_decide (last u = Some "/"%char) then [] else lit "/" in
  exists entries,
    StronglySorted alphasort_le entries /\
    (forall d, d ∈ entries <-> d ∈ names /\ d <> lit ".") /\
    entries ≡ₚ filter (fun d => d <> lit ".") names /\
    browse r =
      Returns (HTTP_STATUS_OK,
        fputs (lit "HTTP/1.0 200 OK" ++ CRLF ++ lit "Content-Type: text/html"
               ++ CRLF ++ CRLF
               ++ lit "<h1>Index of " ++ u ++ lit "</h1>" ++ CRLF
               ++ lit "<ul>" ++ CRLF
               ++ concat ((fun fname =>
                    let webpath := take (BUFSIZ - 1) (u ++ sep ++ fname) in
                    [TAB] ++ lit "<li>" ++ CRLF
                    ++ (if is_image fname then fmt_img webpath else [])
                    ++ fmt_anchor webpath fname
                    ++ [TAB] ++ lit "</li>" ++ CRLF) <$> entries)
               ++ lit "</ul>" ++ CRLF) r) /\
    (forall fname,
       length u + length sep + length fname < BUFSIZ ->
       take (BUFSIZ - 1) (u ++ sep ++ fname) = Spec.link_target u fname).
Proof.
  intros Hp Hu Hne Hopen Hnames sep.
  destruct (scandir_spec p names Hnames) as (entries & Hscan & Hsorted & Hperm & Hin).
  exists entries. split; [done|]. split; [done|]. split; [done|]. split.
  - by rewrite (handle_browse_request_eq r p u entries).
  - intros fname Hlen. unfold Spec.link_target. fold sep.
    apply take_ge. rewrite !length_app. lia.
Qed.

End BrowseProofs.

Lemma C9_listing_witness :
  exists entries,
    StronglySorted alphasort_le entries /\
    (forall d, d ∈ entries <->
       d ∈ [lit "index.html"; lit "."; lit "logo.png"; lit ".."; lit ".hidden";
            lit "Notes"; lit "report.cgi"; lit "docs"] /\ d <> lit ".").
Proof.
  destruct (C9_listing Example.BUFSIZ Example.MimeTypesPath
              Example.DefaultMimeType Example.WHITESPACE Example.fopen_r
              Example.opendir Example.readdir_all Example.fwrite_ret
              Example.browse_root (lit "/srv/www") (lit "/")
              _ eq_refl eq_refl ltac:(discriminate) eq_refl eq_refl)
    as (entries & Hsorted & Hin & _).
  exists entries. split; [exact Hsorted|exact Hin].
Defined.

(** The listing of the example root, in the order of alphasort (capital
    letters before small ones). *)
Lemma listing_example :
  scandir Example.readdir_all (lit "/srv/www")
    = Some [lit ".."; lit ".hidden"; lit "Notes"; lit "docs"; lit "index.html";
            lit "logo.png"; lit "report.cgi"].
Proof. vm_compute. reflexivity. Qed.

Lemma Example_long_dir_last : last Example.long_dir = Some "/"%char.
Proof. vm_compute. reflexivity. Qed.

Lemma Example_docs_scandir :
  scandir Example.readdir_all (lit "/srv/www/docs")
    = Some [lit ".."; lit "index.html"].
Proof. vm_compute. reflexivity. Qed.

(** C9 as stated fails on a long request URI: the URI joined with
    index.html is one byte longer than the buffer holds, and the link
    written points to index.htm. *)
Lemma C9_counterexample :
  let u := Example.long_dir in
  let item := listing_item Example.BUFSIZ Example.MimeTypesPath
                Example.DefaultMimeType Example.WHITESPACE Example.fopen_r in
  Spec.link_target u (lit "index.html") = u ++ lit "index.html" /\
  snprintf Example.BUFSIZ [u; []; lit "index.html"] = u ++ lit "index.htm" /\
  item u [] (lit "index.html")
    = [TAB] ++ lit "<li>" ++ CRLF
      ++ fmt_anchor (take (Example.BUFSIZ - 1) (u ++ [] ++ lit "index.html"))
                    (lit "index.html")
      ++ [TAB] ++ lit "</li>" ++ CRLF /\
  handle_browse_request Example.BUFSIZ Example.MimeTypesPath
      Example.DefaultMimeType Example.WHITESPACE Example.fopen_r
      Example.opendir Example.readdir_all Example.fwrite_ret
      Example.browse_long_dir
    = Returns (HTTP_STATUS_OK,
        fputs (lit "HTTP/1.0 200 OK" ++ CRLF ++ lit "Content-Type: text/html"
               ++ CRLF ++ CRLF
               ++ lit "<h1>Index of " ++ u ++ lit "</h1>" ++ CRLF
               ++ lit "<ul>" ++ CRLF
               ++ concat (item u [] <$> [lit ".."; lit "index.html"])
               ++ lit "</ul>" ++ CRLF) Example.browse_long_dir).
Proof.
  intros u item. split; [|split; [|split]].
  - vm_compute. reflexivity.
  - vm_compute. reflexivity.
  - unfold item, listing_item.
    replace (strncmp_eq _ (lit "image/") 6) with false by (vm_compute; reflexivity).
    reflexivity.
  - rewrite (handle_browse_request_eq Example.BUFSIZ Example.MimeTypesPath
             Example.DefaultMimeType Example.WHITESPACE Example.fopen_r
             Example.opendir Example.readdir_all Example.fwrite_ret
             Example.browse_long_dir (lit "/srv/www/docs") u
             [lit ".."; lit "index.html"]).
    + rewrite bool_decide_eq_true_2; [reflexivity|apply Example_long_dir_last].
    + reflexivity.
    + reflexivity.
    + unfold u. intros H. pose proof Example_long_dir_last as Hl.
      rewrite H in Hl. discriminate.
    + reflexivity.
    + apply Example_docs_scandir.
Qed.

(** ** handle_cgi_request: the environment *)

Lemma export_header_eq (h : header) (e : environ) :
  export_header h e =
    match exported_as (name h) with
    | Some k => <[k := value h]> e
    | None => e
    end.
Proof.
  unfold export_header, exported_as.
  repeat (destruct (streq (name h) _); [reflexivity|]). reflexivity.
Qed.

(** After the loop a variable holds the value of the last header of the
    list that is exported to it, and what it held before when there is
    none. *)
Lemma export_headers_lookup (hs : list header) (e : environ) (k : string) :
  export_headers hs e !! k =
    match last (filter (fun h => exported_as (name h) = Some k) hs) with
    | Some h => Some (value h)
    | None => e !! k
    end.
Proof.
  revert e. induction hs as [|h hs IH]; intros e; [done|].
  cbn [export_headers]. rewrite IH, export_header_eq.
  rewrite filter_cons.
  destruct (decide (exported_as (name h) = Some k)) as [Hk|Hk].
  - rewrite Hk, last_cons.
    destruct (last (filter _ hs)); [done|]. by rewrite lookup_insert_eq.
  - destruct (last (filter _ hs)); [done|].
    destruct (exported_as (name h)) as [k'|]; [|done].
    rewrite lookup_insert_ne; [done|congruence].
Qed.

Lemma exported_as_HTTP (n : cstring) (k : string) :
  exported_as n = Some k ->
  k ∈ ["HTTP_HOST"; "HTTP_USER_AGENT"; "HTTP_ACCEPT"; "HTTP_ACCEPT_ENCODING";
       "HTTP_CONNECTION"]%string.
Proof.
  unfold exported_as.
  repeat (destruct (streq n _); [intros [= <-]; compute_done|]). done.
Qed.

(** X6: before popen the environment holds the document root, the query
    string, the remote host and port, the method, the URI, the script
    path and the server port; every other variable is the value of the
    last header of the list exported to it (Host, User-Agent, Accept and
    Accept-Language, Accept-Encoding, Connection), or untouched. *)
Lemma export_environment_base (Port RootPath : cstring) (r : Request)
  (e : environ) (m u p q : cstring) :
  method r = Some m -> uri r = Some u -> path r = Some p -> query r = Some q ->
  exists e',
    export_environment Port RootPath r e = Returns e' /\
    e' !! "DOCUMENT_ROOT" = Some RootPath /\
    e' !! "QUERY_STRING" = Some q /\
    e' !! "REMOTE_ADDR" = Some (host r) /\
    e' !! "REMOTE_PORT" = Some (port r) /\
    e' !! "REQUEST_METHOD" = Some m /\
    e' !! "REQUEST_URI" = Some u /\
    e' !! "SCRIPT_FILENAME" = Some p /\
    e' !! "SERVER_PORT" = Some Port /\
    (forall k, e' !! k =
       match last (filter (fun h => exported_as (name h) = Some k) (headers r)) with
       | Some h => Some (value h)
       | None =>
           (<["SERVER_PORT" := Port]>
             (<["SCRIPT_FILENAME" := p]>
               (<["REQUEST_URI" := u]>
                 (<["REQUEST_METHOD" := m]>
                   (<["REMOTE_PORT" := port r]>
                     (<["REMOTE_ADDR" := host r]>
                       (<["QUERY_STRING" := q]>
                         (<["DOCUMENT_ROOT" := RootPath]> e)))))))) !! k
       end).
Proof.
  intros Hm Hu Hp Hq. unfold export_environment, setenv.
  rewrite Hm, Hu, Hp, Hq. cbn [nonnull obind].
  eexists. split; [reflexivity|].
  assert (forall k v, k ∉ ["HTTP_HOST"; "HTTP_USER_AGENT"; "HTTP_ACCEPT";
                           "HTTP_ACCEPT_ENCODING"; "HTTP_CONNECTION"]%string ->
            forall e0 : environ, e0 !! k = Some v ->
            export_headers (headers r) e0 !! k = Some v) as Hbase.
  { intros k v Hk e0 He0. rewrite export_headers_lookup.
    destruct (last _) as [h|] eqn:El; [|done].
    apply last_Some_elem_of, list_elem_of_filter in El as [El _].
    apply exported_as_HTTP in El. done. }
  repeat split; try (apply Hbase; [compute_done|]; by simplify_map_eq).
  intros k. apply export_headers_lookup.
Qed.

Lemma export_header_accept_language (v : cstring) (e : environ) :
  export_header (Header (lit "Accept-Language") v) e = <["HTTP_ACCEPT" := v]> e.
Proof. reflexivity. Qed.

(** C6: a request with the header Accept-Language: en-US runs the script
    with HTTP_ACCEPT set to en-US and HTTP_ACCEPT_LANGUAGE not set. *)
Lemma C6_accept_language_exported_as_accept :
  match Example.run Example.get_report_language with
  | Returns (st, _, e) =>
      st = HTTP_STATUS_OK /\
      e !! "HTTP_ACCEPT" = Some (lit "en-US") /\
      e !! "HTTP_ACCEPT_LANGUAGE" = None
  | Undefined => False
  end.
Proof. vm_compute. done. Qed.

(** ** handle_file_request *)

Section FileProofs.
Variable BUFSIZ : nat.
Hypothesis BUFSIZ_min : 256 <= BUFSIZ.
Variables MimeTypesPath DefaultMimeType WHITESPACE : cstring.
Variable fopen_r : cstring -> option stream.
Variable fwrite_ret : list ascii -> list ascii -> nat.

Local Abbreviation handle_file :=
  (handle_file_request BUFSIZ MimeTypesPath DefaultMimeType WHITESPACE fopen_r
                       fwrite_ret).

Lemma handle_file_request_fopen_fails (r : Request) (p : cstring) :
  path r = Some p -> fopen_r p = None -> handle_file r = Undefined.
Proof. intros Hp Hf. unfold handle_file_request. by rewrite Hp, Hf. Qed.

Lemma stream_file_complete fuel (fs : stream) (r : Request) :
  (forall out chunk, length chunk <= fwrite_ret out chunk) ->
  length fs <= fuel ->
  stream_file BUFSIZ fwrite_ret fuel fs r = (true, fputs fs r).
Proof.
  intros Hw. revert fs r. induction fuel as [|fuel IH]; intros fs r Hlen.
  - destruct fs; [|simpl in Hlen; lia]. by rewrite fputs_nil.
  - cbn [stream_file]. unfold fread.
    destruct (0 <? length (take BUFSIZ fs)) eqn:E.
    + apply Nat.ltb_lt in E. unfold fwrite.
      rewrite Nat.min_r by apply Hw. rewrite firstn_all.
      destruct (length (take BUFSIZ fs) =? 0) eqn:E0;
        [apply Nat.eqb_eq in E0; lia|].
      fold (fputs (take BUFSIZ fs) r). rewrite IH.
      * by rewrite fputs_fputs, take_drop.
      * rewrite length_drop. rewrite length_take in E. lia.
    + apply Nat.ltb_ge in E. rewrite length_take in E.
      destruct fs; [by rewrite fputs_nil|simpl in E; lia].
Qed.

(** X4: when the file opens and every fwrite writes its whole chunk, the
    handler sends the status line, the content type and the whole file,
    and returns OK. *)
Lemma handle_file_request_streams (r : Request) (p : cstring) (fs : stream) :
  path r = Some p -> fopen_r p = Some fs ->
  (forall out chunk, length chunk <= fwrite_ret out chunk) ->
  handle_file r =
    Returns (HTTP_STATUS_OK,
             fputs ((lit "HTTP/1.0 200 OK" ++ CRLF)
                    ++ lit "Content-type: "
                    ++ determine_mimetype BUFSIZ MimeTypesPath DefaultMimeType
                                          WHITESPACE fopen_r p
                    ++ CRLF ++ CRLF ++ fs) r).
Proof.
  intros Hp Hf Hw. unfold handle_file_request. rewrite Hp, Hf.
  rewrite stream_file_complete by (done || lia).
  rewrite !fputs_fputs. by rewrite <- !app_assoc.
Qed.

Lemma copy_error_page_appends fuel (fs : stream) (r : Request) :
  (file_out r) `prefix_of` (file_out (copy_error_page BUFSIZ fwrite_ret fuel fs r)).
Proof.
  revert fs r. induction fuel as [|fuel IH]; intros fs r; [done|].
  cbn [copy_error_page]. unfold fread.
  destruct (0 <? length (take BUFSIZ fs)); [|done].
  unfold fwrite. etransitivity; [|apply IH].
  unfold set_file_out. cbn [file_out]. by apply prefix_app_r.
Qed.

Lemma handle_error_appends (r : Request) (status : Status) :
  (file_out r) `prefix_of`
    (file_out (handle_error BUFSIZ fopen_r fwrite_ret r status).2).
Proof.
  unfold handle_error.
  destruct status;
    try (rewrite !fputs_fputs; unfold fputs, set_file_out; cbn [snd file_out];
         by apply prefix_app_r).
  destruct (fopen_r _); cbn [snd].
  - etransitivity; [|apply copy_error_page_appends].
    rewrite !fputs_fputs. unfold fputs, set_file_out. cbn [file_out].
    by apply prefix_app_r.
  - rewrite !fputs_fputs. unfold fputs, set_file_out. cbn [file_out].
    by apply prefix_app_r.
Qed.

Lemma stream_file_first_chunk_fails (fs : stream) (r : Request) :
  fwrite_ret (file_out r) (take BUFSIZ fs) = 0 -> fs <> [] ->
  stream_file BUFSIZ fwrite_ret (length fs) fs r = (false, r).
Proof.
  intros Hw Hne. destruct fs as [|c fs]; [done|].
  cbn [length stream_file]. unfold fread.
  assert ((0 <? length (take BUFSIZ (c :: fs))) = true) as ->.
  { apply Nat.ltb_lt. rewrite length_take. cbn [length]. lia. }
  unfold fwrite. rewrite Hw, Nat.min_0_l, take_0.
  fold (fputs [] r). by rewrite fputs_nil.
Qed.

(** X5: when the file opens and the fwrite of its first chunk returns
    0, the handler stops there: nothing of the file is written, the
    status returned is INTERNAL_SERVER_ERROR, and what the handler has
    written is the 200 status line and the content type, already out,
    followed by the whole error response of handle_error for that
    status. *)
Lemma handle_file_request_write_fails (r : Request) (p : cstring) (fs : stream) :
  path r = Some p -> fopen_r p = Some fs -> fs <> [] ->
  let head :=
    lit "HTTP/1.0 200 OK" ++ CRLF ++ lit "Content-type: "
    ++ determine_mimetype BUFSIZ MimeTypesPath DefaultMimeType WHITESPACE
                          fopen_r p
    ++ CRLF ++ CRLF in
  fwrite_ret (file_out r ++ head) (take BUFSIZ fs) = 0 ->
  handle_file r =
    Returns (HTTP_STATUS_INTERNAL_SERVER_ERROR,
             fputs (head
                    ++ lit "HTTP/1.0 500 Internal Server Error" ++ [LF]
                    ++ lit "Content-type: text/html" ++ CRLF ++ CRLF
                    ++ lit "<!DOCTYPE html>" ++ [LF]
                    ++ lit "<html>" ++ [LF]
                    ++ lit "  <body><h1>500 Internal Server Error</h1></body>"
                    ++ [LF]
                    ++ lit "</html>" ++ [LF]) r).
Proof.
  intros Hp Hf Hne head Hw. unfold handle_file_request. rewrite Hp, Hf.
  rewrite fputs_fputs.
  assert ((lit "HTTP/1.0 " ++ http_status_string HTTP_STATUS_OK ++ CRLF)
          ++ lit "Content-type: "
          ++ determine_mimetype BUFSIZ MimeTypesPath DefaultMimeType WHITESPACE
                                fopen_r p
          ++ CRLF ++ CRLF = head) as -> by (unfold head; assoc_eq).
  rewrite stream_file_first_chunk_fails by done.
  unfold handle_error. cbn [http_status_string].
  rewrite !fputs_fputs. do 2 f_equal; assoc_eq.
Qed.

End FileProofs.

(** C8: when fopen fails the handler reaches fclose(NULL) before
    handle_error: the request for a file of another user with mode 0600
    (owner-read bit set, not executable, not readable by the server)
    has no defined result. *)
Lemma C8_fopen_failure_undefined :
  Example.stat (lit "/srv/www/private") = Some 33152%Z /\
  Example.fopen_r (lit "/srv/www/private") = None /\
  Example.run Example.get_private = Undefined.
Proof. vm_compute. done. Qed.

(** ** The lemmas above at concrete requests *)

Lemma parse_request_method_query_witness :
  parse_request_method Example.BUFSIZ
      (Example.request (lit "GET /cgi.script?q=foo HTTP/1.0" ++ CRLF ++ CRLF))
    = Returns (0%Z,
        set_request_line
          (set_file_in
             (Example.request (lit "GET /cgi.script?q=foo HTTP/1.0" ++ CRLF ++ CRLF))
             CRLF)
          (lit "GET") (lit "/cgi.script") (lit "q=foo")).
Proof.
  apply (parse_request_method_query Example.BUFSIZ _ (lit "GET")
           (lit "/cgi.script") (lit "q=foo") (lit "HTTP/1.0" ++ [CR]) CRLF);
    try reflexivity; try discriminate; compute_done.
Defined.

Lemma parse_request_method_no_query_witness :
  parse_request_method Example.BUFSIZ (Example.request Example.get_index)
    = Returns (0%Z,
        set_request_line (set_file_in (Example.request Example.get_index) CRLF)
                         (lit "GET") (lit "/index.html") []).
Proof.
  apply (parse_request_method_no_query Example.BUFSIZ _ (lit "GET")
           (lit "/index.html") (lit "HTTP/1.0" ++ [CR]) CRLF);
    try reflexivity; try discriminate; compute_done.
Defined.

Lemma parse_request_method_fails_witness :
  (-1)%Z = (-1)%Z <->
  match fgets Example.BUFSIZ (lit "GET" ++ CRLF) with
  | None => True
  | Some (raw, _) => length (tokens [SP; TAB; LF] (c_str raw)) < 2
  end.
Proof.
  apply (parse_request_method_fails Example.BUFSIZ
           (Example.request (lit "GET" ++ CRLF))
           (set_file_in (Example.request (lit "GET" ++ CRLF)) [])).
  vm_compute. reflexivity.
Defined.

Lemma handle_file_request_streams_witness :
  handle_file_request Example.BUFSIZ Example.MimeTypesPath
      Example.DefaultMimeType Example.WHITESPACE Example.fopen_r
      Example.fwrite_ret
      (set_path Example.parsed_index (Some (lit "/srv/www/index.html")))
    = Returns (HTTP_STATUS_OK,
        fputs ((lit "HTTP/1.0 200 OK" ++ CRLF)
               ++ lit "Content-type: "
               ++ determine_mimetype Example.BUFSIZ Example.MimeTypesPath
                    Example.DefaultMimeType Example.WHITESPACE Example.fopen_r
                    (lit "/srv/www/index.html")
               ++ CRLF ++ CRLF ++ lit "<h1>It works</h1>" ++ [LF])
              (set_path Example.parsed_index (Some (lit "/srv/www/index.html")))).
Proof.
  apply (handle_file_request_streams Example.BUFSIZ Example_BUFSIZ_min
           Example.MimeTypesPath
           Example.DefaultMimeType Example.WHITESPACE Example.fopen_r
           Example.fwrite_ret _ (lit "/srv/www/index.html")).
  - reflexivity.
  - reflexivity.
  - intros out chunk. unfold Example.fwrite_ret. lia.
Defined.

Lemma handle_file_request_write_fails_witness :
  handle_file_request Example.BUFSIZ Example.MimeTypesPath
      Example.DefaultMimeType Example.WHITESPACE Example.fopen_r
      (fun _ _ => 0)
      (set_path Example.parsed_index (Some (lit "/srv/www/index.html")))
    = Returns (HTTP_STATUS_INTERNAL_SERVER_ERROR,
        fputs ((lit "HTTP/1.0 200 OK" ++ CRLF ++ lit "Content-type: "
                ++ determine_mimetype Example.BUFSIZ Example.MimeTypesPath
                     Example.DefaultMimeType Example.WHITESPACE
                     Example.fopen_r (lit "/srv/www/index.html")
                ++ CRLF ++ CRLF)
               ++ lit "HTTP/1.0 500 Internal Server Error" ++ [LF]
               ++ lit "Content-type: text/html" ++ CRLF ++ CRLF
               ++ lit "<!DOCTYPE html>" ++ [LF]
               ++ lit "<html>" ++ [LF]
               ++ lit "  <body><h1>500 Internal Server Error</h1></body>"
               ++ [LF]
               ++ lit "</html>" ++ [LF])
              (set_path Example.parsed_index (Some (lit "/srv/www/index.html")))).
Proof.
  apply (handle_file_request_write_fails Example.BUFSIZ Example_BUFSIZ_min
           Example.MimeTypesPath
           Example.DefaultMimeType Example.WHITESPACE Example.fopen_r
           (fun _ _ => 0) _ (lit "/srv/www/index.html")
           (lit "<h1>It works</h1>" ++ [LF])).
  - reflexivity.
  - reflexivity.
  - discriminate.
  - reflexivity.
Defined.

Lemma export_environment_base_witness :
  exists e',
    export_environment Example.Port Example.root Example.parsed_report ∅
      = Returns e' /\
    e' !! "QUERY_STRING" = Some (lit "x=1") /\
    e' !! "SCRIPT_FILENAME" = Some (lit "/srv/www/report.cgi").
Proof.
  destruct (export_environment_base Example.Port Example.root
              Example.parsed_report ∅ (lit "GET") (lit "/report.cgi")
              (lit "/srv/www/report.cgi") (lit "x=1")
              eq_refl eq_refl eq_refl eq_refl)
    as (e' & He & _ & Hq & _ & _ & _ & _ & Hs & _).
  exists e'. split; [exact He|]. split; [exact Hq|exact Hs].
Defined.

Lemma handle_request_bad_request_witness :
  Example.response (Example.run Example.get_nothing)
    = Some (HTTP_STATUS_BAD_REQUEST,
            file_out (handle_error Example.BUFSIZ Example.fopen_r
                        Example.fwrite_ret
                        (set_file_in (Example.request Example.get_nothing) [])
                        HTTP_STATUS_BAD_REQUEST).2).
Proof.
  destruct (handle_request_bad_request Example.BUFSIZ Example.Port
              Example.MimeTypesPath Example.DefaultMimeType Example.root
              Example.WHITESPACE Example.chomp Example.realpath Example.stat
              Example.access_X_OK Example.fopen_r Example.opendir
              Example.readdir_all Example.popen_r Example.fwrite_ret
              (Example.request Example.get_nothing)
              (set_file_in (Example.request Example.get_nothing) []) ∅
              ltac:(vm_compute; reflexivity)) as [Hrun Hst].
  unfold Example.run. rewrite Hrun. unfold Example.response, with_env.
  by rewrite Hst.
Defined.

(** ** The four scenarios of the specification in the example world *)

(** GET /index.html is answered with the file and its table content
    type; a URI that leaves the root with NOT_FOUND; a script with its
    output, run with the query string in QUERY_STRING; a request line
    without URI with BAD_REQUEST. *)
Lemma end_to_end_scenarios :
  Example.response (Example.run Example.get_index)
    = Some (HTTP_STATUS_OK,
            lit "HTTP/1.0 200 OK" ++ CRLF ++ lit "Content-type: text/html"
            ++ CRLF ++ CRLF ++ lit "<h1>It works</h1>" ++ [LF]) /\
  fst <$> Example.response (Example.run Example.get_passwd)
    = Some HTTP_STATUS_NOT_FOUND /\
  Example.response (Example.run Example.get_report)
    = Some (HTTP_STATUS_OK,
            lit "Content-Type: text/plain" ++ [LF] ++ [LF] ++ lit "q=x=1" ++ [LF]) /\
  fst <$> Example.response (Example.run Example.get_nothing)
    = Some HTTP_STATUS_BAD_REQUEST.
Proof. vm_compute. done. Qed.

(** ** utils.c: skip_whitespace and skip_nonwhitespace *)

Lemma skip_whitespace_fixed (t : cstring) :
  (forall c t', t = c :: t' -> isspace c = false) -> skip_whitespace t = t.
Proof.
  intros H. unfold skip_whitespace. destruct t as [|c t']; [done|].
  cbn [span]. by rewrite (H c t' eq_refl).
Qed.

(** X8 (utils.c, skip_whitespace): the function returns the string
    without its leading whitespace: what it skips is whitespace only,
    what it returns is empty or starts with another byte, a string that
    starts with no whitespace is returned as it is, and skipping twice
    is skipping once. *)
Theorem skip_whitespace_leading (s : cstring) :
  (exists ws, s = ws ++ skip_whitespace s /\
              Forall (fun c => isspace c = true) ws) /\
  (forall c s', skip_whitespace s = c :: s' -> isspace c = false) /\
  (forall c s', s = c :: s' -> isspace c = false -> skip_whitespace s = s) /\
  skip_whitespace (skip_whitespace s) = skip_whitespace s.
Proof.
  destruct (skip_whitespace_spec s) as (ws & Hs & Hws & Hhd).
  split; [by exists ws|]. split; [done|]. split.
  - intros c s' -> Hc. apply skip_whitespace_fixed. by intros ? ? [= <- <-].
  - by apply skip_whitespace_fixed.
Qed.

Lemma skip_nonwhitespace_loop_Returns (cells : list ascii) (s p : nat) :
  skip_nonwhitespace_loop cells s = Returns p <->
  exists k c, p = s + k /\ cells !! k = Some c /\ isspace c = true /\
              Forall (fun c => isspace c = false) (take k cells).
Proof.
  revert s. induction cells as [|d cells IH]; intros s; cbn [skip_nonwhitespace_loop].
  - split; [done|]. by intros (k & c & _ & ? & _).
  - destruct (isspace d) eqn:Hd.
    + split.
      * intros [= <-]. exists 0, d. rewrite Nat.add_0_r. by repeat split.
      * intros (k & c & -> & Hk & Hc & Hpre). destruct k as [|k].
        -- by rewrite Nat.add_0_r.
        -- cbn in Hpre. apply Forall_cons in Hpre as [Hd' _]. congruence.
    + rewrite IH. split.
      * intros (k & c & -> & Hk & Hc & Hpre). exists (S k), c.
        repeat split; [lia|done|done|]. cbn. by constructor.
      * intros (k & c & -> & Hk & Hc & Hpre). destruct k as [|k].
        -- cbn in Hk. congruence.
        -- exists k, c. cbn in Hk, Hpre. apply Forall_cons in Hpre as [_ Hpre].
           repeat split; [lia|done|done|done].
Qed.

Lemma skip_nonwhitespace_loop_Undefined (cells : list ascii) (s : nat) :
  skip_nonwhitespace_loop cells s = Undefined <->
  Forall (fun c => isspace c = false) cells.
Proof.
  revert s. induction cells as [|d cells IH]; intros s; cbn [skip_nonwhitespace_loop].
  - split; [by constructor|done].
  - destruct (isspace d) eqn:Hd.
    + split; [done|]. intros H. apply Forall_cons in H as [? _]. congruence.
    + rewrite IH. split; [by constructor|]. by intros [_ ?]%Forall_cons.
Qed.

(** X9 (utils.c, skip_nonwhitespace): the function returns the first
    offset at or after s that holds a whitespace byte.  It does not stop
    at the terminating NUL: when no whitespace byte follows s in the
    array, the loop reads behind the end of the array, as it does on
    every string without whitespace held in an array of just its size. *)
Theorem skip_nonwhitespace_first_space (b : buffer) (s : nat) :
  (forall p, skip_nonwhitespace b s = Returns p <->
     s <= p /\ (exists c, b !! p = Some c /\ isspace c = true) /\
     (forall i c, s <= i < p -> b !! i = Some c -> isspace c = false)) /\
  (skip_nonwhitespace b s = Undefined <->
     Forall (fun c => isspace c = false) (drop s b)) /\
  (forall str, Forall (fun c => isspace c = false) str ->
     skip_nonwhitespace (str ++ [NUL]) 0 = Undefined).
Proof.
  unfold skip_nonwhitespace. split; [|split].
  - intros p. rewrite skip_nonwhitespace_loop_Returns. split.
    + intros (k & c & -> & Hk & Hc & Hpre). rewrite lookup_drop in Hk.
      split; [lia|]. split; [by exists c|].
      intros i c' Hi Hi'. rewrite Forall_lookup in Hpre.
      apply (Hpre (i - s) c'). rewrite lookup_take_lt by lia.
      rewrite lookup_drop. by replace (s + (i - s)) with i by lia.
    + intros (Hsp & (c & Hp & Hc) & Hpre). exists (p - s), c.
      rewrite lookup_drop. replace (s + (p - s)) with p by lia.
      repeat split; try done. apply Forall_lookup. intros i c' Hi.
      apply lookup_take_Some in Hi as [Hi Hlt]. rewrite lookup_drop in Hi.
      apply (Hpre (s + i) c'); [lia|done].
  - apply skip_nonwhitespace_loop_Undefined.
  - intros str Hstr. apply skip_nonwhitespace_loop_Undefined. cbn [drop].
    apply Forall_app. split; [done|]. by repeat constructor.
Qed.

(** ** request.c: the query of a request line *)


Lemma span_app_all {A} (p : A -> bool) (l1 l2 : list A) :
  Forall (fun c => p c = true) l1 ->
  span p (l1 ++ l2) = (l1 ++ (span p l2).1, (span p l2).2).
Proof.
  induction 1 as [|c l1 Hc _ IH]; [cbn [app]; by destruct (span p l2)|].
  cbn [app span]. by rewrite Hc, IH.
Qed.

(** strtok passes over the delimiters [ds] that stand at the pointer. *)
Lemma strtok_skip (pre ds l delim : list ascii) (save : nat) :
  Forall (fun c => c ∈ delim /\ c <> NUL) ds ->
  strtok (pre ++ ds ++ l) save (Some (length pre)) delim
    = strtok (pre ++ ds ++ l) save (Some (length pre + length ds)) delim.
Proof.
  intros Hds. destruct (decide (ds = [])) as [->|Hne]; [by rewrite Nat.add_0_r|].
  assert (NUL ∉ ds) as Hnul.
  { intros Hin. rewrite Forall_forall in Hds. by destruct (Hds _ Hin). }
  assert (Forall (fun c => mem_of delim c = true) ds) as Hmem.
  { eapply Forall_impl; [exact Hds|]. intros c [Hc _]. unfold mem_of.
    by apply bool_decide_eq_true_2. }
  set (b := pre ++ ds ++ l).
  assert (strspn b (length pre) delim
          = length ds + strspn b (length pre + length ds) delim) as Hspn.
  { unfold strspn, b. rewrite str_at_app, c_str_app by done.
    rewrite span_app_all by done. cbn [fst]. rewrite length_app. f_equal.
    rewrite app_assoc, <- length_app. by rewrite str_at_app. }
  assert (char_at b (length pre + length ds) = hd NUL l) as Hat.
  { unfold b. rewrite app_assoc, <- length_app. apply char_at_app. }
  assert (is_nul (char_at b (length pre)) = false) as Hfirst.
  { unfold b. rewrite char_at_app. destruct ds as [|d ds]; [done|]. cbn [app hd].
    apply bool_decide_eq_false_2. intros ->. apply Hnul. left. }
  unfold strtok. simpl default. fold b. rewrite Hfirst, Hspn.
  destruct (is_nul (char_at b (length pre + length ds))) eqn:E.
  - assert (strspn b (length pre + length ds) delim = 0) as ->.
    { unfold strspn, b. rewrite app_assoc, <- length_app, str_at_app.
      rewrite Hat in E. destruct l as [|c l]; [done|].
      cbn [hd] in E. apply bool_decide_eq_true_1 in E as ->. by rewrite c_str_nul. }
    by rewrite !Nat.add_0_r, E.
  - by rewrite Nat.add_assoc.
Qed.

Lemma str_at_token (b pre tok post : list ascii) (p : nat) :
  b = pre ++ tok ++ NUL :: post -> p = length pre -> NUL ∉ tok ->
  str_at b p = tok.
Proof.
  intros -> -> Htok. by rewrite str_at_app, c_str_app, c_str_nul, app_nil_r.
Qed.

Lemma record_request_line_no_query (r : Request) (m u : option cstring) :
  record_request_line r m u None = Undefined.
Proof. by destruct m, u. Qed.

Section QueryProofs.
Variable BUFSIZ : nat.

(** X10 (request.c, parse_request_method): in a request line
    METHOD URI?TEXT HTTP/V that fits the buffer, with a non-empty URI
    before the question mark, the query is the first piece of TEXT
    between fragment signs: leading '#' are passed over and the query
    ends before the next '#'.  When TEXT is empty or holds nothing but
    '#', strtok finds no query and the NULL pointer goes to strdup. *)
Theorem parse_request_method_fragment (r : Request)
  (m u hs q frag v rest : list ascii) :
  file_in r = m ++ [SP] ++ u ++ ["?"%char] ++ (hs ++ q ++ frag) ++ [SP] ++ v
              ++ [LF] ++ rest ->
  length (m ++ [SP] ++ u ++ ["?"%char] ++ (hs ++ q ++ frag) ++ [SP] ++ v ++ [LF])
    < BUFSIZ ->
  m <> [] -> u <> [] ->
  Forall (fun c => c ∉ [NUL; SP; TAB; LF]) m ->
  Forall (fun c => c ∉ [NUL; SP; TAB; LF; "?"%char]) u ->
  Forall (fun c => c = "#"%char) hs ->
  Forall (fun c => c ∉ [NUL; SP; TAB; LF; "#"%char]) q ->
  (frag = [] \/
   q <> [] /\ exists f, frag = "#"%char :: f /\ Forall (fun c => c ∉ [NUL; SP; TAB; LF]) f) ->
  LF ∉ v ->
  parse_request_method BUFSIZ r =
    match q with
    | [] => Undefined
    | _ => Returns (0%Z, set_request_line (set_file_in r rest) m u q)
    end.
Proof.
  intros Hin Hlen Hm Hu Fm Fu Fhs Fq Hfrag Hv.
  assert (Forall (fun c => c ∉ [NUL; SP; TAB; LF]) frag) as Ffrag.
  { destruct Hfrag as [->|(_ & f & -> & Ff)]; [done|].
    constructor; [compute_done|done]. }
  assert (Forall (fun c => c ∉ [NUL; SP; TAB; LF]) hs) as Fhs'.
  { eapply Forall_impl; [exact Fhs|]. intros c ->. compute_done. }
  assert (Forall (fun c => c ∉ [NUL; SP; TAB; LF]) q) as Fq'.
  { eapply Forall_not_in_weaken; [|exact Fq]. sub_list. }
  set (t := hs ++ q ++ frag) in *.
  assert (Forall (fun c => c ∉ [NUL; SP; TAB; LF]) t) as Ft.
  { unfold t. rewrite !Forall_app. done. }
  assert (Forall (fun c => c ∉ NUL :: [SP; TAB; LF]) (u ++ "?"%char :: t)) as Fut.
  { apply Forall_app. split.
    - eapply Forall_not_in_weaken; [|exact Fu]. sub_list.
    - constructor; [compute_done|done]. }
  unfold parse_request_method. rewrite Hin.
  replace (m ++ [SP] ++ u ++ ["?"%char] ++ t ++ [SP] ++ v ++ [LF] ++ rest)
    with ((m ++ [SP] ++ u ++ ["?"%char] ++ t ++ [SP] ++ v ++ [LF]) ++ rest)
    by assoc_eq.
  rewrite fgets_input_line; [|split|done].
  2:{ by destruct m. }
  2:{ left. exists (m ++ [SP] ++ u ++ ["?"%char] ++ t ++ [SP] ++ v).
      split; [assoc_eq|].
      rewrite !elem_of_app, !list_elem_of_singleton.
      pose proof (Forall_not_in_elem _ _ LF Fm ltac:(compute_done)).
      pose proof (Forall_not_in_elem _ _ LF Fu ltac:(compute_done)).
      pose proof (Forall_not_in_elem _ _ LF Ft ltac:(compute_done)).
      intros [?|[?|[?|[?|[?|[?|?]]]]]]; done. }
  (* the method *)
  replace ((m ++ [SP] ++ u ++ ["?"%char] ++ t ++ [SP] ++ v ++ [LF]) ++ [NUL])
    with ([] ++ m ++ SP :: (u ++ "?"%char :: t) ++ SP :: v ++ [LF; NUL])
    by assoc_eq.
  rewrite (strtok_token [] m _ [SP; TAB; LF] SP 0 0);
    [|done|done|done|compute_done|compute_done].
  (* the URI with the text after it *)
  rewrite strtok_buffer_next. simpl app at 1.
  replace (m ++ NUL :: (u ++ "?"%char :: t) ++ SP :: v ++ [LF; NUL])
    with ((m ++ [NUL]) ++ (u ++ "?"%char :: t) ++ SP :: v ++ [LF; NUL])
    by assoc_eq.
  rewrite (strtok_token (m ++ [NUL]) (u ++ "?"%char :: t) _ [SP; TAB; LF] SP);
    [|rewrite length_app; simpl; lia|by destruct u|done|compute_done
     |compute_done].
  (* the question mark *)
  assert (NUL ∉ u) as Hnu by (eapply Forall_not_in_elem; [exact Fu|compute_done]).
  assert (NUL ∉ t) as Hnt by (eapply Forall_not_in_elem; [exact Ft|compute_done]).
  assert (NUL ∉ q) as Hnq by (eapply Forall_not_in_elem; [exact Fq|compute_done]).
  assert ("?"%char ∉ u) as Hqu
    by (eapply Forall_not_in_elem; [exact Fu|compute_done]).
  replace (0 + length m + 1) with (length (m ++ [NUL]))
    by (rewrite length_app; simpl; lia).
  rewrite str_at_app.
  rewrite c_str_app by (rewrite elem_of_app, elem_of_cons; intros [?|[?|?]]; done).
  rewrite c_str_nul, app_nil_r.
  assert (strchr (u ++ "?"%char :: t) "?"%char = Some (length u)) as ->.
  { clear -Hqu. induction u as [|c u IH]; [reflexivity|].
    apply not_elem_of_cons in Hqu as [Hc Hqu]. cbn [strchr app length].
    rewrite bool_decide_eq_false_2 by done. by rewrite IH. }
  (* the leading fragment signs *)
  unfold t.
  replace ((m ++ [NUL]) ++ (u ++ "?"%char :: hs ++ q ++ frag) ++ NUL :: v ++ [LF; NUL])
    with ((m ++ [NUL] ++ u ++ ["?"%char]) ++ hs ++ (q ++ frag ++ NUL :: v ++ [LF; NUL]))
    by assoc_eq.
  replace (length (m ++ [NUL]) + length u + 1)
    with (length (m ++ [NUL] ++ u ++ ["?"%char]))
    by (rewrite !length_app; simpl; lia).
  rewrite strtok_skip.
  2:{ eapply Forall_impl; [exact Fhs|]. intros c ->. split; compute_done. }
  rewrite <- (length_app (m ++ [NUL] ++ u ++ ["?"%char]) hs).
  rewrite (app_assoc (m ++ [NUL] ++ u ++ ["?"%char]) hs).
  set (pre := (m ++ [NUL] ++ u ++ ["?"%char]) ++ hs).
  destruct q as [|c q].
  - (* no query: strtok stands at the end of the string *)
    destruct Hfrag as [->|[? _]]; [|done]. cbn [app].
    unfold strtok at 1. simpl default. rewrite char_at_app. cbn [hd].
    change (is_nul NUL) with true. cbv iota.
    destruct (strtok _ _ _ _) as [[uri' b4] save4].
    apply record_request_line_no_query.
  - (* the query, and the URI after it *)
    assert (NUL ∉ m) as Hnm by (eapply Forall_not_in_elem; [exact Fm|compute_done]).
    assert (Forall (fun c => c ∉ NUL :: ["#"%char; SP; LF; TAB]) (c :: q)) as Fq2.
    { eapply Forall_not_in_weaken; [|exact Fq]. sub_list. }
    assert (Forall (fun c => c ∉ NUL :: ["?"%char]) u) as Fu2.
    { eapply Forall_not_in_weaken; [|exact Fu]. sub_list. }
    assert (length pre = length ((m ++ [NUL] ++ u ++ [NUL]) ++ hs)) as Hpre.
    { unfold pre. rewrite !length_app. simpl. lia. }
    destruct Hfrag as [->|(_ & f & -> & Ff)].
    + change ([] ++ NUL :: v ++ [LF; NUL]) with (NUL :: v ++ [LF; NUL]).
      rewrite (strtok_last_token pre (c :: q) _ ["#"%char; SP; LF; TAB]);
        [|done|done|done].
      unfold pre.
      replace (((m ++ [NUL] ++ u ++ ["?"%char]) ++ hs) ++ (c :: q)
               ++ NUL :: v ++ [LF; NUL])
        with ((m ++ [NUL]) ++ u
              ++ "?"%char :: (hs ++ (c :: q) ++ NUL :: v ++ [LF; NUL]))
        by assoc_eq.
      rewrite (strtok_token (m ++ [NUL]) u _ ["?"%char] "?"%char);
        [|done|done|done|compute_done|compute_done].
      simpl fmap. fold pre.
      rewrite (str_at_token _ [] m (u ++ NUL :: hs ++ (c :: q) ++ NUL :: v ++ [LF; NUL]) 0);
        [|assoc_eq|done|done].
      rewrite (str_at_token _ (m ++ [NUL]) u (hs ++ (c :: q) ++ NUL :: v ++ [LF; NUL]));
        [|assoc_eq|done|done].
      rewrite (str_at_token _ ((m ++ [NUL] ++ u ++ [NUL]) ++ hs) (c :: q)
                            (v ++ [LF; NUL]));
        [|assoc_eq|done|done].
      reflexivity.
    + replace (pre ++ (c :: q) ++ ("#"%char :: f) ++ NUL :: v ++ [LF; NUL])
        with (pre ++ (c :: q) ++ "#"%char :: (f ++ NUL :: v ++ [LF; NUL]))
        by assoc_eq.
      rewrite (strtok_token pre (c :: q) _ ["#"%char; SP; LF; TAB] "#"%char);
        [|done|done|done|compute_done|compute_done].
      unfold pre.
      replace (((m ++ [NUL] ++ u ++ ["?"%char]) ++ hs) ++ (c :: q)
               ++ NUL :: f ++ NUL :: v ++ [LF; NUL])
        with ((m ++ [NUL]) ++ u
              ++ "?"%char :: (hs ++ (c :: q) ++ NUL :: f ++ NUL :: v ++ [LF; NUL]))
        by assoc_eq.
      rewrite (strtok_token (m ++ [NUL]) u _ ["?"%char] "?"%char);
        [|done|done|done|compute_done|compute_done].
      simpl fmap. fold pre.
      rewrite (str_at_token _ [] m
                 (u ++ NUL :: hs ++ (c :: q) ++ NUL :: f ++ NUL :: v ++ [LF; NUL]) 0);
        [|assoc_eq|done|done].
      rewrite (str_at_token _ (m ++ [NUL]) u
                 (hs ++ (c :: q) ++ NUL :: f ++ NUL :: v ++ [LF; NUL]));
        [|assoc_eq|done|done].
      rewrite (str_at_token _ ((m ++ [NUL] ++ u ++ [NUL]) ++ hs) (c :: q)
                            (f ++ NUL :: v ++ [LF; NUL]));
        [|assoc_eq|done|done].
      reflexivity.
Qed.

End QueryProofs.

Lemma parse_request_method_fragment_witness :
  parse_request_method Example.BUFSIZ
      (Example.request (lit "GET /a?#x=1#top HTTP/1.0" ++ CRLF ++ CRLF))
    = Returns (0%Z,
        set_request_line
          (set_file_in
             (Example.request (lit "GET /a?#x=1#top HTTP/1.0" ++ CRLF ++ CRLF))
             CRLF)
          (lit "GET") (lit "/a") (lit "x=1")).
Proof.
  apply (parse_request_method_fragment Example.BUFSIZ _ (lit "GET") (lit "/a")
           (lit "#") (lit "x=1") (lit "#top") (lit "HTTP/1.0" ++ [CR]) CRLF);
    try reflexivity; try discriminate; try compute_done.
  right. split; [discriminate|]. exists (lit "top").
  split; [reflexivity|compute_done].
Defined.

(** ** handler.c: where handle_request can leave defined behaviour *)

Section SafetyProofs.
Variable BUFSIZ : nat.
Variables Port MimeTypesPath DefaultMimeType RootPath WHITESPACE : cstring.
Variable chomp : cstring -> cstring.
Variable realpath : cstring -> option cstring.
Variable stat : cstring -> option Z.
Variable access_X_OK : cstring -> bool.
Variable fopen_r : cstring -> option stream.
Variable opendir : cstring -> bool.
Variable readdir_all : cstring -> option (list cstring).
Variable popen_r : cstring -> environ -> option stream.
Variable fwrite_ret : list ascii -> list ascii -> nat.

Local Abbreviation handle :=
  (handle_request BUFSIZ Port MimeTypesPath DefaultMimeType RootPath WHITESPACE
                  chomp realpath stat access_X_OK fopen_r opendir readdir_all
                  popen_r fwrite_ret).
Local Abbreviation handle_error' := (handle_error BUFSIZ fopen_r fwrite_ret).
Local Abbreviation resolve := (determine_request_path BUFSIZ RootPath realpath).
Local Abbreviation browse :=
  (handle_browse_request BUFSIZ MimeTypesPath DefaultMimeType WHITESPACE
                         fopen_r opendir readdir_all fwrite_ret).
Local Abbreviation handle_cgi :=
  (handle_cgi_request BUFSIZ Port RootPath fopen_r popen_r fwrite_ret).
Local Abbreviation handle_file :=
  (handle_file_request BUFSIZ MimeTypesPath DefaultMimeType WHITESPACE fopen_r
                       fwrite_ret).

Lemma record_request_line_fields (r r1 : Request) (m u q : option cstring) (rc : Z) :
  record_request_line r m u q = Returns (rc, r1) ->
  method r1 = m /\ uri r1 = u /\ query r1 = q /\
  (is_Some m /\ is_Some u /\ is_Some q) /\
  path r1 = path r /\ headers r1 = headers r /\ file_out r1 = file_out r /\
  file_in r1 = file_in r /\ host r1 = host r /\ port r1 = port r.
Proof.
  unfold record_request_line, strdup, nonnull.
  destruct m, u, q; simpl; try done. intros [= <- <-]. simpl. eauto 12.
Qed.





(** The variables the loop over the headers sets are not among the
    eight set before it. *)
Lemma export_headers_keeps (hs : list header) (e : environ) (k : string) (v : cstring) :
  k ∉ ["HTTP_HOST"; "HTTP_USER_AGENT"; "HTTP_ACCEPT"; "HTTP_ACCEPT_ENCODING";
       "HTTP_CONNECTION"]%string ->
  e !! k = Some v -> export_headers hs e !! k = Some v.
Proof.
  intros Hk He. rewrite export_headers_lookup.
  destruct (last _) as [h|] eqn:El; [|done].
  apply last_Some_elem_of, list_elem_of_filter in El as [El _].
  apply exported_as_HTTP in El. done.
Qed.






End SafetyProofs.


(** ** request.c and handler.c: the order of the headers *)

Lemma last_filter_rev {A} (P : A -> Prop) `{!forall x, Decision (P x)} (l : list A) :
  last (filter P (rev l)) = head (filter P l).
Proof.
  induction l as [|x l IH]; [done|].
  cbn [rev]. rewrite filter_app, (filter_cons _ x l), (filter_cons _ x []), filter_nil.
  destruct (decide (P x)).
  - by rewrite last_snoc.
  - by rewrite app_nil_r.
Qed.

Section HeaderOrderProofs.
Variable BUFSIZ : nat.
Hypothesis BUFSIZ_min : 256 <= BUFSIZ.
Variable chomp : cstring -> cstring.

(** X12 (request.c, parse_request_headers; handler.c, the header loop
    of handle_cgi_request): when every line of the header block has a
    colon, the headers are stored newest first, the list being the
    reverse of the block; the loop over the list then leaves in each
    variable the value of the header that came first in the request, so
    that of a header sent twice the first one counts. *)
Theorem headers_first_wins (r : Request) (hs : list header) (e : environ) :
  mapM split_header (chomp <$> header_block BUFSIZ (file_in r)) = Some hs ->
  let res := parse_request_headers BUFSIZ chomp r in
  res.1 = 0%Z /\
  headers res.2 = rev hs /\
  (forall k, export_headers (headers res.2) e !! k =
     match head (filter (fun h => exported_as (name h) = Some k) hs) with
     | Some h => Some (value h)
     | None => e !! k
     end).
Proof.
  intros Hhs res.
  destruct (parse_request_headers_spec BUFSIZ BUFSIZ_min chomp r) as [Hrc Hh].
  fold res in Hrc, Hh. rewrite Hhs in Hrc, Hh.
  split; [done|]. split; [done|].
  intros k. rewrite export_headers_lookup, Hh. by rewrite last_filter_rev.
Qed.

End HeaderOrderProofs.

Lemma headers_first_wins_witness :
  let r := Example.request (lit "Host: first.example" ++ [LF]
                            ++ lit "Host: second.example" ++ [LF] ++ [LF]) in
  export_headers (headers (parse_request_headers Example.BUFSIZ Example.chomp r).2) ∅
    !! "HTTP_HOST" = Some (lit "first.example").
Proof.
  intros r.
  destruct (headers_first_wins Example.BUFSIZ Example_BUFSIZ_min Example.chomp r
              [Header (lit "Host") (lit "first.example");
               Header (lit "Host") (lit "second.example")] ∅
              ltac:(vm_compute; reflexivity)) as (_ & _ & H).
  exact (H "HTTP_HOST"%string).
Defined.

(** ** request.c: headers sent and headers parsed *)

Lemma strchr_first (s t : cstring) (c : ascii) :
  c ∉ s -> strchr (s ++ c :: t) c = Some (length s).
Proof.
  induction s as [|d s IH]; intros Hc.
  - cbn. by rewrite bool_decide_eq_true_2.
  - apply not_elem_of_cons in Hc as [Hd Hc]. cbn [app strchr length].
    rewrite bool_decide_eq_false_2 by done. by rewrite IH.
Qed.

Lemma skip_whitespace_app (sep v : cstring) :
  Forall (fun c => isspace c = true) sep ->
  (forall c v', v = c :: v' -> isspace c = false) ->
  skip_whitespace (sep ++ v) = v.
Proof.
  intros Hsep Hv. unfold skip_whitespace. rewrite span_app_all by done.
  cbn [snd]. destruct v as [|c v']; [done|]. cbn [span].
  by rewrite (Hv c v' eq_refl).
Qed.

Section RoundTripProofs.
Variable BUFSIZ : nat.
Hypothesis BUFSIZ_min : 256 <= BUFSIZ.
Variable chomp : cstring -> cstring.

Lemma parse_headers_loop_sent (sep : cstring) (hs : list header)
  (term rest : list ascii) (fuel : nat) (curr : list header) :
  (forall s, chomp (s ++ [LF]) = s) ->
  Forall (fun c => isspace c = true /\ c <> LF /\ c <> NUL) sep ->
  Forall (sendable BUFSIZ sep) hs ->
  input_line term rest -> length term <= 2 ->
  length hs < fuel ->
  parse_headers_loop BUFSIZ chomp fuel
      (concat (header_line sep <$> hs) ++ term ++ rest) curr
    = (Some (rev hs ++ curr), rest).
Proof.
  intros Hchomp Hsep Hhs Hterm Hlen.
  assert (Forall (fun c => isspace c = true) sep) as Hsp
    by (eapply Forall_impl; [exact Hsep|]; by intros c [? _]).
  assert ((LF ∉ sep) /\ (NUL ∉ sep)) as [Hlf Hnul].
  { split; intros Hin; rewrite Forall_forall in Hsep;
      destruct (Hsep _ Hin) as (_ & ? & ?); done. }
  revert fuel curr. induction Hhs as [|h hs Hh _ IH]; intros fuel curr Hfuel.
  - destruct fuel as [|fuel]; [lia|]. cbn [fmap list_fmap concat app rev].
    by apply (parse_headers_short_line BUFSIZ BUFSIZ_min chomp term rest).
  - destruct fuel as [|fuel]; [cbn in Hfuel; lia|].
    destruct Hh as (Hcolon & Hnn & Hln & Hnv & Hlv & Hstart & Hlong & Hfit).
    cbn [fmap list_fmap concat rev]. rewrite <- !app_assoc.
    cbn [parse_headers_loop].
    set (body := name h ++ ":"%char :: sep ++ value h).
    assert (header_line sep h = body ++ [LF]) as Hline
      by (unfold header_line, body; assoc_eq).
    assert (LF ∉ body) as Hlb.
    { unfold body. rewrite elem_of_app, elem_of_cons, elem_of_app.
      intros [?|[?|[?|?]]]; done. }
    assert (NUL ∉ body ++ [LF]) as Hnb.
    { unfold body. rewrite !elem_of_app, elem_of_cons, elem_of_app, list_elem_of_singleton.
      intros [[?|[?|[?|?]]]|?]; done. }
    rewrite Hline in *.
    rewrite fgets_input_line; [|by apply input_line_newline|done].
    rewrite (c_str_no_nul _ Hnb).
    assert ((2 <? strlen (body ++ [LF])) = true) as ->.
    { apply Nat.ltb_lt. by unfold strlen. }
    rewrite Hchomp.
    assert (strchr body ":"%char = Some (length (name h))) as ->
      by (unfold body; by apply strchr_first).
    assert (take (length (name h)) body = name h) as ->
      by (unfold body; apply take_app_length).
    assert (drop (length (name h) + 1) body = sep ++ value h) as ->.
    { unfold body. rewrite drop_app_add. done. }
    rewrite skip_whitespace_app by done.
    rewrite IH by (cbn in Hfuel; lia).
    by destruct h.
Qed.

(** X24 (request.c, parse_request_headers): headers that are sent one a
    line, as name, colon, whitespace and value, and closed by a line of
    at most two bytes, are read back as they were sent, whatever
    colons the values hold, in reverse order; the stream is left at what
    follows the closing line.  This holds when chomp removes the
    newline of a line, when no name holds a colon and no value starts
    with whitespace, and when every line fits the buffer. *)
Theorem parse_request_headers_round_trip (r : Request) (sep : cstring)
  (hs : list header) (term rest : list ascii) :
  (forall s, chomp (s ++ [LF]) = s) ->
  Forall (fun c => isspace c = true /\ c <> LF /\ c <> NUL) sep ->
  Forall (sendable BUFSIZ sep) hs ->
  input_line term rest -> length term <= 2 ->
  file_in r = concat (header_line sep <$> hs) ++ term ++ rest ->
  parse_request_headers BUFSIZ chomp r
    = (0%Z, set_headers (set_file_in r rest) (rev hs)).
Proof.
  intros Hchomp Hsep Hhs Hterm Hlen Hin. unfold parse_request_headers.
  rewrite Hin, (parse_headers_loop_sent sep hs term rest _ []); try done.
  - by rewrite app_nil_r.
  - destruct Hterm as [Hne _]. rewrite !length_app.
    assert (length hs <= length (concat (header_line sep <$> hs))) as Hl.
    { clear -Hhs. induction Hhs as [|h hs Hh _ IH]; [done|].
      destruct Hh as (_ & _ & _ & _ & _ & _ & Hlong & _).
      cbn [fmap list_fmap concat length]. rewrite length_app. lia. }
    destruct term; [done|]. cbn [length]. lia.
Qed.

End RoundTripProofs.

Lemma parse_request_headers_round_trip_witness :
  parse_request_headers Example.BUFSIZ Example.chomp
      (Example.request (lit "Host: localhost:8888" ++ [LF]
                        ++ lit "Accept: text/html" ++ [LF]
                        ++ CRLF ++ lit "body"))
    = (0%Z,
       set_headers
         (set_file_in
            (Example.request (lit "Host: localhost:8888" ++ [LF]
                              ++ lit "Accept: text/html" ++ [LF]
                              ++ CRLF ++ lit "body"))
            (lit "body"))
         [Header (lit "Accept") (lit "text/html");
          Header (lit "Host") (lit "localhost:8888")]).
Proof.
  apply (parse_request_headers_round_trip Example.BUFSIZ Example_BUFSIZ_min
           Example.chomp _ [SP]
           [Header (lit "Host") (lit "localhost:8888");
            Header (lit "Accept") (lit "text/html")] CRLF (lit "body")).
  - intros s. unfold Example.chomp. rewrite length_app. cbn [length].
    replace (length s + 1 - 1) with (length s) by lia. apply take_app_length.
  - apply Forall_cons. split; [|done]. by repeat split.
  - apply Forall_cons. split; [|apply Forall_cons; split; [|done]];
      (split; [compute_done|]); (split; [compute_done|]); (split; [compute_done|]);
      (split; [compute_done|]); (split; [compute_done|]);
      (split; [by intros c v [= <- _]|]);
      (split; apply Nat.ltb_lt; vm_compute; reflexivity).
  - split; [done|]. left. exists [CR]. split; [done|compute_done].
  - cbn. lia.
  - reflexivity.
Defined.

(** ** handler.c: what the handlers send *)

Lemma prefix_of_fputs (s : list ascii) (r : Request) (o : list ascii) :
  o `prefix_of` file_out r -> o `prefix_of` file_out (fputs s r).
Proof.
  intros H. unfold fputs, set_file_out. cbn [file_out]. by apply prefix_app_r.
Qed.

Lemma prefix_of_fputs_start (s t : list ascii) (r : Request) :
  (file_out r ++ s) `prefix_of` file_out (fputs (s ++ t) r).
Proof.
  unfold fputs, set_file_out. cbn [file_out]. rewrite app_assoc.
  by apply prefix_app_r.
Qed.

Lemma Returns_pair_inv {A B} (x : A * B) (a : A) (b : B) :
  Returns x = Returns (a, b) -> x.1 = a /\ x.2 = b.
Proof. intros H. assert (x = (a, b)) as -> by congruence. done. Qed.

Lemma with_env_inv {A B} (e e' : environ) (x : A * B) (a : A) (b : B) :
  Returns (with_env e x) = Returns (a, b, e') -> x.1 = a /\ x.2 = b /\ e = e'.
Proof. unfold with_env. intros H. by assert ((x.1, x.2, e) = (a, b, e')) as [= -> -> ->] by congruence. Qed.

Lemma lift_env_inv {A B} (e e' : environ) (o : outcome (A * B)) (a : A) (b : B) :
  lift_env e o = Returns (a, b, e') -> o = Returns (a, b) /\ e = e'.
Proof.
  destruct o as [[a0 b0]|]; [|done]. unfold lift_env, with_env. cbn [obind fst snd].
  intros H. by assert ((a0, b0, e) = (a, b, e')) as [= -> -> ->] by congruence.
Qed.

Section ResponseProofs.
Variable BUFSIZ : nat.
Hypothesis BUFSIZ_min : 256 <= BUFSIZ.
Variables Port MimeTypesPath DefaultMimeType RootPath WHITESPACE : cstring.
Variable chomp : cstring -> cstring.
Variable realpath : cstring -> option cstring.
Variable stat : cstring -> option Z.
Variable access_X_OK : cstring -> bool.
Variable fopen_r : cstring -> option stream.
Variable opendir : cstring -> bool.
Variable readdir_all : cstring -> option (list cstring).
Variable popen_r : cstring -> environ -> option stream.
Variable fwrite_ret : list ascii -> list ascii -> nat.

Local Abbreviation handle :=
  (handle_request BUFSIZ Port MimeTypesPath DefaultMimeType RootPath WHITESPACE
                  chomp realpath stat access_X_OK fopen_r opendir readdir_all
                  popen_r fwrite_ret).
Local Abbreviation handle_error' := (handle_error BUFSIZ fopen_r fwrite_ret).
Local Abbreviation resolve := (determine_request_path BUFSIZ RootPath realpath).
Local Abbreviation browse :=
  (handle_browse_request BUFSIZ MimeTypesPath DefaultMimeType WHITESPACE
                         fopen_r opendir readdir_all fwrite_ret).
Local Abbreviation handle_cgi :=
  (handle_cgi_request BUFSIZ Port RootPath fopen_r popen_r fwrite_ret).
Local Abbreviation handle_file :=
  (handle_file_request BUFSIZ MimeTypesPath DefaultMimeType WHITESPACE fopen_r
                       fwrite_ret).

Lemma copy_error_page_complete fuel (fs : stream) (r : Request) :
  (forall out chunk, length chunk <= fwrite_ret out chunk) ->
  length fs <= fuel ->
  copy_error_page BUFSIZ fwrite_ret fuel fs r = fputs fs r.
Proof.
  intros Hw. revert fs r. induction fuel as [|fuel IH]; intros fs r Hlen.
  - destruct fs; [|simpl in Hlen; lia]. by rewrite fputs_nil.
  - cbn [copy_error_page]. unfold fread.
    destruct (0 <? length (take BUFSIZ fs)) eqn:E.
    + apply Nat.ltb_lt in E. unfold fwrite.
      rewrite Nat.min_r by apply Hw. rewrite firstn_all.
      fold (fputs (take BUFSIZ fs) r). rewrite IH.
      * by rewrite fputs_fputs, take_drop.
      * rewrite length_drop. rewrite length_take in E. lia.
    + apply Nat.ltb_ge in E. rewrite length_take in E.
      destruct fs; [by rewrite fputs_nil|simpl in E; lia].
Qed.

(** X13 (handler.c, handle_error): the error response is the line
    HTTP/1.0 and the status string, ended by a bare newline, the
    content type text/html and the empty line, and then: for NOT_FOUND
    the file www/html/404.html, looked up from the working directory and
    not from the document root, whole when every fwrite writes its
    chunk and nothing when the file cannot be opened; for every other
    status four lines of HTML around the status string.  The status
    given is the status returned. *)
Theorem handle_error_response (r : Request) (status : Status) :
  let head :=
    lit "HTTP/1.0 " ++ http_status_string status ++ [LF]
    ++ lit "Content-type: text/html" ++ CRLF ++ CRLF in
  (handle_error' r status).1 = status /\
  (status <> HTTP_STATUS_NOT_FOUND ->
   (handle_error' r status).2 =
     fputs (head ++ lit "<!DOCTYPE html>" ++ [LF] ++ lit "<html>" ++ [LF]
            ++ lit "  <body><h1>" ++ http_status_string status
            ++ lit "</h1></body>" ++ [LF] ++ lit "</html>" ++ [LF]) r) /\
  (status = HTTP_STATUS_NOT_FOUND ->
   fopen_r (lit "www/html/404.html") = None ->
   (handle_error' r status).2 = fputs head r) /\
  (forall page,
     status = HTTP_STATUS_NOT_FOUND ->
     fopen_r (lit "www/html/404.html") = Some page ->
     (forall out chunk, length chunk <= fwrite_ret out chunk) ->
     (handle_error' r status).2 = fputs (head ++ page) r).
Proof.
  intros head. split; [apply handle_error_status|]. unfold head.
  split; [|split].
  - intros Hst. unfold handle_error.
    destruct status; try done; cbn [snd]; rewrite !fputs_fputs; f_equal; assoc_eq.
  - intros -> Hf. unfold handle_error. rewrite Hf. cbn [snd].
    rewrite !fputs_fputs. f_equal; assoc_eq.
  - intros page -> Hf Hw. unfold handle_error. rewrite Hf. cbn [snd].
    rewrite copy_error_page_complete by done.
    rewrite !fputs_fputs. f_equal; assoc_eq.
Qed.

Lemma handle_error_status_line (r : Request) (status : Status) :
  (file_out r ++ lit "HTTP/1.0 " ++ http_status_string status ++ [LF])
    `prefix_of` file_out (handle_error' r status).2.
Proof.
  set (line := lit "HTTP/1.0 " ++ http_status_string status ++ [LF]).
  assert (forall r0 : Request,
            (file_out r ++ line) `prefix_of` file_out r0 ->
            (file_out r ++ line) `prefix_of`
              file_out (copy_error_page BUFSIZ fwrite_ret
                          (length (default [] (fopen_r (lit "www/html/404.html"))))
                          (default [] (fopen_r (lit "www/html/404.html"))) r0))
    as Hcopy.
  { intros r0 H. etransitivity; [exact H|]. apply copy_error_page_appends. }
  assert (forall t, (file_out r ++ line) `prefix_of` file_out (fputs (line ++ t) r))
    as Hstart by (intros t; apply prefix_of_fputs_start).
  unfold handle_error. fold line.
  destruct status; cbn [snd];
    try (rewrite !fputs_fputs, <- !app_assoc; rewrite (app_assoc line); apply Hstart).
  destruct (fopen_r (lit "www/html/404.html")) as [fs|] eqn:Hf; cbn [snd].
  - cbn [default] in Hcopy. apply Hcopy.
    rewrite !fputs_fputs. apply Hstart.
  - rewrite !fputs_fputs. apply Hstart.
Qed.

Lemma handle_error_http (r : Request) (status : Status) :
  (file_out r ++ lit "HTTP/1.0 ") `prefix_of` file_out (handle_error' r status).2.
Proof.
  etransitivity; [|apply handle_error_status_line].
  rewrite (app_assoc (file_out r)). by apply prefix_app_r.
Qed.

(** X14 (handler.c, handle_browse_request): when the directory cannot
    be opened the response is the one of handle_error for NOT_FOUND.
    When it opens and scandir then fails, the handler returns NOT_FOUND
    as well, but the header of the 200 response is already written: what
    the client gets starts with HTTP/1.0 200 OK and the content type, and
    the 404 response follows it. *)
Theorem handle_browse_request_scandir_fails (r : Request) (p u : cstring) :
  path r = Some p -> uri r = Some u ->
  (opendir p = false ->
   browse r = Returns (handle_error' r HTTP_STATUS_NOT_FOUND)) /\
  (opendir p = true -> readdir_all p = None ->
   exists r',
     browse r = Returns (HTTP_STATUS_NOT_FOUND, r') /\
     (file_out r ++ lit "HTTP/1.0 200 OK" ++ CRLF
      ++ lit "Content-Type: text/html" ++ CRLF ++ CRLF
      ++ lit "HTTP/1.0 404 Not Found" ++ [LF]) `prefix_of` file_out r').
Proof.
  intros Hp Hu. unfold handle_browse_request. rewrite Hp, Hu. split.
  - by intros ->.
  - intros -> Hrd. unfold scandir. rewrite Hrd. cbn [fmap option_fmap option_map].
    match goal with |- context [handle_error _ _ _ ?r1 ?s] =>
      pose proof (handle_error_status_line r1 s) as Hline;
      pose proof (handle_error_status BUFSIZ fopen_r fwrite_ret r1 s) as Hst;
      destruct (handle_error BUFSIZ fopen_r fwrite_ret r1 s) as [st r'] end.
    cbn [fst snd] in *. subst st. exists r'. split; [done|].
    etransitivity; [|exact Hline].
    unfold fputs, set_file_out. cbn [file_out].
    by rewrite <- !app_assoc.
Qed.

Lemma parse_request_method_file_out (r r1 : Request) (rc : Z) :
  parse_request_method BUFSIZ r = Returns (rc, r1) -> file_out r1 = file_out r.
Proof.
  unfold parse_request_method.
  destruct (fgets BUFSIZ (file_in r)) as [[raw rest]|]; [|by intros [= _ <-]].
  destruct (strtok _ _ _ _) as [[m b1] s1].
  destruct (strtok b1 _ _ _) as [[u b2] s2].
  destruct m as [m|]; [|by intros [= _ <-]].
  destruct u as [u|]; [|by intros [= _ <-]].
  destruct (strchr _ _).
  - destruct (strtok b2 _ _ _) as [[q b3] s3].
    destruct (strtok b3 _ _ _) as [[u' b4] s4].
    intros H. by apply record_request_line_fields in H as (_ & _ & _ & _ & _ & _ & H & _).
  - intros H. by apply record_request_line_fields in H as (_ & _ & _ & _ & _ & _ & H & _).
Qed.

Lemma parse_request_file_out (r r1 : Request) (rc : Z) :
  parse_request BUFSIZ chomp r = Returns (rc, r1) -> file_out r1 = file_out r.
Proof.
  unfold parse_request.
  destruct (parse_request_method BUFSIZ r) as [[rc0 r0]|] eqn:E0; [|done]. simpl.
  apply parse_request_method_file_out in E0.
  destruct (rc0 =? 0)%Z; [|by intros [= _ <-]].
  unfold parse_request_headers.
  destruct (parse_headers_loop _ _ _ _ _) as [[curr|] s]; simpl;
    by intros [= _ <-].
Qed.

Lemma stream_file_appends fuel (fs : stream) (r : Request) :
  file_out r `prefix_of` file_out (stream_file BUFSIZ fwrite_ret fuel fs r).2.
Proof.
  revert fs r. induction fuel as [|fuel IH]; intros fs r; [done|].
  cbn [stream_file]. unfold fread.
  destruct (0 <? length (take BUFSIZ fs)); [|done].
  unfold fwrite.
  destruct (_ =? 0); cbn [snd].
  - unfold set_file_out. cbn [file_out]. by apply prefix_app_r.
  - etransitivity; [|apply IH].
    unfold set_file_out. cbn [file_out]. by apply prefix_app_r.
Qed.

Lemma handle_browse_request_http (r r' : Request) (st : Status) :
  browse r = Returns (st, r') ->
  (file_out r ++ lit "HTTP/1.0 ") `prefix_of` file_out r'.
Proof.
  unfold handle_browse_request.
  destruct (path r) as [p|]; [|done]. destruct (uri r) as [u|]; [|done].
  destruct (opendir p).
  2:{ intros [_ <-]%Returns_pair_inv. apply handle_error_http. }
  assert (forall r0 : Request,
            (file_out r ++ lit "HTTP/1.0 ") `prefix_of`
              file_out (fputs (lit "HTTP/1.0 200 OK" ++ CRLF
                               ++ lit "Content-Type: text/html" ++ CRLF ++ CRLF) r))
    as Hstart.
  { intros _. change (lit "HTTP/1.0 200 OK") with (lit "HTTP/1.0 " ++ lit "200 OK").
    rewrite <- !app_assoc. apply prefix_of_fputs_start. }
  destruct (scandir _ _) as [entries|].
  2:{ intros [_ <-]%Returns_pair_inv. etransitivity; [apply (Hstart r)|].
      apply handle_error_appends. }
  destruct (last u); [|done]. intros [= _ <-].
  rewrite emit_entries_eq. do 4 apply prefix_of_fputs. apply (Hstart r).
Qed.

Lemma handle_file_request_http (r r' : Request) (st : Status) :
  handle_file r = Returns (st, r') ->
  (file_out r ++ lit "HTTP/1.0 ") `prefix_of` file_out r'.
Proof.
  unfold handle_file_request.
  destruct (path r) as [p|]; [|done]. destruct (fopen_r p) as [fs|]; [|done].
  match goal with |- context [stream_file _ _ _ _ ?r1] =>
    pose proof (stream_file_appends (length fs) fs r1) as Happ;
    assert ((file_out r ++ lit "HTTP/1.0 ") `prefix_of` file_out r1) as Hstart
      by (apply prefix_of_fputs; apply prefix_of_fputs_start);
    destruct (stream_file BUFSIZ fwrite_ret (length fs) fs r1) as [[] r2] end;
    cbn [snd] in Happ.
  - intros [= _ <-]. by etransitivity.
  - intros [_ <-]%Returns_pair_inv. etransitivity; [exact Hstart|].
    etransitivity; [exact Happ|]. apply handle_error_appends.
Qed.

Local Abbreviation script_of :=
  (runs_script BUFSIZ RootPath chomp realpath stat access_X_OK popen_r).

(** What a script's output looks like once copied line by line. *)
Local Abbreviation copied pfs :=
  (concat (span (fun l => 0 <? strlen l) (c_str <$> input_lines BUFSIZ pfs)).1).

Lemma handle_cgi_request_script (r r' : Request) (e e' : environ) (st : Status)
  (p : cstring) :
  path r = Some p -> handle_cgi r e = Returns (st, r', e') ->
  match popen_r p e' with
  | Some pfs => st = HTTP_STATUS_OK /\ file_out r' = file_out r ++ copied pfs
  | None => (file_out r ++ lit "HTTP/1.0 ") `prefix_of` file_out r'
  end.
Proof.
  intros Hp. unfold handle_cgi_request, export_environment, setenv. rewrite Hp.
  destruct (query r) as [q|]; [|done]. destruct (method r) as [m|]; [|done].
  destruct (uri r) as [u|]; [|done]. cbn [nonnull obind].
  rewrite (export_headers_keeps _ _ "SCRIPT_FILENAME" p);
    [|compute_done|by simplify_map_eq].
  match goal with |- context [popen_r p ?e1] => set (env := e1) end.
  destruct (popen_r p env) as [pfs|] eqn:Hpopen.
  - intros H.
    assert (st = HTTP_STATUS_OK /\ r' = copy_cgi_output BUFSIZ (length pfs) pfs r
            /\ e' = env) as (-> & -> & ->) by (repeat split; congruence).
    rewrite Hpopen. split; [done|]. by rewrite copy_cgi_output_spec.
  - pose proof (handle_error_http r HTTP_STATUS_INTERNAL_SERVER_ERROR) as Herr.
    destruct (handle_error' r HTTP_STATUS_INTERNAL_SERVER_ERROR) as [st0 r0].
    intros H. assert (r0 = r' /\ e' = env) as [<- ->] by (split; congruence).
    by rewrite Hpopen.
Qed.

(** What being given to a script says once the request is parsed. *)
Lemma runs_script_inv (r r1 : Request) (e' : environ) (pfs : stream)
  (rc : Z) :
  script_of r e' pfs -> parse_request BUFSIZ chomp r = Returns (rc, r1) ->
  rc = 0%Z /\
  exists u p m,
    uri r1 = Some u /\ resolve u = Some p /\ stat p = Some m /\
    S_ISDIR m = false /\ S_ISREG m = true /\ access_X_OK p = true /\
    popen_r p e' = Some pfs.
Proof.
  intros (r1' & u & p & m & Hparse & H) Hparse'.
  assert (rc = 0%Z /\ r1' = r1) as [-> ->] by (split; congruence).
  split; [done|]. by exists u, p, m.
Qed.

Lemma handle_request_written (r r' : Request) (e e' : environ) (st : Status) :
  handle r e = Returns (st, r', e') ->
  (forall pfs, script_of r e' pfs ->
     st = HTTP_STATUS_OK /\ file_out r' = file_out r ++ copied pfs) /\
  ((forall pfs, ~ script_of r e' pfs) ->
   (file_out r ++ lit "HTTP/1.0 ") `prefix_of` file_out r').
Proof.
  unfold handle_request.
  destruct (parse_request BUFSIZ chomp r) as [[rc r1]|] eqn:Hparse; [|done].
  pose proof (parse_request_file_out _ _ _ Hparse) as Hout1. cbn [obind].
  assert (forall status,
            (file_out r ++ lit "HTTP/1.0 ") `prefix_of`
              file_out (handle_error' r1 status).2) as Herr.
  { intros status. rewrite <- Hout1. apply handle_error_http. }
  destruct (rc <? 0)%Z eqn:Hrc.
  { intros (_ & <- & <-)%with_env_inv. split; [|intros _; apply Herr].
    intros pfs Hs. destruct (runs_script_inv _ _ _ _ _ Hs Hparse) as [-> _]. done. }
  assert (rc = 0%Z) as ->
    by (by destruct (parse_request_rc _ _ _ _ _ Hparse) as [->| ->]).
  destruct (uri r1) as [u|] eqn:Hu; [|done]. cbn [nonnull obind].
  set (r2 := set_path r1 (resolve u)).
  assert (file_out r2 = file_out r) as Hout by done.
  assert (forall status,
            (file_out r ++ lit "HTTP/1.0 ") `prefix_of`
              file_out (handle_error' r2 status).2) as Herr2.
  { intros status. rewrite <- Hout. apply handle_error_http. }
  assert (forall pfs, script_of r e' pfs ->
            exists p m, resolve u = Some p /\ stat p = Some m /\
              S_ISDIR m = false /\ S_ISREG m = true /\ access_X_OK p = true /\
              popen_r p e' = Some pfs) as Hinv.
  { intros pfs Hs.
    destruct (runs_script_inv _ _ _ _ _ Hs Hparse)
      as (_ & u' & p & m & Hu' & H).
    assert (u' = u) as -> by congruence. by exists p, m. }
  assert (path r2 = resolve u) as Hpath by done.
  destruct (resolve u) as [p|] eqn:Hres; rewrite Hpath.
  2:{ intros (_ & <- & <-)%with_env_inv. split; [|intros _; apply Herr2].
      intros pfs (p & m & ? & _)%Hinv. done. }
  destruct (stat p) as [m|] eqn:Hst.
  2:{ intros (_ & <- & <-)%with_env_inv. split; [|intros _; apply Herr2].
      intros pfs (p' & m & Hp' & ? & _)%Hinv. congruence. }
  assert (forall pfs, script_of r e' pfs ->
            S_ISDIR m = false /\ S_ISREG m = true /\ access_X_OK p = true /\
            popen_r p e' = Some pfs) as Hinv'.
  { intros pfs (p' & m' & Hp' & Hm' & H)%Hinv.
    assert (p' = p) as -> by congruence.
    assert (m' = m) as -> by congruence. done. }
  destruct (S_ISDIR m) eqn:Hdir.
  { intros [Hb <-]%lift_env_inv. split.
    - intros pfs [? _]%Hinv'. done.
    - intros _. rewrite <- Hout. by apply (handle_browse_request_http _ _ st). }
  destruct (S_ISREG m) eqn:Hreg.
  2:{ intros (_ & <- & <-)%with_env_inv. split; [|intros _; apply Herr2].
      intros pfs (_ & ? & _)%Hinv'. done. }
  destruct (access_X_OK p) eqn:Hacc.
  { intros H. apply (handle_cgi_request_script r2 r' e e' st p) in H; [|done].
    rewrite Hout in H. split.
    - intros pfs (_ & _ & _ & Hpopen)%Hinv'. by rewrite Hpopen in H.
    - intros Hno. destruct (popen_r p e') as [pfs|] eqn:Hpopen; [|done].
      exfalso. apply (Hno pfs). exists r1, u, p, m. by repeat split. }
  destruct (negb _).
  2:{ intros (_ & <- & <-)%with_env_inv. split; [|intros _; apply Herr2].
      intros pfs (_ & _ & ? & _)%Hinv'. done. }
  intros [Hf <-]%lift_env_inv. split.
  - intros pfs (_ & _ & ? & _)%Hinv'. done.
  - intros _. rewrite <- Hout. by apply (handle_file_request_http _ _ st).
Qed.

(** X15 (handler.c, handle_request): what handle_request writes to the
    stream of a request it has read to the end.  When the request is
    given to a script that popen starts, the status is OK and what is
    written is the output copied from the script and nothing else: no
    status line and no header of the server stands before it.  In every
    other case what is written starts with the HTTP/1.0 of a status
    line.  What stood in the stream before is kept in both cases. *)
Theorem handle_request_status_line (r r' : Request) (e e' : environ) (st : Status) :
  handle r e = Returns (st, r', e') -> file_in r' = [] ->
  (forall pfs, script_of r e' pfs ->
     st = HTTP_STATUS_OK /\ file_out r' = file_out r ++ copied pfs) /\
  ((forall pfs, ~ script_of r e' pfs) ->
   (file_out r ++ lit "HTTP/1.0 ") `prefix_of` file_out r').
Proof. intros H _. exact (handle_request_written _ _ _ _ _ H). Qed.

Lemma take_min_length {A} (k : nat) (l : list A) :
  take (k `min` length l) l = take k l.
Proof.
  destruct (Nat.le_gt_cases k (length l)) as [H|H].
  - by rewrite Nat.min_l.
  - rewrite Nat.min_r by lia. by rewrite !take_ge by lia.
Qed.

Lemma stream_file_short_writes (k fuel : nat) (fs : stream) (r : Request) :
  0 < k -> (forall out chunk, fwrite_ret out chunk = k) ->
  stream_file BUFSIZ fwrite_ret fuel fs r
    = (true, fputs (concat (take k <$> fread_all BUFSIZ fuel fs)) r).
Proof.
  intros Hk Hw. revert fs r. induction fuel as [|fuel IH]; intros fs r.
  - cbn. by rewrite fputs_nil.
  - cbn [stream_file fread_all]. unfold fread.
    destruct (0 <? length (take BUFSIZ fs)) eqn:E.
    + apply Nat.ltb_lt in E. unfold fwrite. rewrite Hw, take_min_length.
      destruct (k `min` length (take BUFSIZ fs) =? 0) eqn:E0;
        [apply Nat.eqb_eq in E0; lia|].
      fold (fputs (take k (take BUFSIZ fs)) r). rewrite IH.
      by rewrite fputs_fputs.
    + cbn. by rewrite fputs_nil.
Qed.

Lemma fread_all_concat (fuel : nat) (fs : stream) :
  length fs <= fuel -> concat (fread_all BUFSIZ fuel fs) = fs.
Proof.
  revert fs. induction fuel as [|fuel IH]; intros fs Hlen.
  - destruct fs; [done|simpl in Hlen; lia].
  - cbn [fread_all]. unfold fread.
    destruct (0 <? length (take BUFSIZ fs)) eqn:E.
    + apply Nat.ltb_lt in E. cbn [concat]. rewrite IH; [by rewrite take_drop|].
      rewrite length_drop. rewrite length_take in E. lia.
    + apply Nat.ltb_ge in E. rewrite length_take in E.
      destruct fs; [done|simpl in E; lia].
Qed.

Lemma concat_take_length (k : nat) (chunks : list (list ascii)) :
  length (concat (take k <$> chunks)) <= length (concat chunks).
Proof.
  induction chunks as [|c chunks IH]; [done|].
  cbn [fmap list_fmap concat]. rewrite !length_app, length_take. lia.
Qed.

(** X16 (handler.c, handle_file_request): the loop takes every count
    of fwrite other than 0 for success.  When each fwrite writes k > 0
    bytes, of every chunk of BUFSIZ bytes read from the file only the
    first k are sent, the loop goes on to the end of the file and the
    handler returns OK; with k below BUFSIZ and below the size of the
    file the response lacks bytes of the file. *)
Theorem handle_file_request_short_writes (r : Request) (p : cstring)
  (fs : stream) (k : nat) :
  path r = Some p -> fopen_r p = Some fs ->
  0 < k -> (forall out chunk, fwrite_ret out chunk = k) ->
  let body := concat (take k <$> file_chunks BUFSIZ fs) in
  handle_file r =
    Returns (HTTP_STATUS_OK,
             fputs ((lit "HTTP/1.0 200 OK" ++ CRLF)
                    ++ lit "Content-type: "
                    ++ determine_mimetype BUFSIZ MimeTypesPath DefaultMimeType
                                          WHITESPACE fopen_r p
                    ++ CRLF ++ CRLF ++ body) r) /\
  (k < BUFSIZ -> k < length fs -> length body < length fs).
Proof.
  intros Hp Hf Hk Hw body. split.
  - unfold handle_file_request. rewrite Hp, Hf.
    rewrite (stream_file_short_writes k) by done.
    rewrite !fputs_fputs. by rewrite <- !app_assoc.
  - intros HkB Hkfs. unfold body, file_chunks.
    destruct fs as [|c fs]; [simpl in Hkfs; lia|].
    cbn [length fread_all]. unfold fread.
    assert (k < length (take BUFSIZ (c :: fs))) as Hchunk
      by (rewrite length_take; lia).
    destruct (0 <? length (take BUFSIZ (c :: fs))) eqn:E;
      [|apply Nat.ltb_ge in E; lia].
    cbn [fmap list_fmap concat]. rewrite length_app, length_take.
    pose proof (concat_take_length k
                  (fread_all BUFSIZ (length fs) (drop BUFSIZ (c :: fs)))) as Hrest.
    rewrite fread_all_concat in Hrest.
    2:{ rewrite length_drop. cbn [length]. lia. }
    rewrite length_drop in Hrest. rewrite length_take in Hchunk.
    rewrite length_take. cbn [length] in *. lia.
Qed.

End ResponseProofs.

Lemma handle_error_response_witness :
  (handle_error Example.BUFSIZ Example.fopen_r Example.fwrite_ret
                (Example.request []) HTTP_STATUS_NOT_FOUND).2
    = fputs ((lit "HTTP/1.0 " ++ lit "404 Not Found" ++ [LF]
              ++ lit "Content-type: text/html" ++ CRLF ++ CRLF)
             ++ lit "<h1>Not here</h1>" ++ [LF])
            (Example.request []).
Proof.
  destruct (handle_error_response Example.BUFSIZ Example_BUFSIZ_min
              Example.fopen_r Example.fwrite_ret (Example.request [])
              HTTP_STATUS_NOT_FOUND) as (_ & _ & _ & H).
  apply (H (lit "<h1>Not here</h1>" ++ [LF]) eq_refl eq_refl).
  intros out chunk. unfold Example.fwrite_ret. lia.
Defined.

Lemma handle_browse_request_scandir_fails_witness :
  exists r',
    handle_browse_request Example.BUFSIZ Example.MimeTypesPath
        Example.DefaultMimeType Example.WHITESPACE Example.fopen_r
        (fun _ => true) (fun _ => None) Example.fwrite_ret Example.browse_root
      = Returns (HTTP_STATUS_NOT_FOUND, r') /\
    (file_out Example.browse_root ++ lit "HTTP/1.0 200 OK" ++ CRLF
     ++ lit "Content-Type: text/html" ++ CRLF ++ CRLF
     ++ lit "HTTP/1.0 404 Not Found" ++ [LF]) `prefix_of` file_out r'.
Proof.
  apply (proj2 (handle_browse_request_scandir_fails Example.BUFSIZ
                  Example.MimeTypesPath Example.DefaultMimeType
                  Example.WHITESPACE Example.fopen_r (fun _ => true)
                  (fun _ => None) Example.fwrite_ret Example.browse_root
                  (lit "/srv/www") (lit "/") eq_refl eq_refl));
    reflexivity.
Defined.

Lemma Example_get_index_run :
  Example.run Example.get_index
    = Returns (HTTP_STATUS_OK,
               fputs (lit "HTTP/1.0 200 OK" ++ CRLF
                      ++ lit "Content-type: text/html" ++ CRLF ++ CRLF
                      ++ lit "<h1>It works</h1>" ++ [LF])
                     (set_path Example.parsed_index
                               (Some (lit "/srv/www/index.html"))),
               ∅).
Proof. vm_compute. reflexivity. Qed.

Lemma Example_get_index_no_script (pfs : stream) :
  ~ runs_script Example.BUFSIZ Example.root Example.chomp Example.realpath
      Example.stat Example.access_X_OK Example.popen_r
      (Example.request Example.get_index) ∅ pfs.
Proof.
  intros (r1 & u & p & m & Hparse & Hu & Hp & Hm & _ & _ & Hacc & _).
  assert (r1 = Example.parsed_index) as ->.
  { assert (parse_request Example.BUFSIZ Example.chomp
              (Example.request Example.get_index)
            = Returns (0%Z, Example.parsed_index)) as H
      by (vm_compute; reflexivity).
    congruence. }
  assert (u = lit "/index.html") as -> by (by injection Hu).
  assert (p = lit "/srv/www/index.html") as ->.
  { assert (determine_request_path Example.BUFSIZ Example.root Example.realpath
              (lit "/index.html") = Some (lit "/srv/www/index.html")) as H
      by (vm_compute; reflexivity).
    congruence. }
  vm_compute in Hacc. discriminate.
Qed.

Lemma handle_request_status_line_witness :
  (file_out (Example.request Example.get_index) ++ lit "HTTP/1.0 ")
    `prefix_of`
    file_out (fputs (lit "HTTP/1.0 200 OK" ++ CRLF
                     ++ lit "Content-type: text/html" ++ CRLF ++ CRLF
                     ++ lit "<h1>It works</h1>" ++ [LF])
                    (set_path Example.parsed_index
                              (Some (lit "/srv/www/index.html")))).
Proof.
  apply (proj2 (handle_request_status_line Example.BUFSIZ Example_BUFSIZ_min
                  Example.Port Example.MimeTypesPath Example.DefaultMimeType
                  Example.root Example.WHITESPACE Example.chomp
                  Example.realpath Example.stat Example.access_X_OK
                  Example.fopen_r Example.opendir Example.readdir_all
                  Example.popen_r Example.fwrite_ret
                  _ _ _ _ _ Example_get_index_run eq_refl)).
  exact Example_get_index_no_script.
Defined.

Lemma handle_file_request_short_writes_witness :
  handle_file_request Example.BUFSIZ Example.MimeTypesPath
      Example.DefaultMimeType Example.WHITESPACE Example.fopen_r
      (fun _ _ => 1)
      (set_path Example.parsed_index (Some (lit "/srv/www/index.html")))
    = Returns (HTTP_STATUS_OK,
        fputs ((lit "HTTP/1.0 200 OK" ++ CRLF)
               ++ lit "Content-type: "
               ++ determine_mimetype Example.BUFSIZ Example.MimeTypesPath
                    Example.DefaultMimeType Example.WHITESPACE Example.fopen_r
                    (lit "/srv/www/index.html")
               ++ CRLF ++ CRLF ++ lit "<")
              (set_path Example.parsed_index (Some (lit "/srv/www/index.html")))).
Proof.
  apply (proj1 (handle_file_request_short_writes Example.BUFSIZ
                  Example_BUFSIZ_min Example.MimeTypesPath Example.DefaultMimeType
                  Example.WHITESPACE Example.fopen_r (fun _ _ => 1)
                  (set_path Example.parsed_index (Some (lit "/srv/www/index.html")))
                  (lit "/srv/www/index.html")
                  (lit "<h1>It works</h1>" ++ [LF]) 1
                  eq_refl eq_refl ltac:(lia) ltac:(reflexivity))).
Defined.

(** ** request.c: accept_request and free_request *)

Lemma accept_request_cases (a : arrival) :
  match accept_request a with
  | Returns NULL_request => calloc_ok a = false
  | Returns Unopened => False
  | Returns (Opened r) =>
      calloc_ok a = true /\ (0 <= client_fd a)%Z /\ fdopen_ok a = true /\
      exists h p, nameinfo a = Some (h, p) /\
                  r = mkRequest (sent a) [] h p None None None None []
  | Undefined =>
      calloc_ok a = true /\
      ((client_fd a < 0)%Z \/ nameinfo a = None \/ fdopen_ok a = false)
  end.
Proof.
  unfold accept_request. destruct (calloc_ok a); cbn [negb]; [|done].
  destruct (client_fd a <? 0)%Z eqn:Efd.
  { apply Z.ltb_lt in Efd. cbn. auto. }
  apply Z.ltb_ge in Efd.
  destruct (nameinfo a) as [[h p]|]; [|cbn; auto].
  destruct (fdopen_ok a); cbn; [|auto].
  repeat split; try done. by exists h, p.
Qed.

(** X18 (request.c, accept_request and free_request): accept_request
    returns NULL without more ado only when calloc fails.  When accept,
    getnameinfo or fdopen fails, it jumps to fail with r->file still
    NULL, and free_request passes that NULL pointer to fclose.  When all
    succeed, it returns a request on the stream of the client, with host
    and port looked up, no string set, no header and nothing written;
    free_request is defined on such a request and on NULL. *)
Theorem accept_request_outcomes (a : arrival) :
  (accept_request a = Returns NULL_request <-> calloc_ok a = false) /\
  (forall r, accept_request a = Returns (Opened r) <->
     calloc_ok a = true /\ (0 <= client_fd a)%Z /\ fdopen_ok a = true /\
     exists h p, nameinfo a = Some (h, p) /\
                 r = mkRequest (sent a) [] h p None None None None []) /\
  (accept_request a = Undefined <->
     calloc_ok a = true /\
     ((client_fd a < 0)%Z \/ nameinfo a = None \/ fdopen_ok a = false)) /\
  accept_request a <> Returns Unopened /\
  free_request NULL_request = Returns tt /\
  free_request Unopened = Undefined /\
  (forall r, free_request (Opened r) = Returns tt).
Proof.
  pose proof (accept_request_cases a) as H.
  split; [|split; [|split; [|split; [|done]]]].
  - destruct (accept_request a) as [[| |r0]|]; [done|done| |];
      (split; [done|]); intros Hc; destruct H as [H _]; congruence.
  - intros r. destruct (accept_request a) as [[| |r0]|]; [|done| |].
    + split; [done|]. intros (Hc & _). congruence.
    + destruct H as (Hc & Hfd & Hfo & h & p & Hn & ->). split.
      * intros [= <-]. eauto 10.
      * intros (_ & _ & _ & h' & p' & Hn' & ->). congruence.
    + split; [done|]. intros (_ & Hfd & Hfo & h & p & Hn & _).
      destruct H as [_ [?|[?|?]]]; [lia|congruence|congruence].
  - destruct (accept_request a) as [[| |r0]|]; [|done| |done].
    + split; [done|]. intros [Hc _]. congruence.
    + destruct H as (Hc & Hfd & Hfo & h & p & Hn & _). split; [done|].
      intros [_ [?|[?|?]]]; [lia|congruence|congruence].
  - by destruct (accept_request a) as [[| |r0]|].
Qed.

(** ** The environment of the process, in single.c and forking.c *)

Section ServerProofs.
Variable BUFSIZ : nat.
Hypothesis BUFSIZ_min : 256 <= BUFSIZ.
Variables Port MimeTypesPath DefaultMimeType RootPath WHITESPACE : cstring.
Variable chomp : cstring -> cstring.
Variable realpath : cstring -> option cstring.
Variable stat : cstring -> option Z.
Variable access_X_OK : cstring -> bool.
Variable fopen_r : cstring -> option stream.
Variable opendir : cstring -> bool.
Variable readdir_all : cstring -> option (list cstring).
Variable popen_r : cstring -> environ -> option stream.
Variable fwrite_ret : list ascii -> list ascii -> nat.

Local Abbreviation handle :=
  (handle_request BUFSIZ Port MimeTypesPath DefaultMimeType RootPath WHITESPACE
                  chomp realpath stat access_X_OK fopen_r opendir readdir_all
                  popen_r fwrite_ret).
Local Abbreviation handle_ptr :=
  (handle_request_ptr BUFSIZ Port MimeTypesPath DefaultMimeType RootPath
                      WHITESPACE chomp realpath stat access_X_OK fopen_r
                      opendir readdir_all popen_r fwrite_ret).
Local Abbreviation handle_error' := (handle_error BUFSIZ fopen_r fwrite_ret).
Local Abbreviation resolve := (determine_request_path BUFSIZ RootPath realpath).
Local Abbreviation handle_cgi :=
  (handle_cgi_request BUFSIZ Port RootPath fopen_r popen_r fwrite_ret).
Local Abbreviation single :=
  (single_server BUFSIZ Port MimeTypesPath DefaultMimeType RootPath WHITESPACE
                 chomp realpath stat access_X_OK fopen_r opendir readdir_all
                 popen_r fwrite_ret).
Local Abbreviation forking :=
  (forking_server BUFSIZ Port MimeTypesPath DefaultMimeType RootPath WHITESPACE
                  chomp realpath stat access_X_OK fopen_r opendir readdir_all
                  popen_r fwrite_ret).
Local Abbreviation child :=
  (forked_child BUFSIZ Port MimeTypesPath DefaultMimeType RootPath WHITESPACE
                chomp realpath stat access_X_OK fopen_r opendir readdir_all
                popen_r fwrite_ret).

Local Abbreviation cgi_env := (exported Port RootPath).

Lemma exported_is_Some (r : Request) (m u p q : cstring) (e : environ) (k : string) :
  is_Some (e !! k) -> is_Some (cgi_env r m u p q e !! k).
Proof.
  intros H. unfold exported.
  repeat (apply lookup_insert_is_Some';  right).
  done.
Qed.

Lemma exported_other (r : Request) (m u p q : cstring) (e : environ) (k : string) :
  k ∉ cgi_variables -> cgi_env r m u p q e !! k = e !! k.
Proof.
  intros Hk. unfold exported.
  rewrite !lookup_insert_ne; [done|intros <-; apply Hk; compute_done..].
Qed.

Lemma copy_error_page_headers fuel (fs : stream) (r : Request) :
  headers (copy_error_page BUFSIZ fwrite_ret fuel fs r) = headers r.
Proof.
  revert fs r. induction fuel as [|fuel IH]; intros fs r; [done|].
  cbn [copy_error_page]. unfold fread.
  destruct (0 <? length (take BUFSIZ fs)); [|done].
  unfold fwrite. by rewrite IH.
Qed.

Lemma handle_error_headers (r : Request) (status : Status) :
  headers (handle_error' r status).2 = headers r.
Proof.
  unfold handle_error. destruct status; try done.
  destruct (fopen_r _); [|done]. cbn [snd]. by rewrite copy_error_page_headers.
Qed.

Lemma handle_cgi_request_env (r r' : Request) (e e' : environ) (st : Status) :
  handle_cgi r e = Returns (st, r', e') ->
  headers r' = headers r /\
  exists m u p q, e' = export_headers (headers r) (cgi_env r m u p q e).
Proof.
  unfold handle_cgi_request, export_environment, setenv.
  destruct (query r) as [q|]; [|done]. destruct (method r) as [m|]; [|done].
  destruct (uri r) as [u|]; [|done]. destruct (path r) as [p|]; [|done].
  cbn [nonnull obind]. fold (cgi_env r m u p q e).
  destruct (_ !! "SCRIPT_FILENAME") as [command|]; [|done].
  destruct (popen_r command _) as [pfs|].
  - intros H.
    assert (r' = copy_cgi_output BUFSIZ (length pfs) pfs r
            /\ e' = export_headers (headers r) (cgi_env r m u p q e)) as [-> ->]
      by (split; congruence).
    rewrite copy_cgi_output_spec by done. split; [done|]. by exists m, u, p, q.
  - pose proof (handle_error_headers r HTTP_STATUS_INTERNAL_SERVER_ERROR) as Hh.
    destruct (handle_error' r HTTP_STATUS_INTERNAL_SERVER_ERROR) as [st0 r0].
    intros H.
    assert (r' = r0 /\ e' = export_headers (headers r) (cgi_env r m u p q e))
      as [-> ->] by (split; congruence).
    split; [done|]. by exists m, u, p, q.
Qed.

Lemma handle_request_env (r r' : Request) (e e' : environ) (st : Status) :
  handle r e = Returns (st, r', e') ->
  e' = e \/
  exists r2 m u p q, e' = export_headers (headers r') (cgi_env r2 m u p q e).
Proof.
  unfold handle_request.
  destruct (parse_request BUFSIZ chomp r) as [[rc r1]|]; [|done]. cbn [obind].
  destruct (rc <? 0)%Z; [by intros (_ & _ & <-)%with_env_inv; left|].
  destruct (uri r1) as [u|]; [|done]. cbn [nonnull obind].
  set (r2 := set_path r1 (resolve u)).
  destruct (path r2) as [p|]; [|by intros (_ & _ & <-)%with_env_inv; left].
  destruct (stat p) as [m|]; [|by intros (_ & _ & <-)%with_env_inv; left].
  destruct (S_ISDIR m); [by intros [_ <-]%lift_env_inv; left|].
  destruct (S_ISREG m); [|by intros (_ & _ & <-)%with_env_inv; left].
  destruct (access_X_OK p).
  { intros (Hh & m' & u' & p' & q' & ->)%handle_cgi_request_env. right.
    exists r2, m', u', p', q'. by rewrite Hh. }
  destruct (negb _); [by intros [_ <-]%lift_env_inv; left|].
  by intros (_ & _ & <-)%with_env_inv; left.
Qed.

Lemma handle_request_keeps (r r' : Request) (e e' : environ) (st : Status) :
  handle r e = Returns (st, r', e') ->
  (forall k, is_Some (e !! k) -> is_Some (e' !! k)) /\
  (forall k, k ∉ cgi_variables ->
     (forall h, h ∈ headers r' -> exported_as (name h) <> Some k) ->
     e' !! k = e !! k).
Proof.
  intros [->|(r2 & m & u & p & q & ->)]%handle_request_env; [done|]. split.
  - intros k Hk. rewrite export_headers_lookup.
    destruct (last _); [done|]. by apply exported_is_Some.
  - intros k Hk Hh. rewrite export_headers_lookup.
    destruct (last _) as [h|] eqn:El.
    + apply last_Some_elem_of, list_elem_of_filter in El as [El Hin].
      by apply Hh in Hin.
    + by apply exported_other.
Qed.

(** X17 (handler.c, handle_request and handle_cgi_request): the
    handling of a request never unsets a variable of the environment,
    and a variable that is not one of the eight CGI variables and that
    no header of the request is exported to keeps the value it had
    before: a script is run with the HTTP_ variables that earlier
    requests of the same process left behind. *)
Theorem handle_request_environment (r r' : Request) (e e' : environ) (st : Status) :
  handle r e = Returns (st, r', e') ->
  (forall k, is_Some (e !! k) -> is_Some (e' !! k)) /\
  (forall k, k ∉ cgi_variables ->
     (forall h, h ∈ headers r' -> exported_as (name h) <> Some k) ->
     e' !! k = e !! k).
Proof. apply handle_request_keeps. Qed.

Lemma single_server_keeps (arrivals : list arrival) (e e' : environ)
  (statuses : list Status) :
  single arrivals e = Returns (statuses, e') ->
  (forall k, is_Some (e !! k) -> is_Some (e' !! k)) /\
  (forall k, k ∉ cgi_variables ++ header_variables -> e' !! k = e !! k).
Proof.
  revert e statuses. induction arrivals as [|a arrivals IH]; intros e statuses.
  { intros H. assert (e' = e) as -> by (cbn in H; congruence). done. }
  cbn [single_server]. pose proof (accept_request_cases a) as Ha.
  destruct (accept_request a) as [[| |r]|]; cbn [obind]; [|done| |done].
  - apply IH.
  - cbn [handle_request_ptr].
    destruct (handle r e) as [[[st r'] e1]|] eqn:Hh; [|done].
    cbn [obind free_request]. unfold fclose. cbn [nonnull obind].
    destruct (single arrivals e1) as [[served1 e2]|] eqn:Hs; [|done]. cbn [obind].
    intros H. assert (e' = e2) as -> by congruence.
    apply IH in Hs as (Hkeep & Hother).
    destruct (handle_request_keeps _ _ _ _ _ Hh) as [Hkeep1 Hother1].
    split; [by intros k Hk; apply Hkeep, Hkeep1|].
    intros k Hk. rewrite Hother by done. apply Hother1.
    + intros Hin. apply Hk, elem_of_app. by left.
    + intros hd _ Hex. apply Hk, elem_of_app. right.
      by apply exported_as_HTTP in Hex.
Qed.

Lemma single_server_app (pre post : list arrival) (e : environ) :
  single (pre ++ post) e =
    let! (statuses, e1) := single pre e in
    let! (more, e2) := single post e1 in
    Returns (statuses ++ more, e2).
Proof.
  revert e. induction pre as [|a pre IH]; intros e.
  { cbn [app single_server obind].
    by destruct (single post e) as [[more e2]|]. }
  cbn [app single_server].
  destruct (accept_request a) as [[| |r]|]; cbn [obind]; [apply IH|done| |done].
  cbn [handle_request_ptr].
  destruct (handle r e) as [[[st r'] e1]|]; [|done].
  cbn [obind free_request]. unfold fclose. cbn [nonnull obind].
  rewrite IH.
  destruct (single pre e1) as [[statuses e2]|]; [|done]. cbn [obind].
  by destruct (single post e2) as [[more e3]|].
Qed.

Lemma single_server_next (a : arrival) (later : list arrival) (e : environ) :
  single (a :: later) e =
    let! p := accept_request a in
    match p with
    | NULL_request => single later e
    | _ =>
        let! (st, _, e1) := handle_ptr p e in
        let! (more, e2) := single later e1 in
        Returns (st :: more, e2)
    end.
Proof.
  cbn [single_server].
  destruct (accept_request a) as [[| |r]|]; cbn [obind]; [done|done| |done].
  cbn [handle_request_ptr].
  destruct (handle r e) as [[[st r'] e1]|]; [|done].
  cbn [obind free_request]. unfold fclose. by cbn [nonnull obind].
Qed.

(** X19 (single.c, single_server): the loop handles all requests in the
    one environment of the process.  In a run over some connections
    that stays defined no variable of the environment is ever unset,
    and the variables that handle_cgi_request does not set keep their
    values.  The connection that arrives next is skipped when
    accept_request returns NULL, and is otherwise handled in the
    environment the earlier requests left, not in the one the server
    started with, so that what one request exports the scripts of all
    later requests inherit; where accept_request or handle_request
    leaves defined behaviour, so does the loop.  The statement is about
    the statuses and the environment, not about what reaches the
    clients. *)
Theorem single_server_invariants (arrivals : list arrival) (e e' : environ)
  (statuses : list Status) :
  single arrivals e = Returns (statuses, e') ->
  (forall k, is_Some (e !! k) -> is_Some (e' !! k)) /\
  (forall k, k ∉ cgi_variables ++ header_variables -> e' !! k = e !! k) /\
  (forall a later,
     single (arrivals ++ a :: later) e =
       let! p := accept_request a in
       match p with
       | NULL_request =>
           let! (more, e2) := single later e' in
           Returns (statuses ++ more, e2)
       | _ =>
           let! (st, _, e1) := handle_ptr p e' in
           let! (more, e2) := single later e1 in
           Returns (statuses ++ st :: more, e2)
       end).
Proof.
  intros H. destruct (single_server_keeps _ _ _ _ H) as [Hkeep Hother].
  split; [done|]. split; [done|]. intros a later.
  rewrite single_server_app, H. cbn [obind]. rewrite single_server_next.
  destruct (accept_request a) as [[| |r]|]; cbn [obind]; [done|done| |done].
  cbn [handle_request_ptr].
  destruct (handle r e') as [[[st r'] e1]|]; [|done]. cbn [obind].
  by destruct (single later e1) as [[more e2]|].
Qed.

Lemma free_request_accepted (a : arrival) (r : request_ptr) :
  accept_request a = Returns r -> free_request r = Returns tt.
Proof.
  intros E. pose proof (accept_request_cases a) as H. rewrite E in H.
  by destruct r.
Qed.

(** X20 (forking.c, forking_server): the parent leaves defined
    behaviour only where accept_request does.  For every connection it
    forks, the child handles the request in the environment the parent
    started with, whatever the children before it exported or did, and
    a child that crashes does not stop the loop.  The pointer of
    accept_request is not tested: after a failed calloc the child calls
    handle_request on NULL.  When fork fails the connection is closed
    without a response. *)
Theorem forking_server_children (arrivals : list arrival) (e : environ) :
  (forking arrivals e = Undefined <->
   exists a, a ∈ arrivals /\ accept_request a = Undefined) /\
  (forall children, forking arrivals e = Returns children ->
     length children = length arrivals /\
     forall i a, arrivals !! i = Some a ->
       exists r, accept_request a = Returns r /\
         children !! i = Some (if fork_ok a then Some (child r e) else None)) /\
  child NULL_request e = Undefined.
Proof.
  split; [|split; [|done]].
  - induction arrivals as [|a arrivals IH]; cbn [forking_server].
    { split; [done|]. intros (a & Ha & _). by apply elem_of_nil in Ha. }
    destruct (accept_request a) as [r|] eqn:E; cbn [obind].
    2:{ split; [|done]. intros _. exists a. split; [left|done]. }
    rewrite (free_request_accepted a r E).
    assert ((exists a0, a0 ∈ a :: arrivals /\ accept_request a0 = Undefined)
            <-> exists a0, a0 ∈ arrivals /\ accept_request a0 = Undefined) as ->.
    { split; intros (a0 & Hin & Ha0); exists a0; (split; [|done]).
      - apply elem_of_cons in Hin as [->|Hin]; [congruence|done].
      - by right. }
    rewrite <- IH.
    destruct (fork_ok a); cbn [obind]; by destruct (forking arrivals e).
  - induction arrivals as [|a arrivals IH]; intros children; cbn [forking_server].
    { intros [= <-]. split; [done|]. intros i a Hi. by rewrite lookup_nil in Hi. }
    destruct (accept_request a) as [r|] eqn:E; cbn [obind]; [|done].
    rewrite (free_request_accepted a r E).
    destruct (forking arrivals e) as [children1|] eqn:Hf;
      [|by destruct (fork_ok a)].
    destruct (IH children1 eq_refl) as [Hlen Hall].
    intros H.
    assert (children = (if fork_ok a then Some (child r e) else None) :: children1)
      as -> by (destruct (fork_ok a); cbn [obind] in H; congruence).
    split; [cbn [length]; by rewrite Hlen|].
    intros [|i] a0 Hi.
    + injection Hi as <-. by exists r.
    + by apply Hall.
Qed.

End ServerProofs.

Lemma Example_report_leftover :
  handle_request Example.BUFSIZ Example.Port Example.MimeTypesPath
      Example.DefaultMimeType Example.root Example.WHITESPACE Example.chomp
      Example.realpath Example.stat Example.access_X_OK Example.fopen_r
      Example.opendir Example.readdir_all Example.popen_r Example.fwrite_ret
      (Example.request Example.get_report) Example.leftover
    = Returns (HTTP_STATUS_OK,
               fputs Example.report_output Example.parsed_report,
               Example.report_env_leftover).
Proof. vm_compute. reflexivity. Qed.

Lemma handle_request_environment_witness :
  Example.report_env_leftover !! "HTTP_HOST" = Example.leftover !! "HTTP_HOST".
Proof.
  apply (proj2 (handle_request_environment Example.BUFSIZ Example_BUFSIZ_min
                  Example.Port
                  Example.MimeTypesPath Example.DefaultMimeType Example.root
                  Example.WHITESPACE Example.chomp Example.realpath
                  Example.stat Example.access_X_OK Example.fopen_r
                  Example.opendir Example.readdir_all Example.popen_r
                  Example.fwrite_ret _ _ _ _ _ Example_report_leftover)
               "HTTP_HOST"%string).
  - compute_done.
  - intros h Hh. cbn in Hh. by apply elem_of_nil in Hh.
Defined.

Lemma Example_single_run :
  single_server Example.BUFSIZ Example.Port Example.MimeTypesPath
      Example.DefaultMimeType Example.root Example.WHITESPACE Example.chomp
      Example.realpath Example.stat Example.access_X_OK Example.fopen_r
      Example.opendir Example.readdir_all Example.popen_r Example.fwrite_ret
      [Example.connect Example.get_report;
       Arrival false 0%Z None false false [];
       Example.connect Example.get_nothing] Example.leftover
    = Returns ([HTTP_STATUS_OK; HTTP_STATUS_BAD_REQUEST],
               Example.report_env_leftover).
Proof. vm_compute. reflexivity. Qed.

Lemma single_server_invariants_witness :
  is_Some (Example.report_env_leftover !! "HTTP_HOST").
Proof.
  apply (proj1 (single_server_invariants Example.BUFSIZ Example_BUFSIZ_min
                  Example.Port Example.MimeTypesPath Example.DefaultMimeType
                  Example.root Example.WHITESPACE Example.chomp
                  Example.realpath Example.stat Example.access_X_OK
                  Example.fopen_r Example.opendir Example.readdir_all
                  Example.popen_r Example.fwrite_ret _ _ _ _
                  Example_single_run) "HTTP_HOST"%string).
  by eexists.
Defined.

(** ** main.c: the command line *)

Lemma words_length (settings : list (Main.setting * cstring)) :
  length (concat (Main.words <$> settings)) = 2 * length settings.
Proof. induction settings as [|s settings IH]; [done|]. cbn. lia. Qed.

(** One pass of the loop over the two words of a setting. *)
Lemma parse_options_loop_setting (fuel : nat) (pre tail : list cstring)
  (s : Main.setting * cstring) (mode : Main.ServerMode) (g : Main.globals) :
  Main.parse_options_loop (S fuel) (pre ++ Main.words s ++ tail) (length pre) mode g
    = Main.parse_options_loop fuel (pre ++ Main.words s ++ tail) (length pre + 2)
        (Main.apply_setting (mode, g) s.1).1 (Main.apply_setting (mode, g) s.1).2.
Proof.
  destruct s as [s extra]. cbn [Main.parse_options_loop].
  rewrite lookup_app_r, Nat.sub_diag by lia. cbn [Main.words fst snd app lookup list_lookup].
  assert ((pre ++ ("-"%char :: Main.flag s :: extra) :: Main.argument s :: tail)
            !! S (length pre) = Some (Main.argument s)) as Hnext.
  { rewrite lookup_app_r by lia. by replace (S (length pre) - length pre) with 1 by lia. }
  rewrite Hnext. replace (length pre + 2) with (S (S (length pre))) by lia.
  destruct s as [[]| | | |]; reflexivity.
Qed.

(** The loop over a prefix of well-formed settings. *)
Lemma parse_options_loop_prefix (fuel : nat) (pre tail : list cstring)
  (settings : list (Main.setting * cstring)) (mode : Main.ServerMode)
  (g : Main.globals) :
  Main.parse_options_loop (length settings + fuel)
      (pre ++ concat (Main.words <$> settings) ++ tail) (length pre) mode g
    = Main.parse_options_loop fuel
        (pre ++ concat (Main.words <$> settings) ++ tail)
        (length pre + 2 * length settings)
        (foldl Main.apply_setting (mode, g) (fst <$> settings)).1
        (foldl Main.apply_setting (mode, g) (fst <$> settings)).2.
Proof.
  revert pre mode g. induction settings as [|s settings IH]; intros pre mode g.
  { cbn. by rewrite Nat.add_0_r. }
  cbn [length fmap list_fmap concat foldl Nat.add].
  rewrite <- (app_assoc (Main.words s)).
  rewrite parse_options_loop_setting.
  replace (pre ++ Main.words s ++ concat (Main.words <$> settings) ++ tail)
    with ((pre ++ Main.words s) ++ concat (Main.words <$> settings) ++ tail)
    by (by rewrite <- app_assoc).
  replace (length pre + 2) with (length (pre ++ Main.words s))
    by (rewrite length_app; destruct s; reflexivity).
  destruct (Main.apply_setting (mode, g) s.1) as [mode' g'] eqn:E. cbn [fst snd].
  rewrite IH. rewrite length_app. f_equal. destruct s; cbn [Main.words length]. lia.
Qed.

Lemma parse_options_prefix (prog : cstring) (tail : list cstring)
  (settings : list (Main.setting * cstring)) (mode : Main.ServerMode)
  (g : Main.globals) :
  Main.parse_options (prog :: concat (Main.words <$> settings) ++ tail) mode g
    = Main.parse_options_loop (S (length settings + length tail))
        ([prog] ++ concat (Main.words <$> settings) ++ tail)
        (1 + 2 * length settings)
        (foldl Main.apply_setting (mode, g) (fst <$> settings)).1
        (foldl Main.apply_setting (mode, g) (fst <$> settings)).2.
Proof.
  unfold Main.parse_options.
  change (prog :: concat (Main.words <$> settings) ++ tail)
    with ([prog] ++ concat (Main.words <$> settings) ++ tail).
  rewrite !length_app, words_length. cbn [length].
  replace (1 + (2 * length settings + length tail))
    with (length settings + S (length settings + length tail)) by lia.
  apply (parse_options_loop_prefix _ [prog]).
Qed.

(** What the loop finds at the word after the settings. *)
Lemma lookup_after_settings (prog : cstring) (tail : list cstring)
  (settings : list (Main.setting * cstring)) (i : nat) :
  ([prog] ++ concat (Main.words <$> settings) ++ tail)
    !! (1 + 2 * length settings + i) = tail !! i.
Proof.
  rewrite lookup_app_r by (cbn; lia). cbn [length].
  rewrite lookup_app_r by (rewrite words_length; lia).
  rewrite words_length. f_equal. lia.
Qed.

Lemma parse_options_settings (prog : cstring) (rest : list cstring)
  (settings : list (Main.setting * cstring)) (mode : Main.ServerMode)
  (g : Main.globals) :
  match rest with [] => True | a :: _ => Main.not_an_option a end ->
  Main.parse_options (prog :: concat (Main.words <$> settings) ++ rest) mode g
    = Returns (Main.Done
                 (true, (foldl Main.apply_setting (mode, g) (fst <$> settings)).1,
                  (foldl Main.apply_setting (mode, g) (fst <$> settings)).2)).
Proof.
  intros Hrest. rewrite parse_options_prefix. cbn [Main.parse_options_loop].
  rewrite <- (Nat.add_0_r (1 + 2 * length settings)), lookup_after_settings.
  destruct rest as [|a rest]; [done|]. cbn [lookup list_lookup].
  destruct Hrest as [Hlen|Hdash].
  - assert ((1 <? strlen a) = false) as -> by (apply Nat.ltb_ge; done). done.
  - rewrite (bool_decide_eq_false_2 _ Hdash). by rewrite andb_false_r.
Qed.

(** X21 (main.c, parse_options): a command line made of settings, each
    an option word and its value, is parsed into just these settings:
    parse_options returns true, and the mode and the four globals are
    those of the last setting of each kind, or what they were when
    there is none.  Of an option word only the letter after the dash is
    read, the value is taken as it stands, and parsing ends at the first
    word that is not a dash followed by something, what comes after it
    being ignored. *)
Theorem parse_options_round_trip (prog : cstring) (rest : list cstring)
  (settings : list (Main.setting * cstring)) (mode : Main.ServerMode)
  (g : Main.globals) :
  match rest with [] => True | a :: _ => Main.not_an_option a end ->
  Main.parse_options (prog :: concat (Main.words <$> settings) ++ rest) mode g
    = Returns (Main.Done
                 (true, (foldl Main.apply_setting (mode, g) (fst <$> settings)).1,
                  (foldl Main.apply_setting (mode, g) (fst <$> settings)).2)).
Proof. apply parse_options_settings. Qed.

Lemma parse_options_round_trip_witness :
  Main.parse_options
      [lit "./server"; lit "-port"; lit "8080"; lit "-c"; lit "forking";
       lit "-r"; lit "-p"; lit "-p"; lit "80"; lit "-"; lit "-c"]
      Main.SINGLE Main.initial_globals
    = Returns (Main.Done
                 (true, Main.FORKING,
                  Main.Globals (Some (lit "80")) (Some (lit "/etc/mime.types"))
                               (Some (lit "text/plain")) (Some (lit "-p")))).
Proof.
  apply (parse_options_round_trip (lit "./server") [lit "-"; lit "-c"]
           [(Main.Listen (lit "8080"), lit "ort"); (Main.Mode Main.FORKING, []);
            (Main.Root (lit "-p"), []); (Main.Listen (lit "80"), [])]
           Main.SINGLE Main.initial_globals).
  left. cbn. lia.
Defined.

Lemma parse_options_loop_end (fuel : nat) (argv : list cstring) (i : nat)
  (mode : Main.ServerMode) (g : Main.globals) :
  argv !! i = None ->
  Main.parse_options_loop fuel argv i mode g = Returns (Main.Done (true, mode, g)).
Proof. intros H. destruct fuel; [done|]. cbn [Main.parse_options_loop]. by rewrite H. Qed.

(** The pass of the loop at the option word that follows the settings. *)
Lemma parse_options_at_word (prog : cstring) (tail : list cstring)
  (settings : list (Main.setting * cstring)) (mode : Main.ServerMode)
  (g : Main.globals) (f : ascii) (extra : cstring) :
  let c := foldl Main.apply_setting (mode, g) (fst <$> settings) in
  let argv := [prog] ++ concat (Main.words <$> settings)
              ++ ("-"%char :: f :: extra) :: tail in
  let fuel := length settings + length (("-"%char :: f :: extra) :: tail) in
  let next := S (1 + 2 * length settings) in
  Main.parse_options (prog :: concat (Main.words <$> settings)
                      ++ ("-"%char :: f :: extra) :: tail) mode g
    = if bool_decide (f = "c"%char) then
        let! a := nonnull (tail !! 0) in
        if streq a (lit "single") then
          Main.parse_options_loop fuel argv (S next) Main.SINGLE c.2
        else if streq a (lit "forking") then
          Main.parse_options_loop fuel argv (S next) Main.FORKING c.2
        else Returns (Main.Done (false, c.1, c.2))
      else if bool_decide (f = "h"%char) then
        Main.usage (Some prog) Main.EXIT_SUCCESS
      else if bool_decide (f = "m"%char) then
        Main.parse_options_loop fuel argv (S next) c.1
                                (Main.set_MimeTypesPath c.2 (tail !! 0))
      else if bool_decide (f = "M"%char) then
        Main.parse_options_loop fuel argv (S next) c.1
                                (Main.set_DefaultMimeType c.2 (tail !! 0))
      else if bool_decide (f = "p"%char) then
        Main.parse_options_loop fuel argv (S next) c.1
                                (Main.set_Port c.2 (tail !! 0))
      else if bool_decide (f = "r"%char) then
        Main.parse_options_loop fuel argv (S next) c.1
                                (Main.set_RootPath c.2 (tail !! 0))
      else Returns (Main.Done (false, c.1, c.2)).
Proof.
  intros c argv fuel next. rewrite parse_options_prefix. fold c argv.
  change (S (length settings + length (("-"%char :: f :: extra) :: tail)))
    with (S fuel).
  cbn [Main.parse_options_loop].
  assert (argv !! (1 + 2 * length settings) = Some ("-"%char :: f :: extra)) as ->.
  { unfold argv. rewrite <- (Nat.add_0_r (1 + 2 * length settings)).
    by rewrite lookup_after_settings. }
  assert (argv !! S (1 + 2 * length settings) = tail !! 0) as ->.
  { unfold argv. replace (S (1 + 2 * length settings))
      with (1 + 2 * length settings + 1) by lia.
    by rewrite lookup_after_settings. }
  assert (argv !! 0 = Some prog) as -> by done.
  reflexivity.
Qed.

Lemma parse_options_unknown (prog : cstring) (tail : list cstring)
  (settings : list (Main.setting * cstring)) (mode : Main.ServerMode)
  (g : Main.globals) (f : ascii) (extra : cstring) :
  f ∉ ["c"; "h"; "m"; "M"; "p"; "r"]%char ->
  Main.parse_options (prog :: concat (Main.words <$> settings)
                      ++ ("-"%char :: f :: extra) :: tail) mode g
    = Returns (Main.Done
                 (false, (foldl Main.apply_setting (mode, g) (fst <$> settings)).1,
                  (foldl Main.apply_setting (mode, g) (fst <$> settings)).2)).
Proof.
  intros Hf. rewrite parse_options_at_word. cbv zeta.
  rewrite !bool_decide_eq_false_2; [done|intros ->; apply Hf; compute_done..].
Qed.

(** X22 (main.c, parse_options): after any settings, an option word
    whose letter is none of c, h, m, M, p and r makes parse_options
    return false, and so does -c before a word that is neither single
    nor forking; -h prints the usage text and leaves with
    EXIT_SUCCESS.  The value of an option is read without a test for
    the end of the command line: as its last word, -m, -M, -p and -r
    store the NULL pointer argv[argc] in their global and
    parse_options returns true, and -c gives that NULL pointer to
    streq. *)
Theorem parse_options_rejects (prog : cstring)
  (settings : list (Main.setting * cstring)) (mode : Main.ServerMode)
  (g : Main.globals) :
  let c := foldl Main.apply_setting (mode, g) (fst <$> settings) in
  let parse tail :=
    Main.parse_options (prog :: concat (Main.words <$> settings) ++ tail) mode g in
  (forall f extra tail,
     f ∉ ["c"; "h"; "m"; "M"; "p"; "r"]%char ->
     parse (("-"%char :: f :: extra) :: tail)
       = Returns (Main.Done (false, c.1, c.2))) /\
  (forall extra v tail,
     v <> lit "single" -> v <> lit "forking" ->
     parse (("-"%char :: "c"%char :: extra) :: v :: tail)
       = Returns (Main.Done (false, c.1, c.2))) /\
  (forall extra tail,
     parse (("-"%char :: "h"%char :: extra) :: tail)
       = Main.usage (Some prog) Main.EXIT_SUCCESS) /\
  (forall extra, parse [("-"%char :: "c"%char :: extra)] = Undefined) /\
  (forall extra,
     parse [("-"%char :: "m"%char :: extra)]
       = Returns (Main.Done (true, c.1, Main.set_MimeTypesPath c.2 None))) /\
  (forall extra,
     parse [("-"%char :: "M"%char :: extra)]
       = Returns (Main.Done (true, c.1, Main.set_DefaultMimeType c.2 None))) /\
  (forall extra,
     parse [("-"%char :: "p"%char :: extra)]
       = Returns (Main.Done (true, c.1, Main.set_Port c.2 None))) /\
  (forall extra,
     parse [("-"%char :: "r"%char :: extra)]
       = Returns (Main.Done (true, c.1, Main.set_RootPath c.2 None))).
Proof.
  intros c parse. unfold parse.
  assert (forall extra f,
            ([prog] ++ concat (Main.words <$> settings) ++ [("-"%char :: f :: extra)])
              !! S (S (1 + 2 * length settings)) = None) as Hend.
  { intros extra f. replace (S (S (1 + 2 * length settings)))
      with (1 + 2 * length settings + 2) by lia.
    by rewrite lookup_after_settings. }
  split; [intros f extra tail Hf; by apply parse_options_unknown|].
  repeat split; intros; rewrite parse_options_at_word; cbv zeta; unfold streq;
    cbn [lookup list_lookup nonnull obind];
    repeat (first [rewrite bool_decide_eq_true_2 by done
                  |rewrite bool_decide_eq_false_2 by done]);
    try done; by rewrite parse_options_loop_end.
Qed.

Section MainProofs.
Variable socket_listen : option cstring -> Z.
Variable realpath : cstring -> option cstring.

(** X23 (main.c, main): on a command line of settings main starts in
    SINGLE mode unless a -c says otherwise.  It first opens the server
    socket on the port of the last -p (9898 without one) and leaves
    with EXIT_FAILURE when that fails; only then it replaces RootPath
    (www without -r) by what realpath makes of it, NULL when realpath
    fails, and enters the loop of the mode.  An option letter that
    parse_options rejects ends the program with the usage text and
    EXIT_FAILURE, whatever socket_listen would return. *)
Theorem main_configuration (prog : cstring)
  (settings : list (Main.setting * cstring)) :
  let c := foldl Main.apply_setting (Main.SINGLE, Main.initial_globals)
                 (fst <$> settings) in
  let sfd := socket_listen (Main.Port c.2) in
  Main.main socket_listen realpath (prog :: concat (Main.words <$> settings))
    = Returns
        (if (sfd <? 0)%Z then
           Main.Exit Main.EXIT_FAILURE (lit "socket_listen failed" ++ [LF])
         else
           Main.Done
             (Main.Serving c.1 sfd
                (Main.set_RootPath c.2 (Main.RootPath c.2 ≫= realpath)))) /\
  (forall f extra tail,
     f ∉ ["c"; "h"; "m"; "M"; "p"; "r"]%char ->
     Main.main socket_listen realpath
               (prog :: concat (Main.words <$> settings)
                ++ ("-"%char :: f :: extra) :: tail)
       = Main.usage (Some prog) Main.EXIT_FAILURE).
Proof.
  intros c sfd. split.
  - unfold Main.main.
    rewrite <- (app_nil_r (concat (Main.words <$> settings))).
    rewrite parse_options_settings by done. cbn [obind negb]. fold c sfd.
    by destruct (sfd <? 0)%Z.
  - intros f extra tail Hf. unfold Main.main.
    by rewrite parse_options_unknown.
Qed.

End MainProofs.
